(** * kia: login manager — authentication policy, configuration loading,
      session launch and credential handling

    A shallow embedding of the C sources of kia (src/auth.c, src/config.c,
    src/session.c, src/tui.c, src/controller.c) and the properties of
    its authentication/lockout policy, its configuration loader, its
    privileged session launch and its handling of the pending secret.

    Conventions of the embedding.
    - A C [int] is a [Z]; where the code does arithmetic on it the 32-bit
      wrap-around is written out ([int_wrap]); [time_t] is a 64-bit signed
      [Z] ([time_wrap]).
    - A NUL-terminated C string is a [string] (the bytes before the NUL);
      a fixed [char\[N\]] array whose individual cells matter is a
      [list ascii] of length N.
    - A pointer argument that may be NULL is an [option]; a function that
      writes through a pointer returns the new pointee.
    - The operating system, the clock, PAM and the terminal are an
      environment of oracles ([env]); the module's static variables and
      the trace of external calls are the threaded state ([globals]). *)

From stdpp Require Import base tactics option list strings numbers.
From Stdlib Require Import ZArith Ascii String Lia.

Local Open Scope string_scope.
Local Open Scope Z_scope.

(** ** Machine integers *)

Definition INT_MIN : Z := -2147483648.
Definition INT_MAX : Z := 2147483647.
Definition TIME_MIN : Z := -9223372036854775808.
Definition TIME_MAX : Z := 9223372036854775807.

(** Two's complement wrap-around of a 32-bit [int]. *)
Definition int_wrap (z : Z) : Z := (z + 2 ^ 31) mod 2 ^ 32 - 2 ^ 31.

(** Two's complement wrap-around of a 64-bit [time_t]. *)
Definition time_wrap (z : Z) : Z := (z + 2 ^ 63) mod 2 ^ 64 - 2 ^ 63.

(** ** include/config.h *)

Definition KIA_SUCCESS : Z := 0.
Definition KIA_ERROR_CONFIG : Z := -1.
Definition KIA_ERROR_AUTH : Z := -2.
Definition KIA_ERROR_SESSION : Z := -3.
Definition KIA_ERROR_SYSTEM : Z := -4.
Definition KIA_ERROR_PAM : Z := -5.

Record kia_config_t : Type := mk_config {
  autologin_user : string;
  autologin_enabled : bool;
  default_session : string;
  max_attempts : Z;
  enable_logs : bool;
  lockout_duration : Z
}.

(** ** include/auth.h *)

Record auth_state_t : Type := mk_auth_state {
  username : string;
  failed_attempts : Z;
  lockout_until : Z
}.

(** The state after [memset(&state, 0, sizeof state)] / [= {0}]. *)
Definition auth_state_zero : auth_state_t :=
  {| username := ""; failed_attempts := 0; lockout_until := 0 |}.

(** ** The environment and the threaded state *)

Inductive log_level : Type := LOG_DEBUG | LOG_INFO | LOG_WARN | LOG_ERROR.

Inductive vt_request : Type := VT_LOCKSWITCH | VT_UNLOCKSWITCH.

(** External calls, in the order they are made. *)
Inductive event : Type :=
  | EvLog (lvl : log_level) (fmt : string)
  | EvTime (t : Z)
  | EvOpen (path : string) (ret : Z)
  | EvIoctl (fd : Z) (req : vt_request) (ret : Z)
  | EvClose (fd : Z)
  | EvPamStart (service user : string) (ret : Z)
  | EvPamAuthenticate (user password : string) (ret : Z)
  | EvPamAcctMgmt (user : string) (ret : Z)
  | EvPamEnd (user : string)
  | EvTuiShowError (msg : string)
  | EvTuiReadCredentials.

Definition PAM_SUCCESS : Z := 0.

(** What the outside world answers.  Nothing is assumed about the
    answers: each theorem says which ones it needs. *)
Record env : Type := mk_env {
  (** the result of the k-th call of [time(NULL)] *)
  env_time : nat -> Z;
  (** [open("/dev/tty", O_RDWR)]: a descriptor, or a negative value *)
  env_open_tty : Z;
  (** [ioctl(fd, VT_LOCKSWITCH)] and [ioctl(fd, VT_UNLOCKSWITCH)] *)
  env_ioctl : vt_request -> Z;
  (** [pam_start("kia", user, ...)] *)
  env_pam_start : string -> Z;
  (** [pam_authenticate], with the conversation answering the secret *)
  env_pam_authenticate : string -> string -> Z;
  (** [pam_acct_mgmt] *)
  env_pam_acct_mgmt : string -> Z
}.

(** One event of the terminal: what [refresh()] returns before the key is
    read, and the key [getch()] returns. *)
Record tty_input : Type := mk_tty_input {
  in_refresh_ok : bool;
  in_key : Z
}.

(** The curses screen as tui.c sees it. *)
Record screen : Type := mk_screen {
  stdscr_ok : bool;
  max_y : Z;
  max_x : Z
}.

Record globals : Type := mk_globals {
  (** how many readings of the clock the program has taken with
      [time(NULL)]: the index of the next one in [env_time].  The
      reading the log sink takes for the timestamp of a line is the
      sink's own and is not among them. *)
  g_ticks : nat;
  (** [static int tty_fd] of auth.c *)
  g_tty_fd : Z;
  (** [static struct pam_handle *pam_handle] of auth.c: the user of the
      open transaction, or NULL *)
  g_pam_handle : option string;
  (** the terminal: its screen and the keys still to come *)
  g_screen : screen;
  g_input : list tty_input;
  (** external calls made so far, oldest first *)
  g_trace : list event
}.

Definition globals_init (scr : screen) (keys : list tty_input) : globals :=
  {| g_ticks := 0; g_tty_fd := -1; g_pam_handle := None;
     g_screen := scr; g_input := keys; g_trace := [] |}.

(** A computation reads the environment and threads the globals. *)
Definition M (A : Type) : Type := env -> globals -> A * globals.

#[global] Instance M_ret : MRet M := fun A (a : A) _ g => (a, g).

#[global] Instance M_bind : MBind M :=
  fun A B (k : A -> M B) (m : M A) e g => let '(a, g') := m e g in k a e g'.

Definition emit (ev : event) : M unit :=
  fun _ g =>
    (tt, {| g_ticks := g_ticks g; g_tty_fd := g_tty_fd g;
            g_pam_handle := g_pam_handle g; g_screen := g_screen g;
            g_input := g_input g; g_trace := g_trace g ++ [ev] |}).

Definition get_tty_fd : M Z := fun _ g => (g_tty_fd g, g).

Definition set_tty_fd (fd : Z) : M unit :=
  fun _ g =>
    (tt, {| g_ticks := g_ticks g; g_tty_fd := fd;
            g_pam_handle := g_pam_handle g; g_screen := g_screen g;
            g_input := g_input g; g_trace := g_trace g |}).

Definition get_pam_handle : M (option string) := fun _ g => (g_pam_handle g, g).

Definition set_pam_handle (h : option string) : M unit :=
  fun _ g =>
    (tt, {| g_ticks := g_ticks g; g_tty_fd := g_tty_fd g;
            g_pam_handle := h; g_screen := g_screen g;
            g_input := g_input g; g_trace := g_trace g |}).

Definition ask {A} (f : env -> A) : M A := fun e g => (f e, g).

(** [logger_log(level, fmt, ...)]: the log sink is external; the call is
    recorded with its level and format string.  What the sink does with
    it (whether it is enabled, the timestamp it reads from the clock
    for the line, the write) is in [Logger] below and leaves the state
    threaded here alone. *)
Definition logger_log (lvl : log_level) (fmt : string) : M unit :=
  emit (EvLog lvl fmt).

(** [time(NULL)]. *)
Definition time_NULL : M Z :=
  fun e g =>
    let t := env_time e (g_ticks g) in
    (t, {| g_ticks := S (g_ticks g); g_tty_fd := g_tty_fd g;
           g_pam_handle := g_pam_handle g; g_screen := g_screen g;
           g_input := g_input g; g_trace := g_trace g ++ [EvTime t] |}).

(** [strcmp]: zero exactly on equal strings, else the sign of the first
    difference. *)
Definition strcmp (a b : string) : Z :=
  match String.compare a b with
  | Eq => 0
  | Lt => -1
  | Gt => 1
  end.

(** [strncpy(dst, src, n); dst\[n\] = '\0'] into an array of [n + 1]
    bytes: the string the array then holds. *)
Definition strncpy (src : string) (n : nat) : string := String.substring 0 n src.

(** ** src/auth.c *)

Definition tty_lock : M Z :=
  fd ← ask env_open_tty;
  emit (EvOpen "/dev/tty" fd);;
  set_tty_fd fd;;
  if fd <? 0 then
    logger_log LOG_WARN "Failed to open TTY for locking: %s";;
    mret KIA_ERROR_SYSTEM
  else
    r ← ask (fun e => env_ioctl e VT_LOCKSWITCH);
    emit (EvIoctl fd VT_LOCKSWITCH r);;
    if r <? 0 then
      logger_log LOG_WARN "Failed to lock VT switching: %s";;
      emit (EvClose fd);;
      set_tty_fd (-1);;
      mret KIA_ERROR_SYSTEM
    else
      logger_log LOG_DEBUG "TTY locked during authentication";;
      mret KIA_SUCCESS.

Definition tty_unlock : M unit :=
  fd ← get_tty_fd;
  if fd >=? 0 then
    r ← ask (fun e => env_ioctl e VT_UNLOCKSWITCH);
    emit (EvIoctl fd VT_UNLOCKSWITCH r);;
    (if r <? 0 then logger_log LOG_WARN "Failed to unlock VT switching: %s"
     else mret tt);;
    emit (EvClose fd);;
    set_tty_fd (-1);;
    logger_log LOG_DEBUG "TTY unlocked after authentication"
  else mret tt.

Definition auth_init : M Z :=
  logger_log LOG_INFO "Authentication module initialized";;
  mret KIA_SUCCESS.

(** [auth_reset_attempts]: a NULL state is left alone. *)
Definition auth_reset_attempts (state : option auth_state_t) : option auth_state_t :=
  match state with
  | Some st =>
      Some {| username := username st; failed_attempts := 0; lockout_until := 0 |}
  | None => None
  end.

(** The body of [auth_is_locked_out] once [state] is known not to be
    NULL. *)
Definition auth_is_locked_out_at (st : auth_state_t) : M (bool * auth_state_t) :=
  if lockout_until st =? 0 then mret (false, st)
  else
    now ← time_NULL;
    if now >=? lockout_until st then
      (* Lockout expired *)
      mret (false, {| username := username st; failed_attempts := 0;
                     lockout_until := 0 |})
    else mret (true, st).

Definition auth_is_locked_out (state : option auth_state_t)
  : M (bool * option auth_state_t) :=
  match state with
  | None => mret (false, None)
  | Some st =>
      '(b, st') ← auth_is_locked_out_at st;
      mret (b, Some st')
  end.

Definition auth_authenticate (user password : option string)
    (config : option kia_config_t) (state : option auth_state_t)
  : M (Z * option auth_state_t) :=
  match user, password, config, state with
  | Some user, Some password, Some config, Some st =>
      (* Check if user is locked out *)
      '(locked, st) ← auth_is_locked_out_at st;
      if locked : bool then
        _ ← time_NULL;
        logger_log LOG_WARN "User '%s' is locked out for %d more seconds";;
        mret (KIA_ERROR_AUTH, Some st)
      else
        (* Update state username if changed *)
        let st :=
          if negb (strcmp (username st) user =? 0) then
            {| username := strncpy user 255; failed_attempts := 0;
               lockout_until := 0 |}
          else st in
        (* Lock TTY to prevent switching during authentication *)
        _ ← tty_lock;
        (* Initialize PAM *)
        pam_result ← ask (fun e => env_pam_start e user);
        emit (EvPamStart "kia" user pam_result);;
        set_pam_handle (if pam_result =? PAM_SUCCESS then Some user else None);;
        if negb (pam_result =? PAM_SUCCESS) then
          logger_log LOG_ERROR "PAM initialization failed: %s";;
          tty_unlock;;
          mret (KIA_ERROR_PAM, Some st)
        else
          (* Authenticate *)
          pam_result ← ask (fun e => env_pam_authenticate e user password);
          emit (EvPamAuthenticate user password pam_result);;
          if pam_result =? PAM_SUCCESS then
            (* Verify account *)
            pam_result ← ask (fun e => env_pam_acct_mgmt e user);
            emit (EvPamAcctMgmt user pam_result);;
            if negb (pam_result =? PAM_SUCCESS) then
              logger_log LOG_ERROR
                "PAM account verification failed for user '%s': %s";;
              emit (EvPamEnd user);;
              set_pam_handle None;;
              let attempts := int_wrap (failed_attempts st + 1) in
              st ← (if attempts >=? max_attempts config then
                       now ← time_NULL;
                       logger_log LOG_WARN
                         "User '%s' locked out after %d failed attempts";;
                       mret {| username := username st;
                              failed_attempts := attempts;
                              lockout_until :=
                                time_wrap (now + lockout_duration config) |}
                     else
                       mret {| username := username st;
                              failed_attempts := attempts;
                              lockout_until := lockout_until st |});
              tty_unlock;;
              mret (KIA_ERROR_AUTH, Some st)
            else
              (* Authentication successful *)
              logger_log LOG_INFO "User '%s' authenticated successfully";;
              let state := auth_reset_attempts (Some st) in
              emit (EvPamEnd user);;
              set_pam_handle None;;
              tty_unlock;;
              mret (KIA_SUCCESS, state)
          else
            (* Authentication failed *)
            let attempts := int_wrap (failed_attempts st + 1) in
            logger_log LOG_ERROR
              "Authentication failed for user '%s' (attempt %d/%d): %s";;
            (* Check if lockout threshold reached *)
            st ← (if attempts >=? max_attempts config then
                     now ← time_NULL;
                     logger_log LOG_WARN
                       "User '%s' locked out after %d failed attempts";;
                     mret {| username := username st;
                            failed_attempts := attempts;
                            lockout_until :=
                              time_wrap (now + lockout_duration config) |}
                   else
                     mret {| username := username st;
                            failed_attempts := attempts;
                            lockout_until := lockout_until st |});
            emit (EvPamEnd user);;
            set_pam_handle None;;
            tty_unlock;;
            mret (KIA_ERROR_AUTH, Some st)
  | _, _, _, _ =>
      logger_log LOG_ERROR "Invalid parameters to auth_authenticate";;
      mret (KIA_ERROR_AUTH, state)
  end.

(** ** src/config.c *)

Definition DEFAULT_AUTOLOGIN_ENABLED : bool := false.
Definition DEFAULT_AUTOLOGIN_USER : string := "".
Definition DEFAULT_SESSION : string := "xfce".
Definition DEFAULT_MAX_ATTEMPTS : Z := 3.
Definition DEFAULT_ENABLE_LOGS : bool := true.
Definition DEFAULT_LOCKOUT_DURATION : Z := 60.

Definition MIN_MAX_ATTEMPTS : Z := 1.
Definition MAX_MAX_ATTEMPTS : Z := 10.

(** [config_set_defaults] overwrites every field. *)
Definition config_set_defaults (config : kia_config_t) : kia_config_t :=
  {| autologin_enabled := DEFAULT_AUTOLOGIN_ENABLED;
     autologin_user := strncpy DEFAULT_AUTOLOGIN_USER 255;
     default_session := strncpy DEFAULT_SESSION 255;
     max_attempts := DEFAULT_MAX_ATTEMPTS;
     enable_logs := DEFAULT_ENABLE_LOGS;
     lockout_duration := DEFAULT_LOCKOUT_DURATION |}.

Definition char_code (c : ascii) : Z := Z.of_N (N_of_ascii c).

(** [isspace] in the C locale: space, \t, \n, \v, \f, \r. *)
Definition isspace (c : ascii) : bool :=
  let n := char_code c in
  (n =? 32) || ((9 <=? n) && (n <=? 13)).

(** The loop [while (isspace( *str )) str++]. *)
Fixpoint skip_spaces (str : string) : string :=
  match str with
  | String c rest => if isspace c then skip_spaces rest else str
  | EmptyString => str
  end.

(** The characters after the first one that survive
    [while (end > str && isspace( *end )) end--; end\[1\] = 0]. *)
Fixpoint drop_trailing_spaces (s : string) : string :=
  match s with
  | EmptyString => EmptyString
  | String c rest =>
      match drop_trailing_spaces rest with
      | EmptyString => if isspace c then EmptyString else String c EmptyString
      | kept => String c kept
      end
  end.

Definition trim_whitespace (str : string) : string :=
  match skip_spaces str with
  | EmptyString => EmptyString
  | String c rest => String c (drop_trailing_spaces rest)
  end.

Definition parse_bool (value : string) : bool :=
  (strcmp value "true" =? 0) || (strcmp value "1" =? 0) ||
  (strcmp value "yes" =? 0) || (strcmp value "on" =? 0).

(** [strchr(line, c)] followed by [*p = '\0']: the text before the first
    [c] and the text after it, or [None] when [c] does not occur. *)
Fixpoint split_at (c : ascii) (line : string) : option (string * string) :=
  match line with
  | EmptyString => None
  | String d rest =>
      if Ascii.eqb d c then Some (EmptyString, rest)
      else match split_at c rest with
           | Some (before, after) => Some (String d before, after)
           | None => None
           end
  end.

Definition LONG_MIN : Z := TIME_MIN.
Definition LONG_MAX : Z := TIME_MAX.

Definition is_digit (c : ascii) : bool :=
  (48 <=? char_code c) && (char_code c <=? 57).

Fixpoint strtol_digits (s : string) (acc : Z) : Z :=
  match s with
  | String c rest =>
      if is_digit c then strtol_digits rest (acc * 10 + (char_code c - 48))
      else acc
  | EmptyString => acc
  end.

(** [strtol(s, NULL, 10)]: leading white space, an optional sign, the
    decimal digits that follow; the value saturates at the bounds of
    [long]. *)
Definition strtol10 (s : string) : Z :=
  let s := skip_spaces s in
  let '(negative, digits) :=
    match s with
    | String "-"%char rest => (true, rest)
    | String "+"%char rest => (false, rest)
    | _ => (false, s)
    end in
  let v := strtol_digits digits 0 in
  Z.max LONG_MIN (Z.min LONG_MAX (if negative then - v else v)).

(** [atoi] of the C library, as glibc defines it: [(int) strtol(s, NULL,
    10)].  The properties below hold whatever number [atoi] returns. *)
Definition atoi (s : string) : Z := int_wrap (strtol10 s).

(** [parse_config_line]: a static function whose only caller passes the
    addresses of two objects, so its NULL guard cannot fire and the
    arguments are the objects themselves.  [key] and [value] are the two
    halves of the line around the first '=', each trimmed. *)
Definition parse_config_line (line : string) (config : kia_config_t)
  : Z * kia_config_t :=
  (* Skip empty lines and comments *)
  if match line with
     | EmptyString => true
     | String c _ => Ascii.eqb c "#"%char
     end
  then (KIA_SUCCESS, config)
  else
    match split_at "="%char line with
    | None => (KIA_ERROR_CONFIG, config)
    | Some (before, after) =>
      let key := trim_whitespace before in
      let value := trim_whitespace after in
      if String.eqb key "" then (KIA_ERROR_CONFIG, config)
      else if strcmp key "autologin_enabled" =? 0 then
        (KIA_SUCCESS,
         {| autologin_enabled := parse_bool value;
            autologin_user := autologin_user config;
            default_session := default_session config;
            max_attempts := max_attempts config;
            enable_logs := enable_logs config;
            lockout_duration := lockout_duration config |})
      else if strcmp key "autologin_user" =? 0 then
        if (256 <=? String.length value)%nat then (KIA_ERROR_CONFIG, config)
        else
          (KIA_SUCCESS,
           {| autologin_enabled := autologin_enabled config;
              autologin_user := strncpy value 255;
              default_session := default_session config;
              max_attempts := max_attempts config;
              enable_logs := enable_logs config;
              lockout_duration := lockout_duration config |})
      else if strcmp key "default_session" =? 0 then
        if (256 <=? String.length value)%nat then (KIA_ERROR_CONFIG, config)
        else
          (KIA_SUCCESS,
           {| autologin_enabled := autologin_enabled config;
              autologin_user := autologin_user config;
              default_session := strncpy value 255;
              max_attempts := max_attempts config;
              enable_logs := enable_logs config;
              lockout_duration := lockout_duration config |})
      else if strcmp key "max_attempts" =? 0 then
        if String.eqb value "" then (KIA_ERROR_CONFIG, config)
        else
          let attempts := atoi value in
          if (attempts <? MIN_MAX_ATTEMPTS) || (attempts >? MAX_MAX_ATTEMPTS)
          then (KIA_ERROR_CONFIG, config)
          else
            (KIA_SUCCESS,
             {| autologin_enabled := autologin_enabled config;
                autologin_user := autologin_user config;
                default_session := default_session config;
                max_attempts := attempts;
                enable_logs := enable_logs config;
                lockout_duration := lockout_duration config |})
      else if strcmp key "enable_logs" =? 0 then
        (KIA_SUCCESS,
         {| autologin_enabled := autologin_enabled config;
            autologin_user := autologin_user config;
            default_session := default_session config;
            max_attempts := max_attempts config;
            enable_logs := parse_bool value;
            lockout_duration := lockout_duration config |})
      else if strcmp key "lockout_duration" =? 0 then
        if String.eqb value "" then (KIA_ERROR_CONFIG, config)
        else
          let duration := atoi value in
          if (duration <? 0) || (duration >? 3600)
          then (KIA_ERROR_CONFIG, config)
          else
            (KIA_SUCCESS,
             {| autologin_enabled := autologin_enabled config;
                autologin_user := autologin_user config;
                default_session := default_session config;
                max_attempts := max_attempts config;
                enable_logs := enable_logs config;
                lockout_duration := duration |})
      else
        (* Unknown keys are silently ignored *)
        (KIA_SUCCESS, config)
    end.

Definition config_validate (config : option kia_config_t) : Z :=
  match config with
  | None => KIA_ERROR_CONFIG
  | Some config =>
      if (max_attempts config <? MIN_MAX_ATTEMPTS) ||
         (max_attempts config >? MAX_MAX_ATTEMPTS)
      then KIA_ERROR_CONFIG
      else if lockout_duration config <? 0 then KIA_ERROR_CONFIG
      else KIA_SUCCESS
  end.

(** An open stream: the bytes still to be read, and whether the stream
    ends in a read error rather than at end of file. *)
Record FILE : Type := mk_FILE {
  f_bytes : string;
  f_fails : bool
}.

Definition newline : ascii := "010"%char.
Definition carriage_return : ascii := "013"%char.

(** The characters [fgets] stores when at most [n] may be read: it stops
    after a newline, after [n] characters, or at the end of the stream.
    Returns the characters, the rest of the stream, and whether the end
    of the stream was hit. *)
Fixpoint fgets_chars (n : nat) (s : string) : string * string * bool :=
  match n with
  | O => (EmptyString, s, false)
  | S n' =>
      match s with
      | EmptyString => (EmptyString, EmptyString, true)
      | String c rest =>
          if Ascii.eqb c newline then (String c EmptyString, rest, false)
          else
            let '(l, r, hit) := fgets_chars n' rest in
            (String c l, r, hit)
      end
  end.

(** The C string a buffer holds: its bytes up to the first NUL. *)
Fixpoint c_str (buf : string) : string :=
  match buf with
  | EmptyString => EmptyString
  | String c rest => if Ascii.eqb c zero then EmptyString else String c (c_str rest)
  end.

Fixpoint last_char (s : string) : option ascii :=
  match s with
  | EmptyString => None
  | String c EmptyString => Some c
  | String _ rest => last_char rest
  end.

(** [while ((ch = fgetc(file)) != EOF && ch != '\n')]: what is left of the
    stream. *)
Fixpoint skip_to_end_of_line (s : string) : string :=
  match s with
  | EmptyString => EmptyString
  | String c rest => if Ascii.eqb c newline then rest else skip_to_end_of_line rest
  end.

(** [line\[strcspn(line, "\r\n")\] = '\0'] *)
Fixpoint strip_newline (line : string) : string :=
  match line with
  | EmptyString => EmptyString
  | String c rest =>
      if Ascii.eqb c carriage_return || Ascii.eqb c newline then EmptyString
      else String c (strip_newline rest)
  end.

(** The [while (fgets(line, sizeof(line), file) != NULL)] loop of
    [config_load] followed by the [ferror] check.  Every round consumes
    at least one byte of the stream, so [fuel] above the length of the
    stream is never exhausted ([config_read_lines_fuel]). *)
Fixpoint config_read_lines (fuel : nat) (stream : string) (fails : bool)
    (config : kia_config_t) (has_error : bool) : kia_config_t * bool :=
  match fuel with
  | O => (config, has_error)
  | S fuel' =>
      let '(buf, rest, hit_end) := fgets_chars 1023 stream in
      if hit_end && fails then
        (* read error: fgets returns NULL, ferror(file) is set *)
        (config, true)
      else
        match buf with
        | EmptyString => (* fgets returns NULL at end of file *) (config, has_error)
        | _ =>
            let line := c_str buf in
            if (0 <? String.length line)%nat &&
               negb (bool_decide (last_char line = Some newline)) &&
               negb hit_end
            then
              (* Line was truncated - skip rest of line *)
              config_read_lines fuel' (skip_to_end_of_line rest) fails config true
            else
              let trimmed := trim_whitespace (strip_newline line) in
              let '(r, config') := parse_config_line trimmed config in
              config_read_lines fuel' rest fails config'
                (if negb (r =? KIA_SUCCESS) then true else has_error)
        end
  end.

(** [config_load(path, config)]; [fopen_r] is [fopen(path, "r")]. *)
Definition config_load (fopen_r : string -> option FILE)
    (path : option string) (config : option kia_config_t)
  : Z * option kia_config_t :=
  match config with
  | None => (KIA_ERROR_CONFIG, None)
  | Some config =>
      match path with
      | None | Some EmptyString =>
          (* Invalid path - use defaults *)
          (KIA_ERROR_CONFIG, Some (config_set_defaults config))
      | Some path =>
          let config := config_set_defaults config in
          match fopen_r path with
          | None => (* File doesn't exist - use defaults *)
              (KIA_SUCCESS, Some config)
          | Some file =>
              let '(config, has_error) :=
                config_read_lines (S (String.length (f_bytes file)))
                  (f_bytes file) (f_fails file) config false in
              if negb (config_validate (Some config) =? KIA_SUCCESS) then
                (KIA_ERROR_CONFIG, Some (config_set_defaults config))
              else
                (if has_error then KIA_ERROR_CONFIG else KIA_SUCCESS, Some config)
          end
      end
  end.

(** ** include/session.h *)

Inductive session_type_t : Type := SESSION_X11 | SESSION_WAYLAND.

Record session_info_t : Type := mk_session_info {
  name : string;
  exec : string;
  type : session_type_t
}.

Record session_list_t : Type := mk_session_list {
  sessions : list session_info_t;
  count : Z
}.

(** ** src/session.c: [session_start]

    [session_start] runs in two processes.  The parent validates, looks
    the account up, forks and waits; the child ([pid == 0]) prepares the
    environment, drops privileges, checks them and executes the session.
    The child is modelled as a computation of its own over the kernel it
    talks to. *)

(** The account record [getpwnam] returns. *)
Record passwd : Type := mk_passwd {
  pw_dir : option string;
  pw_shell : option string;
  pw_uid : Z;
  pw_gid : Z
}.

(** The identity of a process, as [getuid], [geteuid], [getgid] and
    [getegid] read it. *)
Record creds : Type := mk_creds {
  ruid : Z;
  euid : Z;
  rgid : Z;
  egid : Z
}.

Inductive sys_event : Type :=
  | SysLog (lvl : log_level) (fmt : string)
  | SysSetenv (var value : string) (ret : Z)
  | SysChdir (dir : string) (ret : Z)
  | SysSetgid (gid : Z) (ret : Z)
  | SysSetuid (uid : Z) (ret : Z)
  | SysExeclp (file : string) (argv : list string) (ok : bool).

(** What the kernel does with the child's system calls.  [k_setgid] and
    [k_setuid] return a status and the identity the process has
    afterwards: nothing ties the one to the other, so a call that reports
    success and changes nothing (or the wrong thing) is included. *)
Record kernel : Type := mk_kernel {
  k_setenv : string -> string -> Z;
  k_chdir : string -> Z;
  k_setgid : Z -> creds -> Z * creds;
  k_setuid : Z -> creds -> Z * creds;
  (** whether [execlp(file, argv...)] replaces the process image *)
  k_execlp : string -> list string -> bool
}.

Record proc : Type := mk_proc {
  p_creds : creds;
  p_trace : list sys_event
}.

(** How the child's code ends: [exit(status)], or a successful exec. *)
Inductive child_end : Type :=
  | Exited (status : Z)
  | Replaced (file : string) (argv : list string).

(** A step of the child either goes on with a value or ends the child. *)
Definition Child (A : Type) : Type := kernel -> proc -> (A + child_end) * proc.

#[global] Instance Child_ret : MRet Child := fun A (a : A) _ p => (inl a, p).

#[global] Instance Child_bind : MBind Child :=
  fun A B (k : A -> Child B) (m : Child A) kr p =>
    match m kr p with
    | (inl a, p') => k a kr p'
    | (inr stop, p') => (inr stop, p')
    end.

Definition sys_emit (ev : sys_event) : Child unit :=
  fun _ p => (inl tt, {| p_creds := p_creds p; p_trace := p_trace p ++ [ev] |}).

Definition child_log (lvl : log_level) (fmt : string) : Child unit :=
  sys_emit (SysLog lvl fmt).

Definition exit {A} (status : Z) : Child A := fun _ p => (inr (Exited status), p).

Definition EXIT_FAILURE : Z := 1.

Definition setenv (var value : string) : Child Z :=
  fun kr p =>
    let r := k_setenv kr var value in
    (inl r, {| p_creds := p_creds p; p_trace := p_trace p ++ [SysSetenv var value r] |}).

Definition chdir (dir : string) : Child Z :=
  fun kr p =>
    let r := k_chdir kr dir in
    (inl r, {| p_creds := p_creds p; p_trace := p_trace p ++ [SysChdir dir r] |}).

Definition setgid (gid : Z) : Child Z :=
  fun kr p =>
    let '(r, c) := k_setgid kr gid (p_creds p) in
    (inl r, {| p_creds := c; p_trace := p_trace p ++ [SysSetgid gid r] |}).

Definition setuid (uid : Z) : Child Z :=
  fun kr p =>
    let '(r, c) := k_setuid kr uid (p_creds p) in
    (inl r, {| p_creds := c; p_trace := p_trace p ++ [SysSetuid uid r] |}).

Definition getuid : Child Z := fun _ p => (inl (ruid (p_creds p)), p).
Definition geteuid : Child Z := fun _ p => (inl (euid (p_creds p)), p).
Definition getgid : Child Z := fun _ p => (inl (rgid (p_creds p)), p).
Definition getegid : Child Z := fun _ p => (inl (egid (p_creds p)), p).

(** [execlp] returns only when it fails. *)
Definition execlp (file : string) (argv : list string) : Child unit :=
  fun kr p =>
    let ok := k_execlp kr file argv in
    let p' := {| p_creds := p_creds p;
                 p_trace := p_trace p ++ [SysExeclp file argv ok] |} in
    if ok then (inr (Replaced file argv), p') else (inl tt, p').

(** The [pid == 0] branch of [session_start]; [home] and [shell] are
    [pw->pw_dir] and [pw->pw_shell] after the parent's checks. *)
Definition session_start_child (session : session_info_t) (user : string)
    (home shell : string) (pw : passwd) : Child Empty_set :=
  (* Set environment variables with error checking *)
  r ← setenv "HOME" home;
  (if negb (r =? 0) then
     child_log LOG_ERROR "Failed to set HOME: %s";; exit EXIT_FAILURE
   else mret tt);;
  r ← setenv "USER" user;
  (if negb (r =? 0) then
     child_log LOG_ERROR "Failed to set USER: %s";; exit EXIT_FAILURE
   else mret tt);;
  r ← setenv "LOGNAME" user;
  (if negb (r =? 0) then
     child_log LOG_ERROR "Failed to set LOGNAME: %s";; exit EXIT_FAILURE
   else mret tt);;
  r ← setenv "SHELL" shell;
  (if negb (r =? 0) then
     child_log LOG_ERROR "Failed to set SHELL: %s";; exit EXIT_FAILURE
   else mret tt);;
  match type session with
  | SESSION_X11 =>
      r1 ← setenv "XDG_SESSION_TYPE" "x11";
      failed ← (if negb (r1 =? 0) then mret true
                else r2 ← setenv "DISPLAY" ":0"; mret (negb (r2 =? 0)));
      if failed : bool then
        child_log LOG_ERROR "Failed to set X11 environment: %s";;
        exit EXIT_FAILURE
      else mret tt
  | SESSION_WAYLAND =>
      r1 ← setenv "XDG_SESSION_TYPE" "wayland";
      failed ← (if negb (r1 =? 0) then mret true
                else r2 ← setenv "WAYLAND_DISPLAY" "wayland-0";
                     mret (negb (r2 =? 0)));
      if failed : bool then
        child_log LOG_ERROR "Failed to set Wayland environment: %s";;
        exit EXIT_FAILURE
      else mret tt
  end;;
  (* Change to user's home directory *)
  r ← chdir home;
  (if negb (r =? 0) then
     child_log LOG_ERROR "Failed to change to home directory '%s': %s";;
     exit EXIT_FAILURE
   else mret tt);;
  (* Drop privileges - order matters! *)
  r ← setgid (pw_gid pw);
  (if negb (r =? 0) then
     child_log LOG_ERROR "Failed to setgid(%d): %s";; exit EXIT_FAILURE
   else mret tt);;
  r ← setuid (pw_uid pw);
  (if negb (r =? 0) then
     child_log LOG_ERROR "Failed to setuid(%d): %s";; exit EXIT_FAILURE
   else mret tt);;
  (* Verify privilege drop - critical security check *)
  uid ← getuid;
  mismatch ←
    (if negb (uid =? pw_uid pw) then mret true
     else
       e_uid ← geteuid;
       if negb (e_uid =? pw_uid pw) then mret true
       else
         gid ← getgid;
         if negb (gid =? pw_gid pw) then mret true
         else
           e_gid ← getegid;
           mret (negb (e_gid =? pw_gid pw)));
  (if mismatch : bool then
     child_log LOG_ERROR
       "Failed to drop privileges properly (uid=%d/%d, gid=%d/%d)";;
     exit EXIT_FAILURE
   else mret tt);;
  (* Execute session *)
  match type session with
  | SESSION_X11 =>
      (* Try startx first, fall back to direct execution *)
      execlp "startx" ["startx"; exec session];;
      execlp "/bin/sh" ["sh"; "-c"; exec session]
  | SESSION_WAYLAND =>
      execlp "/bin/sh" ["sh"; "-c"; exec session]
  end;;
  (* If we get here, exec failed *)
  child_log LOG_ERROR "Failed to execute session '%s': %s";;
  exit EXIT_FAILURE.

(** The child from start to end. *)
Definition run_child (c : Child Empty_set) (kr : kernel) (p : proc)
  : child_end * proc :=
  match c kr p with
  | (inr stop, p') => (stop, p')
  | (inl impossible, _) => match impossible with end
  end.

(** How [waitpid] reports the end of the child. *)
Inductive wait_status : Type :=
  | WEXITED (code : Z)
  | WSIGNALED (sig : Z)
  | WOTHER.

(** What the parent sees of the system. *)
Record session_os : Type := mk_session_os {
  os_getpwnam : string -> option passwd;
  (** [errno] after [getpwnam] *)
  os_errno : Z;
  (** what [fork] returns in the parent *)
  os_fork : Z;
  (** the kernel and the identity the child starts with *)
  os_kernel : kernel;
  os_creds : creds;
  (** what [waitpid] returns *)
  os_waitpid : Z;
  (** how the session ends once the child has become it *)
  os_session_status : wait_status
}.

Definition session_start (os : session_os) (session : option session_info_t)
    (user : option string) : M Z :=
  match session, user with
  | Some session, Some user =>
      if String.eqb user "" then
        logger_log LOG_ERROR "Empty username provided";;
        mret KIA_ERROR_SESSION
      else if String.eqb (name session) "" || String.eqb (exec session) "" then
        logger_log LOG_ERROR "Invalid session: empty name or exec";;
        mret KIA_ERROR_SESSION
      else
        match os_getpwnam os user with
        | None =>
            (if negb (os_errno os =? 0) then
               logger_log LOG_ERROR "Failed to get user info for '%s': %s"
             else logger_log LOG_ERROR "User not found: %s");;
            mret KIA_ERROR_SESSION
        | Some pw =>
            match pw_dir pw with
            | None | Some EmptyString =>
                logger_log LOG_ERROR "User '%s' has no home directory";;
                mret KIA_ERROR_SESSION
            | Some home =>
                shell ← match pw_shell pw with
                        | None | Some EmptyString =>
                            logger_log LOG_WARN
                              "User '%s' has no shell, using /bin/sh";;
                            mret "/bin/sh"
                        | Some shell => mret shell
                        end;
                logger_log LOG_INFO "Starting %s session '%s' for user '%s'";;
                let pid := os_fork os in
                if pid <? 0 then
                  logger_log LOG_ERROR "Failed to fork: %s";;
                  mret KIA_ERROR_SESSION
                else
                  (* Child process *)
                  let '(stop, _) :=
                    run_child (session_start_child session user home shell pw)
                      (os_kernel os)
                      {| p_creds := os_creds os; p_trace := [] |} in
                  (* Parent process *)
                  logger_log LOG_INFO "Session started with PID %d";;
                  if os_waitpid os <? 0 then
                    logger_log LOG_ERROR "Failed to wait for child process: %s";;
                    mret KIA_ERROR_SESSION
                  else
                    match (match stop with
                           | Exited status => WEXITED (status `mod` 256)
                           | Replaced _ _ => os_session_status os
                           end) with
                    | WEXITED exit_status =>
                        logger_log LOG_INFO "Session exited with status %d";;
                        if negb (exit_status =? 0) then mret KIA_ERROR_SESSION
                        else mret KIA_SUCCESS
                    | WSIGNALED _ =>
                        logger_log LOG_WARN "Session terminated by signal %d";;
                        mret KIA_ERROR_SESSION
                    | WOTHER => mret KIA_SUCCESS
                    end
            end
        end
  | _, _ =>
      logger_log LOG_ERROR "Invalid session or username";;
      mret KIA_ERROR_SESSION
  end.

(** ** src/tui.c: reading the credentials *)

(** [secure_memzero(ptr, len)]: [while (len--) *p++ = 0] over the array
    that starts at [ptr]. *)
Fixpoint secure_memzero (p : list ascii) (len : nat) : list ascii :=
  match len, p with
  | S len', _ :: rest => zero :: secure_memzero rest len'
  | _, _ => p
  end.

(** [memset(ptr, 0, len)]. *)
Definition memset0 (p : list ascii) (len : nat) : list ascii :=
  replicate (len `min` List.length p) zero ++ drop len p.

(** The C string a [char] array holds. *)
Fixpoint buf_str (buf : list ascii) : string :=
  match buf with
  | [] => EmptyString
  | c :: rest => if Ascii.eqb c zero then EmptyString else String c (buf_str rest)
  end.

Definition FIELD_USERNAME : Z := 0.
Definition FIELD_PASSWORD : Z := 1.

(** Key codes and [ERR] of <ncurses.h>. *)
Definition ERR : Z := -1.
Definition KEY_DOWN : Z := 258.
Definition KEY_UP : Z := 259.
Definition KEY_BACKSPACE : Z := 263.
Definition KEY_ENTER : Z := 343.

Definition char_of_key (ch : Z) : ascii := ascii_of_N (Z.to_N ch).

(** The [while (1)] loop of [tui_get_credentials]; each round draws the
    fields (output only), calls [refresh()] and reads one key.  When the
    terminal has nothing more to give, [getch()] reports [ERR]. *)
Fixpoint tui_get_credentials_loop (input : list tty_input) (user_len pass_len : Z)
    (username password : list ascii)
    (current_field username_pos password_pos : Z)
  : Z * list ascii * list ascii * list tty_input :=
  match input with
  | [] => (KIA_ERROR_SYSTEM, username, password, [])
  | i :: input =>
    if negb (in_refresh_ok i) then (KIA_ERROR_SYSTEM, username, password, input)
    else
      let ch := in_key i in
      if ch =? ERR then (KIA_ERROR_SYSTEM, username, password, input)
      else if (ch =? 10) || (ch =? KEY_ENTER) then
        (* Enter key *)
        if username_pos >? 0 then
          (KIA_SUCCESS,
           <[Z.to_nat username_pos := zero]> username,
           <[Z.to_nat password_pos := zero]> password, input)
        else
          tui_get_credentials_loop input user_len pass_len username password
            current_field username_pos password_pos
      else if (ch =? 9) || (ch =? KEY_DOWN) then
        (* Tab key *)
        tui_get_credentials_loop input user_len pass_len username password
          (if current_field =? FIELD_USERNAME then FIELD_PASSWORD
           else FIELD_USERNAME)
          username_pos password_pos
      else if ch =? KEY_UP then
        tui_get_credentials_loop input user_len pass_len username password
          (if current_field =? FIELD_PASSWORD then FIELD_USERNAME
           else FIELD_PASSWORD)
          username_pos password_pos
      else if (ch =? KEY_BACKSPACE) || (ch =? 127) || (ch =? 8) then
        (* Backspace *)
        if (current_field =? FIELD_USERNAME) && (username_pos >? 0) then
          tui_get_credentials_loop input user_len pass_len
            (<[Z.to_nat (username_pos - 1) := zero]> username) password
            current_field (username_pos - 1) password_pos
        else if (current_field =? FIELD_PASSWORD) && (password_pos >? 0) then
          (* Securely clear the removed character *)
          tui_get_credentials_loop input user_len pass_len username
            (take (Z.to_nat (password_pos - 1)) password ++
             secure_memzero (drop (Z.to_nat (password_pos - 1)) password) 1)
            current_field username_pos (password_pos - 1)
        else
          tui_get_credentials_loop input user_len pass_len username password
            current_field username_pos password_pos
      else if ch =? 27 then
        (* Escape key *)
        if current_field =? FIELD_USERNAME then
          tui_get_credentials_loop input user_len pass_len
            (memset0 username (Z.to_nat user_len)) password
            current_field 0 password_pos
        else
          tui_get_credentials_loop input user_len pass_len username
            (secure_memzero password (Z.to_nat pass_len))
            current_field username_pos 0
      else if (32 <=? ch) && (ch <=? 126) then
        (* Printable ASCII *)
        if (current_field =? FIELD_USERNAME) && (username_pos <? user_len - 1)
           && (username_pos <? 20) then
          tui_get_credentials_loop input user_len pass_len
            (<[Z.to_nat (username_pos + 1) := zero]>
               (<[Z.to_nat username_pos := char_of_key ch]> username))
            password current_field (username_pos + 1) password_pos
        else if (current_field =? FIELD_PASSWORD) && (password_pos <? pass_len - 1)
                && (password_pos <? 20) then
          tui_get_credentials_loop input user_len pass_len username
            (<[Z.to_nat (password_pos + 1) := zero]>
               (<[Z.to_nat password_pos := char_of_key ch]> password))
            current_field username_pos (password_pos + 1)
        else
          tui_get_credentials_loop input user_len pass_len username password
            current_field username_pos password_pos
      else
        tui_get_credentials_loop input user_len pass_len username password
          current_field username_pos password_pos
  end.

Definition set_input (input : list tty_input) : M unit :=
  fun _ g =>
    (tt, {| g_ticks := g_ticks g; g_tty_fd := g_tty_fd g;
            g_pam_handle := g_pam_handle g; g_screen := g_screen g;
            g_input := input; g_trace := g_trace g |}).

(** [tui_get_credentials(username, user_len, password, pass_len)]; both
    pointers are the addresses of arrays, so they are the arrays. *)
Definition tui_get_credentials (username : list ascii) (user_len : Z)
    (password : list ascii) (pass_len : Z) : M (Z * list ascii * list ascii) :=
  if (user_len =? 0) || (pass_len =? 0) then
    mret (KIA_ERROR_SYSTEM, username, password)
  else
    scr ← (fun _ g => (g_screen g, g));
    (* Validate stdscr is initialized *)
    if negb (stdscr_ok scr) then mret (KIA_ERROR_SYSTEM, username, password)
    (* Validate screen dimensions *)
    else if (max_y scr <? 10) || (max_x scr <? 50) then
      mret (KIA_ERROR_SYSTEM, username, password)
    else
      (* Clear previous input *)
      let username := memset0 username (Z.to_nat user_len) in
      let password := memset0 password (Z.to_nat pass_len) in
      input ← (fun _ g => (g_input g, g));
      emit EvTuiReadCredentials;;
      let '(r, username, password, input) :=
        tui_get_credentials_loop input user_len pass_len username password
          FIELD_USERNAME 0 0 in
      set_input input;;
      mret (r, username, password).

(** [tui_show_error(message)]: draws the banner and waits; it touches
    nothing of the caller. *)
Definition tui_show_error (message : string) : M unit :=
  if String.eqb message "" then mret tt
  else
    scr ← (fun _ g => (g_screen g, g));
    if negb (stdscr_ok scr) then mret tt
    else if (max_y scr <? 3) || (max_x scr <? 10) then mret tt
    else emit (EvTuiShowError message).

(** ** include/controller.h and src/controller.c *)

Inductive app_state_t : Type :=
  | STATE_INIT
  | STATE_LOAD_CONFIG
  | STATE_CHECK_AUTOLOGIN
  | STATE_SHOW_LOGIN
  | STATE_GET_CREDENTIALS
  | STATE_SELECT_SESSION
  | STATE_AUTHENTICATE
  | STATE_START_SESSION
  | STATE_EXIT.

(** [app_context_t]; [ctx_username] and [ctx_password] are the two
    [char\[256\]] arrays. *)
Record app_context_t : Type := mk_app_context {
  ctx_state : app_state_t;
  ctx_config : kia_config_t;
  ctx_auth_state : auth_state_t;
  ctx_sessions : session_list_t;
  ctx_username : list ascii;
  ctx_password : list ascii;
  ctx_selected_session : Z;
  ctx_running : bool
}.

Definition set_ctx_state (ctx : app_context_t) (s : app_state_t) : app_context_t :=
  {| ctx_state := s; ctx_config := ctx_config ctx;
     ctx_auth_state := ctx_auth_state ctx; ctx_sessions := ctx_sessions ctx;
     ctx_username := ctx_username ctx; ctx_password := ctx_password ctx;
     ctx_selected_session := ctx_selected_session ctx;
     ctx_running := ctx_running ctx |}.

Definition set_ctx_credentials (ctx : app_context_t) (u p : list ascii)
  : app_context_t :=
  {| ctx_state := ctx_state ctx; ctx_config := ctx_config ctx;
     ctx_auth_state := ctx_auth_state ctx; ctx_sessions := ctx_sessions ctx;
     ctx_username := u; ctx_password := p;
     ctx_selected_session := ctx_selected_session ctx;
     ctx_running := ctx_running ctx |}.

Definition set_ctx_auth_state (ctx : app_context_t) (st : auth_state_t)
  : app_context_t :=
  {| ctx_state := ctx_state ctx; ctx_config := ctx_config ctx;
     ctx_auth_state := st; ctx_sessions := ctx_sessions ctx;
     ctx_username := ctx_username ctx; ctx_password := ctx_password ctx;
     ctx_selected_session := ctx_selected_session ctx;
     ctx_running := ctx_running ctx |}.

Definition handle_get_credentials (ctx : app_context_t) : M (Z * app_context_t) :=
  (* Get credentials from user *)
  '(result, u, p) ← tui_get_credentials (ctx_username ctx) 256
                      (ctx_password ctx) 256;
  let ctx := set_ctx_credentials ctx u p in
  if negb (result =? KIA_SUCCESS) then
    logger_log LOG_ERROR "Failed to get credentials from TUI: %d";;
    tui_show_error "Failed to read credentials. Please try again.";;
    mret (result, set_ctx_state ctx STATE_SHOW_LOGIN)
  (* Validate username is not empty *)
  else if Ascii.eqb (List.nth 0 (ctx_username ctx) zero) zero then
    logger_log LOG_WARN "Empty username provided";;
    tui_show_error "Username cannot be empty.";;
    mret (KIA_SUCCESS, set_ctx_state ctx STATE_SHOW_LOGIN)
  (* Validate username length *)
  else if (255 <? String.length (buf_str (ctx_username ctx)))%nat then
    logger_log LOG_WARN "Username too long: %zu characters";;
    tui_show_error "Username too long.";;
    (* Securely clear credentials *)
    let ctx := set_ctx_credentials ctx
                 (memset0 (ctx_username ctx) 256)
                 (secure_memzero (ctx_password ctx) 256) in
    mret (KIA_SUCCESS, set_ctx_state ctx STATE_SHOW_LOGIN)
  (* Validate password is not empty *)
  else if Ascii.eqb (List.nth 0 (ctx_password ctx) zero) zero then
    logger_log LOG_WARN "Empty password provided for user '%s'";;
    tui_show_error "Password cannot be empty.";;
    mret (KIA_SUCCESS, set_ctx_state ctx STATE_SHOW_LOGIN)
  else
    (* Transition to session selection *)
    mret (KIA_SUCCESS, set_ctx_state ctx STATE_SELECT_SESSION).

Definition handle_authenticate (ctx : app_context_t) : M (Z * app_context_t) :=
  (* Check if user is locked out *)
  '(locked, st) ← auth_is_locked_out (Some (ctx_auth_state ctx));
  let ctx := set_ctx_auth_state ctx (default (ctx_auth_state ctx) st) in
  if locked : bool then
    logger_log LOG_WARN "User '%s' is locked out";;
    tui_show_error "Too many failed attempts. Please wait before trying again.";;
    (* Securely clear password *)
    let ctx := set_ctx_credentials ctx (ctx_username ctx)
                 (secure_memzero (ctx_password ctx) 256) in
    mret (KIA_SUCCESS, set_ctx_state ctx STATE_SHOW_LOGIN)
  else
    (* Attempt authentication *)
    '(result, st) ← auth_authenticate (Some (buf_str (ctx_username ctx)))
                      (Some (buf_str (ctx_password ctx)))
                      (Some (ctx_config ctx)) (Some (ctx_auth_state ctx));
    let ctx := set_ctx_auth_state ctx (default (ctx_auth_state ctx) st) in
    (* Securely clear password from memory immediately after authentication *)
    let ctx := set_ctx_credentials ctx (ctx_username ctx)
                 (secure_memzero (ctx_password ctx) 256) in
    if result =? KIA_SUCCESS then
      (* Authentication successful *)
      logger_log LOG_INFO "User '%s' authenticated successfully";;
      let ctx := set_ctx_auth_state ctx
                   (default (ctx_auth_state ctx)
                      (auth_reset_attempts (Some (ctx_auth_state ctx)))) in
      mret (KIA_SUCCESS, set_ctx_state ctx STATE_START_SESSION)
    else
      (* Authentication failed *)
      logger_log LOG_ERROR "Authentication failed for user '%s' (attempt %d/%d)";;
      tui_show_error "Authentication failed. Attempt %d of %d.";;
      mret (KIA_SUCCESS, set_ctx_state ctx STATE_SHOW_LOGIN).

(** ** src/auth.c: the conversation callback and the teardown *)

(** Return codes, message styles and the message limit of
    <security/_pam_types.h>. *)
Definition PAM_BUF_ERR : Z := 5.
Definition PAM_CONV_ERR : Z := 19.
Definition PAM_PROMPT_ECHO_OFF : Z := 1.
Definition PAM_PROMPT_ECHO_ON : Z := 2.
Definition PAM_ERROR_MSG : Z := 3.
Definition PAM_TEXT_INFO : Z := 4.
Definition PAM_MAX_NUM_MSG : Z := 32.

Record pam_message : Type := mk_pam_message {
  msg_style : Z;
  msg : string
}.

(** [struct pam_response]; [resp] is NULL or points to a string of its
    own on the heap. *)
Record pam_response : Type := mk_pam_response {
  resp : option string;
  resp_retcode : Z
}.

(** The heap as [pam_conversation] uses it: whether the response array
    is allocated, and which responses own a string. *)
Record conv_heap : Type := mk_conv_heap {
  array_live : bool;
  strings_live : list nat
}.

(** [free(( *resp )\[j\].resp)]; [free(NULL)] does nothing. *)
Definition free_response (rs : list pam_response) (j : nat) (live : list nat)
  : list nat :=
  match rs !! j with
  | Some {| resp := Some _ |} => List.filter (fun k => negb (Nat.eqb k j)) live
  | _ => live
  end.

(** [for (int j = 0; j < i; j++) free(( *resp )\[j\].resp)] *)
Definition free_responses (rs : list pam_response) (i : nat) (live : list nat)
  : list nat :=
  foldl (fun live j => free_response rs j live) live (seq 0 i).

(** The [for] loop of [pam_conversation] from message [i] on; [strdup_ok
    i] says whether the [strdup] for message [i] finds memory. *)
Fixpoint pam_conversation_loop (msgs : list pam_message) (i : nat)
    (password : string) (strdup_ok : nat -> bool)
    (rs : list pam_response) (live : list nat)
  : Z * option (list pam_response) * conv_heap :=
  match msgs with
  | [] => (PAM_SUCCESS, Some rs, {| array_live := true; strings_live := live |})
  | m :: msgs =>
      if (msg_style m =? PAM_PROMPT_ECHO_OFF) || (msg_style m =? PAM_PROMPT_ECHO_ON)
      then
        (* Provide password *)
        if strdup_ok i then
          pam_conversation_loop msgs (S i) password strdup_ok
            (<[i := {| resp := Some password; resp_retcode := 0 |}]> rs)
            (live ++ [i])
        else
          (* Cleanup on allocation failure *)
          (PAM_BUF_ERR, None,
           {| array_live := false; strings_live := free_responses rs i live |})
      else if (msg_style m =? PAM_ERROR_MSG) || (msg_style m =? PAM_TEXT_INFO)
      then
        (* No response needed for info/error messages *)
        pam_conversation_loop msgs (S i) password strdup_ok
          (<[i := {| resp := None; resp_retcode := 0 |}]> rs) live
      else
        (* Unknown message type *)
        (PAM_CONV_ERR, None,
         {| array_live := false; strings_live := free_responses rs i live |})
  end.

(** [pam_conversation(num_msg, msg, resp, appdata_ptr)]: [msgs] is the
    array of [num_msg] messages, [resp0] what [*resp] holds at the call,
    [password] the secret [appdata_ptr] leads to (NULL when either
    pointer is), [calloc_ok] whether the array can be allocated.  The
    result is the return code, [*resp], and the heap. *)
Definition pam_conversation (msgs : list pam_message)
    (resp0 : option (list pam_response)) (password : option string)
    (calloc_ok : bool) (strdup_ok : nat -> bool)
  : Z * option (list pam_response) * conv_heap :=
  let num_msg := Z.of_nat (List.length msgs) in
  let heap0 := {| array_live := false; strings_live := [] |} in
  if (num_msg <=? 0) || (num_msg >? PAM_MAX_NUM_MSG) then
    (PAM_CONV_ERR, resp0, heap0)
  else
    match password with
    | None => (PAM_CONV_ERR, resp0, heap0)
    | Some password =>
        (* Allocate response array *)
        if negb calloc_ok then (PAM_BUF_ERR, None, heap0)
        else
          pam_conversation_loop msgs 0 password strdup_ok
            (replicate (List.length msgs) {| resp := None; resp_retcode := 0 |})
            []
    end.

(** [auth_cleanup]: ends an open provider transaction and releases the
    terminal. *)
Definition auth_cleanup : M unit :=
  h ← get_pam_handle;
  match h with
  | Some user => emit (EvPamEnd user);; set_pam_handle None
  | None => mret tt
  end;;
  (* Ensure TTY is unlocked *)
  tty_unlock;;
  logger_log LOG_INFO "Authentication module cleaned up".

(** ** src/config.c: [config_free] *)

(** Nothing is allocated, nothing is freed. *)
Definition config_free (config : option kia_config_t) : option kia_config_t :=
  config.

(** ** src/session.c: discovering the sessions *)

Definition X11_SESSION_DIR : string := "/usr/share/xsessions".
Definition WAYLAND_SESSION_DIR : string := "/usr/share/wayland-sessions".

(** [line + n]: the string from its [n]-th byte on. *)
Fixpoint string_from (n : nat) (s : string) : string :=
  match n, s with
  | S n', String _ rest => string_from n' rest
  | _, _ => s
  end.

(** [line\[strcspn(line, "\n")\] = '\0'] *)
Fixpoint cut_at_newline (line : string) : string :=
  match line with
  | EmptyString => EmptyString
  | String c rest =>
      if Ascii.eqb c newline then EmptyString
      else String c (cut_at_newline rest)
  end.

(** One line of a descriptor, cut at its newline: what it does to the
    record and to the two flags. *)
Definition parse_desktop_line (line : string) (session : session_info_t)
    (found_name found_exec : bool) : session_info_t * bool * bool :=
  (* Parse Name= field *)
  if String.prefix "Name=" line && negb found_name then
    let name_len := String.length (string_from 5 line) in
    if (0 <? name_len)%nat && (name_len <? 256)%nat then
      ({| name := strncpy (string_from 5 line) 255; exec := exec session;
          type := type session |}, true, found_exec)
    else (session, found_name, found_exec)
  (* Parse Exec= field *)
  else if String.prefix "Exec=" line && negb found_exec then
    let exec_len := String.length (string_from 5 line) in
    if (0 <? exec_len)%nat && (exec_len <? 512)%nat then
      ({| name := name session; exec := strncpy (string_from 5 line) 511;
          type := type session |}, found_name, true)
    else (session, found_name, found_exec)
  else (session, found_name, found_exec).

(** The [while (fgets(line, sizeof(line), fp))] loop of
    [parse_desktop_file] and the [ferror] check after it: the record,
    the two flags, and whether the stream failed.  Every round consumes
    at least one byte of the stream. *)
Fixpoint parse_desktop_lines (fuel : nat) (stream : string) (fails : bool)
    (session : session_info_t) (found_name found_exec : bool)
  : session_info_t * bool * bool * bool :=
  match fuel with
  | O => (session, found_name, found_exec, false)
  | S fuel' =>
      let '(buf, rest, hit_end) := fgets_chars 1023 stream in
      if hit_end && fails then (session, found_name, found_exec, true)
      else
        match buf with
        | EmptyString => (session, found_name, found_exec, false)
        | _ =>
            let line := c_str buf in
            if (0 <? String.length line)%nat &&
               negb (bool_decide (last_char line = Some newline)) &&
               negb hit_end
            then
              (* Line was truncated - skip rest of line *)
              parse_desktop_lines fuel' (skip_to_end_of_line rest) fails
                session found_name found_exec
            else
              let '(session, found_name, found_exec) :=
                parse_desktop_line (cut_at_newline line) session
                  found_name found_exec in
              if found_name && found_exec then
                (session, found_name, found_exec, false)
              else
                parse_desktop_lines fuel' rest fails session
                  found_name found_exec
        end
  end.

(** [parse_desktop_file(filepath, session, type)]; the result carries
    what the record [session] points to holds afterwards. *)
Definition parse_desktop_file (fopen_r : string -> option FILE)
    (filepath : option string) (session : option session_info_t)
    (ty : session_type_t) : M (Z * option session_info_t) :=
  match filepath, session with
  | Some filepath, Some session =>
      if (String.length filepath =? 0)%nat then
        logger_log LOG_ERROR "Empty filepath provided";;
        mret (KIA_ERROR_SESSION, Some session)
      else
        match fopen_r filepath with
        | None =>
            logger_log LOG_WARN "Failed to open desktop file: %s (%s)";;
            mret (KIA_ERROR_SESSION, Some session)
        | Some fp =>
            (* Initialize session structure *)
            let session := {| name := ""; exec := ""; type := type session |} in
            let '(session, found_name, found_exec, failed) :=
              parse_desktop_lines (S (String.length (f_bytes fp)))
                (f_bytes fp) (f_fails fp) session false false in
            (* Check for read errors *)
            if failed : bool then
              logger_log LOG_ERROR "Error reading desktop file: %s";;
              mret (KIA_ERROR_SESSION, Some session)
            else if negb found_name || negb found_exec then
              logger_log LOG_WARN
                "Incomplete desktop file: %s (name=%d, exec=%d)";;
              mret (KIA_ERROR_SESSION, Some session)
            else
              mret (KIA_SUCCESS,
                    Some {| name := name session; exec := exec session;
                            type := ty |})
        end
  | _, _ =>
      logger_log LOG_ERROR "Invalid parameters to parse_desktop_file";;
      mret (KIA_ERROR_SESSION, session)
  end.

(** An open directory: the names [readdir] delivers, and the [errno] it
    leaves when it returns NULL after the last of them (0 at the end of
    the directory). *)
Record DIR : Type := mk_DIR {
  d_entries : list string;
  d_errno : Z
}.

(** The file system and the allocator as the catalog sees them. *)
Record session_fs : Type := mk_session_fs {
  fs_fopen : string -> option FILE;
  fs_opendir : string -> option DIR;
  (** whether [realloc] to an array of that many records finds memory *)
  fs_realloc_ok : Z -> bool;
  (** what a record of newly allocated memory holds *)
  fs_fresh : session_info_t
}.

(** [strstr(haystack, needle) != NULL] *)
Fixpoint strstr_found (haystack needle : string) : bool :=
  String.prefix needle haystack ||
  match haystack with
  | EmptyString => false
  | String _ rest => strstr_found rest needle
  end.

(** [realloc(old, n * sizeof(session_info_t))] when it succeeds: the
    first [n] records of [old], then records of new memory. *)
Definition realloc_sessions (old : list session_info_t) (n : nat)
    (fresh : session_info_t) : list session_info_t :=
  take n old ++ replicate (n - List.length old) fresh.

(** The [while ((entry = readdir(dir)) != NULL)] loop of
    [scan_session_directory] over the entries still to come.  The
    result tells whether the loop ran to the end ([false]: an
    allocation failed), and gives [*sessions] and [*count]. *)
Fixpoint scan_entries (fs : session_fs) (dir_path : string)
    (ty : session_type_t) (entries : list string)
    (sess : list session_info_t) (cnt : Z)
  : M (bool * list session_info_t * Z) :=
  match entries with
  | [] => mret (true, sess, cnt)
  | d_name :: entries =>
      (* Skip non-.desktop files *)
      if negb (strstr_found d_name ".desktop") then
        scan_entries fs dir_path ty entries sess cnt
      (* Validate filename length *)
      else if (String.length d_name =? 0)%nat || (255 <? String.length d_name)%nat
      then
        logger_log LOG_WARN "Invalid filename length: %zu";;
        scan_entries fs dir_path ty entries sess cnt
      (* Build full path with bounds checking *)
      else if (512 <=? String.length dir_path + 1 + String.length d_name)%nat
      then
        logger_log LOG_WARN "Path too long for: %s/%s";;
        scan_entries fs dir_path ty entries sess cnt
      (* Allocate space for new session *)
      else if negb (fs_realloc_ok fs (cnt + 1)) then
        logger_log LOG_ERROR "Failed to allocate memory for session list: %s";;
        mret (false, sess, cnt)
      else
        let filepath := (dir_path ++ "/" ++ d_name)%string in
        let sess := realloc_sessions sess (Z.to_nat (cnt + 1)) (fs_fresh fs) in
        (* Parse desktop file *)
        '(r, slot) ← parse_desktop_file (fs_fopen fs) (Some filepath)
                       (sess !! Z.to_nat cnt) ty;
        let sess :=
          match slot with
          | Some s => <[Z.to_nat cnt := s]> sess
          | None => sess
          end in
        if r =? KIA_SUCCESS then
          logger_log LOG_DEBUG "Discovered session: %s (%s)";;
          scan_entries fs dir_path ty entries sess (int_wrap (cnt + 1))
        else
          scan_entries fs dir_path ty entries sess cnt
  end.

(** [scan_session_directory(dir_path, type, sessions, count)]: the two
    in-out parameters are returned next to the result. *)
Definition scan_session_directory (fs : session_fs) (dir_path : option string)
    (ty : session_type_t) (sess : list session_info_t) (cnt : Z)
  : M (Z * list session_info_t * Z) :=
  match dir_path with
  | None =>
      logger_log LOG_ERROR "Invalid parameters to scan_session_directory";;
      mret (KIA_ERROR_SESSION, sess, cnt)
  | Some dir_path =>
      (* Validate count is not negative *)
      if cnt <? 0 then
        logger_log LOG_ERROR "Invalid session count: %d";;
        mret (KIA_ERROR_SESSION, sess, cnt)
      else
        match fs_opendir fs dir_path with
        | None =>
            logger_log LOG_DEBUG "Session directory not found: %s (%s)";;
            (* Not an error if directory doesn't exist *)
            mret (KIA_SUCCESS, sess, cnt)
        | Some dir =>
            '(finished, sess, cnt) ←
              scan_entries fs dir_path ty (d_entries dir) sess cnt;
            if negb finished then mret (KIA_ERROR_SESSION, sess, cnt)
            (* Check for readdir errors *)
            else if negb (d_errno dir =? 0) then
              logger_log LOG_ERROR "Error reading directory %s: %s";;
              mret (KIA_ERROR_SESSION, sess, cnt)
            else mret (KIA_SUCCESS, sess, cnt)
        end
  end.

(** [session_list_free(list)]: an array that was never allocated (NULL,
    the empty list here) is left alone, and the count with it. *)
Definition session_list_free (list : option session_list_t)
  : option session_list_t :=
  match list with
  | Some l =>
      match sessions l with
      | [] => Some l
      | _ :: _ => Some {| sessions := []; count := 0 |}
      end
  | None => None
  end.

Definition session_discover (fs : session_fs) (list : option session_list_t)
  : M (Z * option session_list_t) :=
  match list with
  | None => mret (KIA_ERROR_SESSION, None)
  | Some _ =>
      (* Scan X11 sessions *)
      '(r, sess, cnt) ← scan_session_directory fs (Some X11_SESSION_DIR)
                          SESSION_X11 [] 0;
      if negb (r =? KIA_SUCCESS) then
        mret (KIA_ERROR_SESSION,
              session_list_free (Some {| sessions := sess; count := cnt |}))
      else
        (* Scan Wayland sessions *)
        '(r, sess, cnt) ← scan_session_directory fs (Some WAYLAND_SESSION_DIR)
                            SESSION_WAYLAND sess cnt;
        if negb (r =? KIA_SUCCESS) then
          mret (KIA_ERROR_SESSION,
                session_list_free (Some {| sessions := sess; count := cnt |}))
        else if cnt =? 0 then
          logger_log LOG_ERROR "No sessions discovered";;
          mret (KIA_ERROR_SESSION, Some {| sessions := sess; count := cnt |})
        else
          logger_log LOG_INFO "Discovered %d session(s)";;
          mret (KIA_SUCCESS, Some {| sessions := sess; count := cnt |})
  end.

(** ** src/tui.c: the screen and the session menu *)

Definition set_screen (scr : screen) : M unit :=
  fun _ g =>
    (tt, {| g_ticks := g_ticks g; g_tty_fd := g_tty_fd g;
            g_pam_handle := g_pam_handle g; g_screen := scr;
            g_input := g_input g; g_trace := g_trace g |}).

(** [tui_init]; [initscr] gives the size of the terminal, or fails.  The
    modes and colours set after it are not read back by this program. *)
Definition tui_init (initscr : option (Z * Z)) : M Z :=
  match initscr with
  | None => mret KIA_ERROR_SYSTEM
  | Some (lines, cols) =>
      set_screen {| stdscr_ok := true; max_y := lines; max_x := cols |};;
      mret KIA_SUCCESS
  end.

(** [tui_cleanup]: [endwin()] hands the terminal back. *)
Definition tui_cleanup : M unit := mret tt.

(** [tui_draw_login_screen] and [tui_show_message] draw and return;
    what is on the screen is not part of the state. *)
Definition tui_draw_login_screen (hostname version : string) : M unit :=
  mret tt.

Definition tui_show_message (message : string) : M unit := mret tt.

(** The [while (1)] loop of [tui_select_session]: each round draws the
    menu (on a screen that exists, [clear()] succeeds), calls
    [refresh()] and reads one key. *)
Fixpoint tui_select_session_loop (input : list tty_input) (cnt selected : Z)
  : Z * list tty_input :=
  match input with
  | [] => (-1, [])
  | i :: input =>
      if negb (in_refresh_ok i) then (-1, input)
      else
        let ch := in_key i in
        (* Check for input error *)
        if ch =? ERR then (-1, input)
        else if (ch =? 10) || (ch =? KEY_ENTER) then
          (* Validate selection before returning *)
          if (selected >=? 0) && (selected <? cnt) then (selected, input)
          else (-1, input)
        else if ch =? KEY_UP then
          tui_select_session_loop input cnt
            (if selected >? 0 then selected - 1 else selected)
        else if ch =? KEY_DOWN then
          tui_select_session_loop input cnt
            (if selected <? int_wrap (cnt - 1) then selected + 1 else selected)
        else if ch =? 27 then (* Escape key *) (-1, input)
        else tui_select_session_loop input cnt selected
  end.

Definition tui_select_session (list : option session_list_t) (default_idx : Z)
  : M Z :=
  match list with
  | None => mret (-1)
  | Some l =>
      if count l =? 0 then mret (-1)
      else
        match sessions l with
        | [] => mret (-1)
        | _ :: _ =>
            scr ← (fun _ g => (g_screen g, g));
            (* Validate stdscr is initialized *)
            if negb (stdscr_ok scr) then mret (-1)
            (* Validate screen dimensions *)
            else if (max_y scr <? 10) || (max_x scr <? 60) then mret (-1)
            else
              (* Validate and set default selection *)
              let selected :=
                if (default_idx >=? 0) && (default_idx <? count l)
                then default_idx else 0 in
              input ← (fun _ g => (g_input g, g));
              let '(r, input) :=
                tui_select_session_loop input (count l) selected in
              set_input input;;
              mret r
        end
  end.

(** ** src/controller.c: the state machine *)

Definition KIA_VERSION : string := "1.0.0".
Definition KIA_CONFIG_PATH : string := "/etc/kia/config".

(** What the controller reaches of the system besides the terminal and
    the provider. *)
Record system : Type := mk_system {
  sys_fs : session_fs;
  sys_os : session_os;
  (** the name [gethostname] stores, or [None] when it fails *)
  sys_gethostname : option string;
  (** the size of the terminal [initscr] finds, or [None] when it fails *)
  sys_initscr : option (Z * Z)
}.

(** [get_hostname(hostname, len)] for an array of [len] bytes: the
    string the array holds afterwards. *)
Definition get_hostname (sys : system) (len : nat) : string :=
  match sys_gethostname sys with
  | None => strncpy "localhost" (len - 1)
  | Some h => strncpy h (len - 1)
  end.

Definition user_exists (os : session_os) (username : option string) : M bool :=
  match username with
  | None | Some EmptyString => mret false
  | Some username =>
      (* Validate username length *)
      if (255 <? String.length username)%nat then mret false
      else
        match os_getpwnam os username with
        | None =>
            (if negb (os_errno os =? 0) then
               logger_log LOG_WARN "Error checking user '%s': %s"
             else mret tt);;
            mret false
        | Some _ => mret true
        end
  end.

(** The [for] loop of [find_default_session] over the records from
    index [i] on. *)
Fixpoint find_session_from (l : list session_info_t) (default_name : string)
    (i : Z) : option Z :=
  match l with
  | [] => None
  | s :: l =>
      if negb (String.eqb (name s) "") && (strcmp (name s) default_name =? 0)
      then Some i
      else find_session_from l default_name (i + 1)
  end.

(** [find_default_session(sessions, default_name)]; the loop reads the
    first [count] records of the array. *)
Definition find_default_session (list : option session_list_t)
    (default_name : option string) : M Z :=
  match list with
  | None => mret 0
  | Some l =>
      match sessions l with
      | [] => mret 0
      | _ :: _ =>
          if count l <=? 0 then mret 0
          else
            match default_name with
            | None | Some EmptyString =>
                (* Return first session if no default specified *)
                mret 0
            | Some default_name =>
                match find_session_from (take (Z.to_nat (count l)) (sessions l))
                        default_name 0 with
                | Some i => mret i
                | None =>
                    logger_log LOG_DEBUG
                      "Default session '%s' not found, using first session";;
                    (* Return first session if default not found *)
                    mret 0
                end
            end
      end
  end.

Definition set_ctx_config (ctx : app_context_t) (c : kia_config_t)
  : app_context_t :=
  {| ctx_state := ctx_state ctx; ctx_config := c;
     ctx_auth_state := ctx_auth_state ctx; ctx_sessions := ctx_sessions ctx;
     ctx_username := ctx_username ctx; ctx_password := ctx_password ctx;
     ctx_selected_session := ctx_selected_session ctx;
     ctx_running := ctx_running ctx |}.

Definition set_ctx_sessions (ctx : app_context_t) (l : session_list_t)
  : app_context_t :=
  {| ctx_state := ctx_state ctx; ctx_config := ctx_config ctx;
     ctx_auth_state := ctx_auth_state ctx; ctx_sessions := l;
     ctx_username := ctx_username ctx; ctx_password := ctx_password ctx;
     ctx_selected_session := ctx_selected_session ctx;
     ctx_running := ctx_running ctx |}.

Definition set_ctx_selected_session (ctx : app_context_t) (i : Z)
  : app_context_t :=
  {| ctx_state := ctx_state ctx; ctx_config := ctx_config ctx;
     ctx_auth_state := ctx_auth_state ctx; ctx_sessions := ctx_sessions ctx;
     ctx_username := ctx_username ctx; ctx_password := ctx_password ctx;
     ctx_selected_session := i;
     ctx_running := ctx_running ctx |}.

(** [strncpy(dst, src, n)] into the array [dst]: the bytes of [src], or
    its first [n], then zeros up to [n] bytes. *)
Definition strncpy_array (dst : list ascii) (src : string) (n : nat)
  : list ascii :=
  take n (list_ascii_of_string src ++ replicate n zero) ++ drop n dst.

(** [controller_init(ctx)]: the context [memset] to zero, then the three
    fields set. *)
Definition controller_init (ctx : option app_context_t)
  : Z * option app_context_t :=
  match ctx with
  | None => (KIA_ERROR_SYSTEM, None)
  | Some _ =>
      (KIA_SUCCESS,
       Some {| ctx_state := STATE_INIT;
               ctx_config :=
                 {| autologin_user := ""; autologin_enabled := false;
                    default_session := ""; max_attempts := 0;
                    enable_logs := false; lockout_duration := 0 |};
               ctx_auth_state := auth_state_zero;
               ctx_sessions := {| sessions := []; count := 0 |};
               ctx_username := replicate 256 zero;
               ctx_password := replicate 256 zero;
               ctx_selected_session := -1;
               ctx_running := true |})
  end.

Definition handle_init (sys : system) (ctx : app_context_t)
  : M (Z * app_context_t) :=
  logger_log LOG_INFO "Kia display manager started (version %s)";;
  (* Initialize authentication module *)
  result ← auth_init;
  if negb (result =? KIA_SUCCESS) then
    logger_log LOG_ERROR "Failed to initialize authentication module";;
    mret (result, set_ctx_state ctx STATE_EXIT)
  else
    (* Initialize TUI *)
    result ← tui_init (sys_initscr sys);
    if negb (result =? KIA_SUCCESS) then
      logger_log LOG_ERROR "Failed to initialize TUI";;
      mret (result, set_ctx_state ctx STATE_EXIT)
    else
      (* Transition to load config *)
      mret (KIA_SUCCESS, set_ctx_state ctx STATE_LOAD_CONFIG).

Definition handle_load_config (sys : system) (ctx : app_context_t)
  : M (Z * app_context_t) :=
  let '(result, config) :=
    config_load (fs_fopen (sys_fs sys)) (Some KIA_CONFIG_PATH)
      (Some (ctx_config ctx)) in
  let ctx := set_ctx_config ctx (default (ctx_config ctx) config) in
  (if negb (result =? KIA_SUCCESS) then
     (* Continue with defaults - not a critical error *)
     logger_log LOG_WARN "Failed to load config from %s, using defaults"
   else mret tt);;
  (* Validate configuration *)
  (if negb (config_validate (Some (ctx_config ctx)) =? KIA_SUCCESS) then
     logger_log LOG_WARN "Configuration validation failed, using defaults"
   else mret tt);;
  (* Discover available sessions *)
  '(result, list) ← session_discover (sys_fs sys) (Some (ctx_sessions ctx));
  let ctx := set_ctx_sessions ctx (default (ctx_sessions ctx) list) in
  if negb (result =? KIA_SUCCESS) || (count (ctx_sessions ctx) =? 0) then
    logger_log LOG_ERROR "No sessions found";;
    tui_show_error
      "No sessions available. Please install a desktop environment.";;
    mret (KIA_ERROR_SESSION, set_ctx_state ctx STATE_EXIT)
  else
    logger_log LOG_INFO "Discovered %d session(s)";;
    (* Transition to autologin check *)
    mret (KIA_SUCCESS, set_ctx_state ctx STATE_CHECK_AUTOLOGIN).

Definition handle_check_autologin (sys : system) (ctx : app_context_t)
  : M (Z * app_context_t) :=
  let user := autologin_user (ctx_config ctx) in
  (* Check if autologin is enabled *)
  if autologin_enabled (ctx_config ctx) && negb (String.eqb user "") then
    (* Validate username length *)
    if (String.length user =? 0)%nat || (256 <=? String.length user)%nat then
      logger_log LOG_ERROR "Invalid autologin username length: %zu";;
      tui_show_error
        "Invalid autologin configuration. Falling back to manual login.";;
      mret (KIA_SUCCESS, set_ctx_state ctx STATE_SHOW_LOGIN)
    else
      (* Validate that the autologin user exists *)
      found ← user_exists (sys_os sys) (Some user);
      if negb found then
        logger_log LOG_ERROR "Autologin user '%s' does not exist";;
        tui_show_error
          "Autologin user not found. Falling back to manual login.";;
        mret (KIA_SUCCESS, set_ctx_state ctx STATE_SHOW_LOGIN)
      else
        (* Set username for autologin with bounds checking *)
        let ctx :=
          set_ctx_credentials ctx
            (<[255%nat := zero]> (strncpy_array (ctx_username ctx) user 255))
            (ctx_password ctx) in
        (* Find default session *)
        idx ← find_default_session (Some (ctx_sessions ctx))
                (Some (default_session (ctx_config ctx)));
        let ctx := set_ctx_selected_session ctx idx in
        (* Validate session index *)
        if (idx <? 0) || (idx >=? count (ctx_sessions ctx)) then
          logger_log LOG_ERROR "Invalid session index for autologin: %d";;
          tui_show_error
            "Invalid session configuration. Falling back to manual login.";;
          mret (KIA_SUCCESS, set_ctx_state ctx STATE_SHOW_LOGIN)
        else
          logger_log LOG_INFO
            "Autologin enabled for user '%s' with session '%s'";;
          (* Skip to session start *)
          mret (KIA_SUCCESS, set_ctx_state ctx STATE_START_SESSION)
  else
    (* No autologin, show login screen *)
    mret (KIA_SUCCESS, set_ctx_state ctx STATE_SHOW_LOGIN).

Definition handle_show_login (sys : system) (ctx : app_context_t)
  : M (Z * app_context_t) :=
  let hostname := get_hostname sys 256 in
  (* Draw the login screen *)
  tui_draw_login_screen hostname KIA_VERSION;;
  (* Transition to get credentials *)
  mret (KIA_SUCCESS, set_ctx_state ctx STATE_GET_CREDENTIALS).

Definition handle_select_session (ctx : app_context_t)
  : M (Z * app_context_t) :=
  (* Find default session index *)
  default_idx ← find_default_session (Some (ctx_sessions ctx))
                  (Some (default_session (ctx_config ctx)));
  (* Let user select session *)
  idx ← tui_select_session (Some (ctx_sessions ctx)) default_idx;
  let ctx := set_ctx_selected_session ctx idx in
  if (idx <? 0) || (idx >=? count (ctx_sessions ctx)) then
    logger_log LOG_ERROR "Invalid session selection: %d";;
    tui_show_error "Invalid session selection.";;
    mret (KIA_ERROR_SESSION, set_ctx_state ctx STATE_SHOW_LOGIN)
  else
    logger_log LOG_INFO "User '%s' selected session: %s";;
    (* Transition to authentication *)
    mret (KIA_SUCCESS, set_ctx_state ctx STATE_AUTHENTICATE).

Definition handle_start_session (sys : system) (ctx : app_context_t)
  : M (Z * app_context_t) :=
  let idx := ctx_selected_session ctx in
  (* Validate session selection *)
  if (idx <? 0) || (idx >=? count (ctx_sessions ctx)) then
    logger_log LOG_ERROR "Invalid session index: %d";;
    tui_show_error "Invalid session. Please try again.";;
    mret (KIA_ERROR_SESSION, set_ctx_state ctx STATE_SHOW_LOGIN)
  else
    (* the array holds [count] records: the pointer is to one of them *)
    let session := sessions (ctx_sessions ctx) !! Z.to_nat idx in
    logger_log LOG_INFO "Starting %s session '%s' for user '%s'";;
    (* Show message to user *)
    tui_show_message "Starting session...";;
    (* Start the session *)
    result ← session_start (sys_os sys) session
               (Some (buf_str (ctx_username ctx)));
    if negb (result =? KIA_SUCCESS) then
      logger_log LOG_ERROR "Failed to start session for user '%s'";;
      tui_show_error "Failed to start session. Please try again.";;
      mret (result, set_ctx_state ctx STATE_SHOW_LOGIN)
    else
      (* Session started successfully - exit the display manager *)
      logger_log LOG_INFO
        "Session started successfully, exiting display manager";;
      mret (KIA_SUCCESS, set_ctx_state ctx STATE_EXIT).

(** The [switch] of [controller_run]: the handler of the current
    state.  (An [app_state_t] outside the enumeration, which the
    [default] label is for, has no counterpart here.) *)
Definition controller_step (sys : system) (ctx : app_context_t) (result : Z)
  : M (Z * app_context_t) :=
  match ctx_state ctx with
  | STATE_INIT => handle_init sys ctx
  | STATE_LOAD_CONFIG => handle_load_config sys ctx
  | STATE_CHECK_AUTOLOGIN => handle_check_autologin sys ctx
  | STATE_SHOW_LOGIN => handle_show_login sys ctx
  | STATE_GET_CREDENTIALS => handle_get_credentials ctx
  | STATE_SELECT_SESSION => handle_select_session ctx
  | STATE_AUTHENTICATE => handle_authenticate ctx
  | STATE_START_SESSION => handle_start_session sys ctx
  | STATE_EXIT => (* Exit state - will break loop *) mret (result, ctx)
  end.

Definition is_exit (s : app_state_t) : bool :=
  match s with
  | STATE_EXIT => true
  | _ => false
  end.

(** The [while] loop of [controller_run].  The login loop has no bound
    of its own: the run is cut after [fuel] handler calls, and then
    returns [None]. *)
Fixpoint controller_run_loop (fuel : nat) (sys : system) (ctx : app_context_t)
    (result : Z) : M (option (Z * app_context_t)) :=
  if ctx_running ctx && negb (is_exit (ctx_state ctx)) then
    match fuel with
    | O => mret None
    | S fuel' =>
        '(result, ctx) ← controller_step sys ctx result;
        (* If any state handler fails critically, exit *)
        if negb (result =? KIA_SUCCESS) && is_exit (ctx_state ctx) then
          mret (Some (result, ctx))
        else controller_run_loop fuel' sys ctx result
    end
  else mret (Some (result, ctx)).

(** [controller_run(ctx)]: the result and the context it leaves, or
    [None] when the run is cut. *)
Definition controller_run (fuel : nat) (sys : system)
    (ctx : option app_context_t) : M (option (Z * option app_context_t)) :=
  match ctx with
  | None => mret (Some (KIA_ERROR_SYSTEM, None))
  | Some ctx =>
      out ← controller_run_loop fuel sys ctx KIA_SUCCESS;
      mret (match out with
            | Some (result, ctx) => Some (result, Some ctx)
            | None => None
            end)
  end.

(** [controller_cleanup(ctx)]; [logger_close] closes the external log
    sink. *)
Definition controller_cleanup (ctx : option app_context_t)
  : M (option app_context_t) :=
  match ctx with
  | None => mret None
  | Some ctx =>
      (* Securely clear sensitive data (password) *)
      let ctx := set_ctx_credentials ctx (ctx_username ctx)
                   (secure_memzero (ctx_password ctx) 256) in
      (* Free configuration *)
      let ctx := set_ctx_config ctx
                   (default (ctx_config ctx) (config_free (Some (ctx_config ctx)))) in
      (* Free session list *)
      let ctx := set_ctx_sessions ctx
                   (default (ctx_sessions ctx)
                      (session_list_free (Some (ctx_sessions ctx)))) in
      (* Cleanup authentication module *)
      auth_cleanup;;
      (* Cleanup TUI *)
      tui_cleanup;;
      mret (Some ctx)
  end.

(** ** src/logger.c

    The log sink that [logger_log] above stands for, on its own: the
    three static variables of logger.c and the calls that change
    them. *)

Module Logger.

(** [log_level_t] as the integer [logger_log] receives. *)
Definition LOG_DEBUG : Z := 0.
Definition LOG_INFO : Z := 1.
Definition LOG_WARN : Z := 2.
Definition LOG_ERROR : Z := 3.

(** [log_level_strings\[level\]] *)
Definition log_level_strings (level : Z) : string :=
  if level =? LOG_DEBUG then "DEBUG"
  else if level =? LOG_INFO then "INFO"
  else if level =? LOG_WARN then "WARN"
  else "ERROR".

(** The static variables: the open file (its path) or NULL, the enabled
    flag, the minimum level. *)
Record logger_state : Type := mk_logger_state {
  log_file : option string;
  logging_enabled : bool;
  min_log_level : Z
}.

Definition logger_start : logger_state :=
  {| log_file := None; logging_enabled := false; min_log_level := LOG_DEBUG |}.

(** What the C library answers during one call of [logger_log]. *)
Record log_io : Type := mk_log_io {
  (** [time(&now)], or -1 *)
  io_time : Z;
  (** whether [gmtime] gives a broken-down time *)
  io_gmtime_ok : bool;
  (** the text [strftime] writes, or [None] when it returns 0 *)
  io_strftime : option string;
  (** what [vsnprintf] returns, and the message it formats *)
  io_vsnprintf : Z;
  io_message : string;
  (** what [fprintf] and [fflush] return *)
  io_fprintf : Z;
  io_fflush : Z
}.

(** One line handed to [fprintf]: timestamp, level name, message. *)
Record log_line : Type := mk_log_line {
  line_timestamp : string;
  line_level : string;
  line_message : string
}.

(** [get_iso8601_timestamp(buffer, size)] for the 32-byte buffer of
    [logger_log]: the string the buffer holds afterwards. *)
Definition get_iso8601_timestamp (io : log_io) : string :=
  if io_time io =? -1 then "UNKNOWN"
  else if io_gmtime_ok io then
    match io_strftime io with
    | Some text => text
    | None => (* strftime failed - buffer too small *) "UNKNOWN"
    end
  else "UNKNOWN".

(** [logger_init(log_path, enabled)]; [fopen_a] is [fopen(path, "a")]. *)
Definition logger_init (fopen_a : string -> bool) (log_path : option string)
    (enabled : bool) (lg : logger_state) : Z * logger_state :=
  match log_path with
  | None => (KIA_ERROR_SYSTEM, lg)
  | Some path =>
      (* If logging is disabled, don't open the file *)
      if negb enabled then
        (KIA_SUCCESS,
         {| log_file := log_file lg; logging_enabled := enabled;
            min_log_level := min_log_level lg |})
      else if fopen_a path then
        (KIA_SUCCESS,
         {| log_file := Some path; logging_enabled := enabled;
            min_log_level := min_log_level lg |})
      else
        (* Failed to open log file - disable logging but don't fail *)
        (KIA_ERROR_SYSTEM,
         {| log_file := None; logging_enabled := false;
            min_log_level := min_log_level lg |})
  end.

(** [logger_log(level, format, ...)]: the state afterwards and the line
    handed to [fprintf], if the call gets that far. *)
Definition logger_log (io : log_io) (level : Z) (format : option string)
    (lg : logger_state) : logger_state * option log_line :=
  match format with
  | None => (lg, None)
  | Some _ =>
      (* Check if logging is enabled *)
      if negb (logging_enabled lg) || negb (bool_decide (is_Some (log_file lg)))
      then (lg, None)
      (* Check log level filtering *)
      else if level <? min_log_level lg then (lg, None)
      (* Validate log level *)
      else if (level <? LOG_DEBUG) || (level >? LOG_ERROR) then (lg, None)
      else
        let timestamp := get_iso8601_timestamp io in
        if io_vsnprintf io <? 0 then
          (* Formatting failed - disable logging *)
          ({| log_file := log_file lg; logging_enabled := false;
              min_log_level := min_log_level lg |}, None)
        else
          let enabled :=
            if io_fprintf io <? 0 then false else logging_enabled lg in
          let enabled :=
            if negb (io_fflush io =? 0) then false else enabled in
          ({| log_file := log_file lg; logging_enabled := enabled;
              min_log_level := min_log_level lg |},
           Some {| line_timestamp := timestamp;
                   line_level := log_level_strings level;
                   line_message := io_message io |})
  end.

Definition logger_close (lg : logger_state) : logger_state :=
  {| log_file := None; logging_enabled := false;
     min_log_level := min_log_level lg |}.

(** A run of [logger_log] calls, each with its level, its format and
    the answers of the C library: the state and the lines written. *)
Fixpoint logger_log_all (calls : list (log_io * Z * option string))
    (lg : logger_state) : logger_state * list log_line :=
  match calls with
  | [] => (lg, [])
  | (io, level, format) :: calls =>
      let '(lg, line) := logger_log io level format lg in
      let '(lg, lines) := logger_log_all calls lg in
      (lg, match line with Some l => l :: lines | None => lines end)
  end.

End Logger.

(** ** Notions the properties are stated with *)

(** Calls to the identity provider. *)
Definition is_provider_call (ev : event) : bool :=
  match ev with
  | EvPamStart _ _ _ | EvPamAuthenticate _ _ _ | EvPamAcctMgmt _ _
  | EvPamEnd _ => true
  | _ => false
  end.

Definition provider_calls (tr : list event) : list event :=
  List.filter is_provider_call tr.

(** The provider turns the attempt down: the transaction opens, and the
    credential check or, after it, the account check fails. *)
Definition provider_rejects (e : env) (user password : string) : bool :=
  (env_pam_start e user =? PAM_SUCCESS) &&
  negb ((env_pam_authenticate e user password =? PAM_SUCCESS) &&
        (env_pam_acct_mgmt e user =? PAM_SUCCESS)).

(** Every reading of the clock in the run so far is a time after the
    epoch, nowhere near the end of [time_t]. *)
Definition clock_after_epoch (g : globals) : Prop :=
  forall t, In (EvTime t) (g_trace g) -> 0 < t < 2 ^ 62.

(** The authentication states a run can reach from the zero-initialized
    one by calls of the three functions of auth.h, under one
    configuration and in any environment. *)
Inductive auth_reachable (config : kia_config_t)
  : globals -> auth_state_t -> Prop :=
  | reach_zero g :
      auth_reachable config g auth_state_zero
  | reach_authenticate g st user password e r st' g' :
      auth_reachable config g st ->
      auth_authenticate user password (Some config) (Some st) e g
        = ((r, Some st'), g') ->
      auth_reachable config g' st'
  | reach_is_locked_out g st e b st' g' :
      auth_reachable config g st ->
      auth_is_locked_out (Some st) e g = ((b, Some st'), g') ->
      auth_reachable config g' st'
  | reach_reset_attempts g st st' :
      auth_reachable config g st ->
      auth_reset_attempts (Some st) = Some st' ->
      auth_reachable config g st'.

(** A value an [int] can hold. *)
Definition is_int (z : Z) : Prop := INT_MIN <= z <= INT_MAX.

(** What holds of every reachable authentication state: the counter is
    within [0, max_attempts]; a lockout is set only with the counter at
    [max_attempts], and to a clock reading of the run plus
    [lockout_duration]; without a lockout the counter is below
    [max_attempts]. *)
Definition lockout_invariant (config : kia_config_t) (g : globals)
    (st : auth_state_t) : Prop :=
  0 <= failed_attempts st <= max_attempts config /\
  (lockout_until st <> 0 ->
   failed_attempts st = max_attempts config /\
   exists t, In (EvTime t) (g_trace g) /\
             lockout_until st = t + lockout_duration config) /\
  (lockout_until st = 0 -> failed_attempts st < max_attempts config).

(** The process has exactly the identity of the account: real and
    effective user id, real and effective group id. *)
Definition creds_match (pw : passwd) (c : creds) : Prop :=
  ruid c = pw_uid pw /\ euid c = pw_uid pw /\
  rgid c = pw_gid pw /\ egid c = pw_gid pw.

(** The identity a process that starts as [c] has after
    [setgid(pw->pw_gid)] and then [setuid(pw->pw_uid)]. *)
Definition creds_after_drop (kr : kernel) (pw : passwd) (c : creds) : creds :=
  (k_setuid kr (pw_uid pw) (k_setgid kr (pw_gid pw) c).2).2.

(** The trace holds a call of [execlp]. *)
Definition exec_reached (tr : list sys_event) : Prop :=
  exists file argv ok, In (SysExeclp file argv ok) tr.

(** Inputs the examples run on. *)
Definition example_config : kia_config_t :=
  {| autologin_user := ""; autologin_enabled := false;
     default_session := "xfce"; max_attempts := 3;
     enable_logs := true; lockout_duration := 60 |}.

Definition example_globals : globals :=
  globals_init {| stdscr_ok := true; max_y := 24; max_x := 80 |} [].

(** A world at time 1000 whose provider accepts the secret "correct"
    and no other. *)
Definition example_env : env :=
  {| env_time := fun _ => 1000; env_open_tty := 3;
     env_ioctl := fun _ => 0; env_pam_start := fun _ => 0;
     env_pam_authenticate :=
       fun _ password => if String.eqb password "correct" then 0 else 7;
     env_pam_acct_mgmt := fun _ => 0 |}.

(** A kernel on which every call succeeds and the drop calls take
    effect. *)
Definition example_kernel : kernel :=
  {| k_setenv := fun _ _ => 0;
     k_chdir := fun _ => 0;
     k_setgid := fun gid c =>
       (0, {| ruid := ruid c; euid := euid c; rgid := gid; egid := gid |});
     k_setuid := fun uid c =>
       (0, {| ruid := uid; euid := uid; rgid := rgid c; egid := egid c |});
     k_execlp := fun _ _ => true |}.

(** The same kernel with a [setuid] that reports success and leaves the
    process as it was. *)
Definition example_kernel_silent_setuid : kernel :=
  {| k_setenv := fun _ _ => 0;
     k_chdir := fun _ => 0;
     k_setgid := fun gid c =>
       (0, {| ruid := ruid c; euid := euid c; rgid := gid; egid := gid |});
     k_setuid := fun _ c => (0, c);
     k_execlp := fun _ _ => true |}.

Definition root_creds : creds := {| ruid := 0; euid := 0; rgid := 0; egid := 0 |}.

Definition example_passwd : passwd :=
  {| pw_dir := Some "/home/alice"; pw_shell := Some "/bin/bash";
     pw_uid := 1000; pw_gid := 1000 |}.

Definition example_session : session_info_t :=
  {| name := "Xfce Session"; exec := "startxfce4"; type := SESSION_X11 |}.

(** Both validated ranges hold of a configuration. *)
Definition config_in_range (config : kia_config_t) : Prop :=
  1 <= max_attempts config <= 10 /\ 0 <= lockout_duration config <= 3600.




(** A line of text that fits the 1024-byte buffer: fewer than 1023
    bytes, none of them a newline or a NUL. *)
Fixpoint text_chars (s : string) : bool :=
  match s with
  | EmptyString => true
  | String c rest =>
      negb (Ascii.eqb c newline) && negb (Ascii.eqb c zero) && text_chars rest
  end.

Definition text_line (s : string) : Prop :=
  text_chars s = true /\ (String.length s < 1023)%nat.

(** The file whose lines are [lines], each ended by a newline. *)
Fixpoint unlines (lines : list string) : string :=
  match lines with
  | [] => EmptyString
  | l :: rest => (l ++ String newline (unlines rest))%string
  end.

(** An input field of the login screen while [tui_get_credentials] runs:
    a 256-byte array holding [pos] typed characters, at most 20, with
    every byte from [pos] on zero and, once something is typed, a first
    byte that is not. *)
Definition field_ok (buf : list ascii) (pos : Z) : Prop :=
  List.length buf = 256%nat /\
  0 <= pos <= 20 /\
  (forall i : nat, (Z.to_nat pos <= i < 256)%nat -> buf !! i = Some zero) /\
  (0 < pos -> buf !! 0%nat <> Some zero).

(** A buffer of 256 zero bytes. *)
Definition zeroed (buf : list ascii) : Prop := buf = replicate 256 zero.

(** A [char\[256\]] array that holds the C string [s] and zeros after
    it. *)
Definition buffer_of (s : string) : list ascii :=
  take 256 (list_ascii_of_string s ++ replicate 256 zero).

Definition key (ch : Z) : tty_input := {| in_refresh_ok := true; in_key := ch |}.

(** A run context in the login loop: "alice" and the secret "hunter2"
    are pending. *)
Definition example_ctx : app_context_t :=
  {| ctx_state := STATE_AUTHENTICATE;
     ctx_config := example_config;
     ctx_auth_state := auth_state_zero;
     ctx_sessions := {| sessions := []; count := 0 |};
     ctx_username := buffer_of "alice";
     ctx_password := buffer_of "hunter2";
     ctx_selected_session := 0;
     ctx_running := true |}.

(** The user types "a" and presses Enter: an identity, no secret. *)
Definition example_keys_no_secret : list tty_input := [key 97; key 10].

(** The user types "a", Tab, "s", and the terminal goes away. *)
Definition example_keys_read_failure : list tty_input :=
  [key 97; key 9; key 115].

(** ** Further notions *)

(** The provider accepts the attempt: the transaction opens, the
    credential check and the account check both pass. *)
Definition provider_accepts (e : env) (user password : string) : bool :=
  (env_pam_start e user =? PAM_SUCCESS) &&
  (env_pam_authenticate e user password =? PAM_SUCCESS) &&
  (env_pam_acct_mgmt e user =? PAM_SUCCESS).

(** The state an attempt is evaluated on: the stored one, or a fresh
    one for the requested identity when that differs from the tracked
    one. *)
Definition state_for (st : auth_state_t) (user : string) : auth_state_t :=
  if negb (strcmp (username st) user =? 0) then
    {| username := strncpy user 255; failed_attempts := 0; lockout_until := 0 |}
  else st.

Definition is_successful_open (ev : event) : bool :=
  match ev with
  | EvOpen _ fd => 0 <=? fd
  | _ => false
  end.

Definition is_close (ev : event) : bool :=
  match ev with
  | EvClose _ => true
  | _ => false
  end.

(** A message the conversation answers with the secret. *)
Definition is_prompt (m : pam_message) : bool :=
  (msg_style m =? PAM_PROMPT_ECHO_OFF) || (msg_style m =? PAM_PROMPT_ECHO_ON).

(** The strings the loop has allocated so far are the ones the array
    records for the messages before [i]. *)
Definition strings_recorded (rs : list pam_response) (i : nat) (live : list nat)
  : Prop :=
  forall k, In k live ->
    (k < i)%nat /\
    exists secret rc, rs !! k = Some {| resp := Some secret; resp_retcode := rc |}.


(** A string of white space only. *)
Fixpoint all_space (s : string) : bool :=
  match s with
  | EmptyString => true
  | String c rest => isspace c && all_space rest
  end.

(** A record a session can be started from: a name and a command, each
    non-empty and within its array. *)
Definition session_usable (s : session_info_t) : Prop :=
  (0 < String.length (name s) < 256)%nat /\
  (0 < String.length (exec s) < 512)%nat.

(** The fields a descriptor has given so far are usable. *)
Definition fields_found (s : session_info_t) (found_name found_exec : bool)
  : Prop :=
  (found_name = true -> (0 < String.length (name s) < 256)%nat) /\
  (found_exec = true -> (0 < String.length (exec s) < 512)%nat).

(** The catalog [*sessions], [*count]: the array holds at least [count]
    records, and each of the first [count] is usable. *)
Definition catalog_ok (sess : list session_info_t) (cnt : Z) : Prop :=
  0 <= cnt /\ (Z.to_nat cnt <= List.length sess)%nat /\
  forall i s, (i < Z.to_nat cnt)%nat -> sess !! i = Some s -> session_usable s.

(** No session directory holds more entries than an [int] counts. *)
Definition directories_countable (fs : session_fs) : Prop :=
  forall path dir, fs_opendir fs path = Some dir ->
    Z.of_nat (List.length (d_entries dir)) < 2 ^ 30.

(** A descriptor as tests/test_session.c writes it. *)
Definition desktop_file_text (session_name command : string) : string :=
  unlines ["[Desktop Entry]"; "Name=" ++ session_name; "Exec=" ++ command;
           "Type=Application"].

(** The loop of [parse_desktop_file] over the lines of a text file. *)
Fixpoint desktop_lines (lines : list string) (session : session_info_t)
    (found_name found_exec : bool) : session_info_t * bool * bool :=
  match lines with
  | [] => (session, found_name, found_exec)
  | l :: rest =>
      let '(session, found_name, found_exec) :=
        parse_desktop_line l session found_name found_exec in
      if found_name && found_exec then (session, found_name, found_exec)
      else desktop_lines rest session found_name found_exec
  end.

(** A file system with one X11 session and one Wayland session, as the
    discovery test sets it up. *)
Definition example_fs : session_fs :=
  {| fs_fopen := fun path =>
       if String.eqb path "/usr/share/xsessions/xfce.desktop" then
         Some {| f_bytes := desktop_file_text "XFCE Session" "startxfce4";
                 f_fails := false |}
       else if String.eqb path "/usr/share/wayland-sessions/sway.desktop" then
         Some {| f_bytes := desktop_file_text "Sway" "sway";
                 f_fails := false |}
       else None;
     fs_opendir := fun path =>
       if String.eqb path X11_SESSION_DIR then
         Some {| d_entries := ["."; ".."; "xfce.desktop"; "README"];
                 d_errno := 0 |}
       else if String.eqb path WAYLAND_SESSION_DIR then
         Some {| d_entries := ["."; ".."; "sway.desktop"]; d_errno := 0 |}
       else None;
     fs_realloc_ok := fun _ => true;
     fs_fresh := {| name := ""; exec := ""; type := SESSION_X11 |} |}.

Definition example_catalog : session_list_t :=
  {| sessions :=
       [{| name := "XFCE Session"; exec := "startxfce4"; type := SESSION_X11 |};
        {| name := "Sway"; exec := "sway"; type := SESSION_WAYLAND |}];
     count := 2 |}.

(** What the child of [session_start] does, in order, before it
    executes the session, when every step succeeds. *)
Definition session_setup (session : session_info_t) (user home shell : string)
    (pw : passwd) : list sys_event :=
  [SysSetenv "HOME" home 0; SysSetenv "USER" user 0;
   SysSetenv "LOGNAME" user 0; SysSetenv "SHELL" shell 0] ++
  match type session with
  | SESSION_X11 =>
      [SysSetenv "XDG_SESSION_TYPE" "x11" 0; SysSetenv "DISPLAY" ":0" 0]
  | SESSION_WAYLAND =>
      [SysSetenv "XDG_SESSION_TYPE" "wayland" 0;
       SysSetenv "WAYLAND_DISPLAY" "wayland-0" 0]
  end ++
  [SysChdir home 0; SysSetgid (pw_gid pw) 0; SysSetuid (pw_uid pw) 0].

(** The ways the child becomes the session: through [startx] or, when
    that cannot be executed, through the shell for X11; through the
    shell for Wayland. *)
Definition session_launches (session : session_info_t)
  : list (list sys_event) :=
  match type session with
  | SESSION_X11 =>
      [[SysExeclp "startx" ["startx"; exec session] true];
       [SysExeclp "startx" ["startx"; exec session] false;
        SysExeclp "/bin/sh" ["sh"; "-c"; exec session] true]]
  | SESSION_WAYLAND =>
      [[SysExeclp "/bin/sh" ["sh"; "-c"; exec session] true]]
  end.

(** The edges of the state machine, each with the result the handler
    returns along it. *)
Definition transition_allowed (s s' : app_state_t) (r : Z) : bool :=
  match s, s' with
  | STATE_INIT, STATE_LOAD_CONFIG => r =? KIA_SUCCESS
  | STATE_INIT, STATE_EXIT => r =? KIA_ERROR_SYSTEM
  | STATE_LOAD_CONFIG, STATE_CHECK_AUTOLOGIN => r =? KIA_SUCCESS
  | STATE_LOAD_CONFIG, STATE_EXIT => r =? KIA_ERROR_SESSION
  | STATE_CHECK_AUTOLOGIN, STATE_START_SESSION => r =? KIA_SUCCESS
  | STATE_CHECK_AUTOLOGIN, STATE_SHOW_LOGIN => r =? KIA_SUCCESS
  | STATE_SHOW_LOGIN, STATE_GET_CREDENTIALS => r =? KIA_SUCCESS
  | STATE_GET_CREDENTIALS, STATE_SELECT_SESSION => r =? KIA_SUCCESS
  | STATE_GET_CREDENTIALS, STATE_SHOW_LOGIN =>
      (r =? KIA_SUCCESS) || (r =? KIA_ERROR_SYSTEM)
  | STATE_SELECT_SESSION, STATE_AUTHENTICATE => r =? KIA_SUCCESS
  | STATE_SELECT_SESSION, STATE_SHOW_LOGIN => r =? KIA_ERROR_SESSION
  | STATE_AUTHENTICATE, STATE_START_SESSION => r =? KIA_SUCCESS
  | STATE_AUTHENTICATE, STATE_SHOW_LOGIN => r =? KIA_SUCCESS
  | STATE_START_SESSION, STATE_EXIT => r =? KIA_SUCCESS
  | STATE_START_SESSION, STATE_SHOW_LOGIN => r =? KIA_ERROR_SESSION
  | STATE_EXIT, STATE_EXIT => true
  | _, _ => false
  end.

(** A system where "alice" has an account, the terminal is 24 by 80,
    and the two example sessions are installed. *)
Definition example_os : session_os :=
  {| os_getpwnam := fun user =>
       if String.eqb user "alice" then Some example_passwd else None;
     os_errno := 0;
     os_fork := 4242;
     os_kernel := example_kernel;
     os_creds := root_creds;
     os_waitpid := 4242;
     os_session_status := WEXITED 0 |}.

Definition example_system : system :=
  {| sys_fs := example_fs; sys_os := example_os;
     sys_gethostname := Some "kia-host"; sys_initscr := Some (24, 80) |}.

(** The keys of one login: "alice", Tab, "correct", Enter; then Down
    and Enter in the session menu. *)
Definition example_keys_login : list tty_input :=
  [key 97; key 108; key 105; key 99; key 101; key 9;
   key 99; key 111; key 114; key 114; key 101; key 99; key 116; key 10;
   key KEY_DOWN; key 10].

(** The context [controller_init] sets up. *)
Definition initial_ctx : app_context_t :=
  default example_ctx (controller_init (Some example_ctx)).2.


(** A key that types a character, and the text a list of keys types. *)
Definition printable (ch : Z) : Prop := 32 <= ch <= 126.

Definition typed (keys : list Z) : string :=
  string_of_list_ascii (map char_of_key keys).

(** The key of a configuration line: the trimmed text before the first
    '=', if there is one. *)
Definition line_key (line : string) : option string :=
  match split_at "="%char line with
  | Some (before, _) => Some (trim_whitespace before)
  | None => None
  end.

(** The run context at the login screen, nothing typed yet, with the
    two example sessions in the catalog. *)
Definition example_ctx_at_login : app_context_t :=
  {| ctx_state := STATE_GET_CREDENTIALS;
     ctx_config := example_config;
     ctx_auth_state := auth_state_zero;
     ctx_sessions := example_catalog;
     ctx_username := replicate 256 zero;
     ctx_password := replicate 256 zero;
     ctx_selected_session := -1;
     ctx_running := true |}.

(** The keys of a login given up at the menu: "alice", Tab, "hunter2",
    Enter; then Escape in the session menu. *)
Definition example_keys_cancelled_menu : list tty_input :=
  [key 97; key 108; key 105; key 99; key 101; key 9;
   key 104; key 117; key 110; key 116; key 101; key 114; key 50; key 10;
   key 27].


(** The keys [parse_config_line] knows. *)
Definition config_keys : list string :=
  ["autologin_enabled"; "autologin_user"; "default_session"; "max_attempts";
   "enable_logs"; "lockout_duration"].

(** * Properties *)

Ltac unfold_M :=
  unfold logger_log, emit, ask, time_NULL, set_tty_fd, get_tty_fd,
    set_pam_handle, get_pam_handle, set_input;
  unfold mbind, mret, M_bind, M_ret.

(** Turn the boolean tests of the code into (in)equalities. *)
Ltac Zbool :=
  repeat match goal with
  | H : (_ <? _) = true |- _ => apply Z.ltb_lt in H
  | H : (_ <? _) = false |- _ => apply Z.ltb_ge in H
  | H : (_ >? _) = true |- _ => rewrite Z.gtb_ltb in H
  | H : (_ >? _) = false |- _ => rewrite Z.gtb_ltb in H
  | H : (_ >=? _) = true |- _ => rewrite Z.geb_leb in H
  | H : (_ >=? _) = false |- _ => rewrite Z.geb_leb in H
  | H : (_ <=? _) = true |- _ => apply Z.leb_le in H
  | H : (_ <=? _) = false |- _ => apply Z.leb_gt in H
  | H : (_ =? _) = true |- _ => apply Z.eqb_eq in H
  | H : (_ =? _) = false |- _ => apply Z.eqb_neq in H
  | H : negb _ = true |- _ => apply negb_true_iff in H
  | H : negb _ = false |- _ => apply negb_false_iff in H
  | H : _ && _ = true |- _ => apply andb_true_iff in H; destruct H
  | H : _ || _ = false |- _ => apply orb_false_iff in H; destruct H
  end.

(** Membership in a trace that has grown by appending. *)
Ltac solve_in := rewrite ?in_app_iff; cbn; tauto.

(** ** Auxiliary facts *)

Lemma int_wrap_id z : INT_MIN <= z <= INT_MAX -> int_wrap z = z.
Proof.
  unfold INT_MIN, INT_MAX, int_wrap. intros H.
  rewrite Z.mod_small; lia.
Qed.

Lemma time_wrap_id z : TIME_MIN <= z <= TIME_MAX -> time_wrap z = z.
Proof.
  unfold TIME_MIN, TIME_MAX, time_wrap. intros H.
  rewrite Z.mod_small; lia.
Qed.

Lemma strcmp_eq a b : (strcmp a b =? 0) = true <-> a = b.
Proof.
  unfold strcmp. split.
  - destruct (a ?= b)%string eqn:Hcmp; cbn; try discriminate.
    intros _. apply String.compare_eq_iff, Hcmp.
  - intros ->. pose proof (String.compare_antisym b b) as Hsym.
    destruct (b ?= b)%string; cbn in *; congruence.
Qed.

Lemma strcmp_zero a b : strcmp a b = 0 <-> a = b.
Proof. rewrite <- strcmp_eq. symmetry. apply Z.eqb_eq. Qed.

Lemma strcmp_refl a : strcmp a a = 0.
Proof. apply Z.eqb_eq, strcmp_eq. reflexivity. Qed.

Lemma strncpy_fits s n : (String.length s <= n)%nat -> strncpy s n = s.
Proof.
  unfold strncpy. revert n.
  induction s as [|c s IH]; intros [|n] Hlen; cbn in *; try reflexivity; try lia.
  f_equal. apply IH. lia.
Qed.

(** [tty_lock] and [tty_unlock] read no clock and touch nothing but the
    descriptor and the trace. *)
Lemma tty_lock_run e g :
  exists r fd tr,
    tty_lock e g
    = (r, {| g_ticks := g_ticks g; g_tty_fd := fd;
             g_pam_handle := g_pam_handle g; g_screen := g_screen g;
             g_input := g_input g; g_trace := g_trace g ++ tr |}) /\
    provider_calls tr = [] /\ (forall t, ~ In (EvTime t) tr).
Proof.
  unfold tty_lock. unfold_M. cbn.
  destruct (env_open_tty e <? 0); cbn;
    [|destruct (env_ioctl e VT_LOCKSWITCH <? 0); cbn];
    rewrite <- ?app_assoc; cbn;
    eexists _, _, _; (split; [reflexivity|]); split; try reflexivity;
    intros t Hin; cbn in Hin; intuition discriminate.
Qed.

Lemma tty_unlock_run e g :
  exists fd tr,
    tty_unlock e g
    = (tt, {| g_ticks := g_ticks g; g_tty_fd := fd;
              g_pam_handle := g_pam_handle g; g_screen := g_screen g;
              g_input := g_input g; g_trace := g_trace g ++ tr |}) /\
    provider_calls tr = [] /\ (forall t, ~ In (EvTime t) tr).
Proof.
  unfold tty_unlock. unfold_M. cbn.
  destruct (g_tty_fd g >=? 0); cbn;
    [destruct (env_ioctl e VT_UNLOCKSWITCH <? 0); cbn|];
    rewrite <- ?app_assoc; cbn.
  1-2: eexists _, _; (split; [reflexivity|]); split; try reflexivity;
       intros t Hin; cbn in Hin; intuition discriminate.
  exists (g_tty_fd g), []. rewrite app_nil_r. destruct g; cbn.
  split; [reflexivity|]. split; [reflexivity|]. intros t [].
Qed.

Section AuthLockout.

Implicit Types (st : auth_state_t) (e : env) (g : globals).

(** C5.  [auth_is_locked_out] answers true exactly when [lockout_until]
    is nonzero and the clock reads a time before it, and then leaves
    the state alone; when [lockout_until] is nonzero and the clock has
    reached or passed it, the answer is false and both [lockout_until]
    and [failed_attempts] are 0 afterwards; on a NULL state the answer
    is false. *)
Theorem auth_is_locked_out_spec st e g :
  let now := env_time e (g_ticks g) in
  let out := (auth_is_locked_out (Some st) e g).1 in
  (out.1 = true <-> lockout_until st <> 0 /\ now < lockout_until st) /\
  (out.1 = true -> out.2 = Some st) /\
  (lockout_until st <> 0 -> lockout_until st <= now ->
     out.1 = false /\
     out.2 = Some {| username := username st; failed_attempts := 0;
                     lockout_until := 0 |}) /\
  (lockout_until st = 0 -> out = (false, Some st)) /\
  (auth_is_locked_out None e g).1 = (false, None).
Proof.
  unfold auth_is_locked_out, auth_is_locked_out_at. unfold_M. cbn.
  destruct (lockout_until st =? 0) eqn:Hz; cbn;
    [|destruct (env_time e (g_ticks g) >=? lockout_until st) eqn:Hge; cbn];
    Zbool; repeat split; intros; try congruence; try lia.
Qed.

Ltac run_auth :=
  unfold auth_authenticate, auth_is_locked_out_at, tty_lock, tty_unlock,
    auth_reset_attempts; unfold_M; cbn.

(** C2.  While [lockout_until] is set and the clock reads a time before
    it, [auth_authenticate] returns [KIA_ERROR_AUTH] and makes no call
    to the identity provider, whatever the identity and the secret are
    (the one the provider would accept included). *)
Theorem auth_authenticate_locked_out_rejects
    (user password : option string) (config : option kia_config_t) st e g :
  lockout_until st <> 0 ->
  env_time e (g_ticks g) < lockout_until st ->
  let run := auth_authenticate user password config (Some st) e g in
  run.1.1 = KIA_ERROR_AUTH /\
  provider_calls (g_trace run.2) = provider_calls (g_trace g).
Proof.
  intros Hset Hfuture. run_auth.
  destruct user, password, config; cbn;
    try (split; [reflexivity|];
         unfold provider_calls; rewrite List.filter_app, app_nil_r; reflexivity).
  destruct (lockout_until st =? 0) eqn:Hz; Zbool; [lia|]. cbn.
  destruct (env_time e (g_ticks g) >=? lockout_until st) eqn:Hge; Zbool; [lia|].
  cbn. split; [reflexivity|].
  unfold provider_calls.
  rewrite <- !app_assoc, List.filter_app, app_nil_r. reflexivity.
Qed.

(** C2 at a state locked until 1060, read at 1000, with the secret the
    provider accepts. *)
Lemma auth_authenticate_locked_out_rejects_witness :
  let st := {| username := "alice"; failed_attempts := 3;
               lockout_until := 1060 |} in
  let run := auth_authenticate (Some "alice") (Some "correct")
               (Some example_config) (Some st) example_env example_globals in
  run.1.1 = KIA_ERROR_AUTH /\
  provider_calls (g_trace run.2) = provider_calls (g_trace example_globals).
Proof.
  intros st.
  apply (auth_authenticate_locked_out_rejects
           (Some "alice") (Some "correct") (Some example_config) st
           example_env example_globals); cbn; lia.
Defined.

(** C10.  While a lockout is active, an attempt for any identity, the
    tracked one or another, is rejected and leaves the whole
    authentication state as it was: the tracked identity, the counter
    and the expiry time. *)
Theorem auth_authenticate_locked_out_state_unchanged
    (user password : option string) (config : option kia_config_t) st e g :
  lockout_until st <> 0 ->
  env_time e (g_ticks g) < lockout_until st ->
  (auth_authenticate user password config (Some st) e g).1
    = (KIA_ERROR_AUTH, Some st).
Proof.
  intros Hset Hfuture. run_auth.
  destruct user, password, config; cbn; try reflexivity.
  destruct (lockout_until st =? 0) eqn:Hz; Zbool; [lia|]. cbn.
  destruct (env_time e (g_ticks g) >=? lockout_until st) eqn:Hge; Zbool; [lia|].
  reflexivity.
Qed.

(** C10 at a state that tracks "alice", locked until 1060: an attempt
    for "mallory" at time 1000 changes nothing. *)
Lemma auth_authenticate_locked_out_state_unchanged_witness :
  let st := {| username := "alice"; failed_attempts := 3;
               lockout_until := 1060 |} in
  (auth_authenticate (Some "mallory") (Some "guess") (Some example_config)
     (Some st) example_env example_globals).1 = (KIA_ERROR_AUTH, Some st).
Proof.
  intros st.
  apply (auth_authenticate_locked_out_state_unchanged
           (Some "mallory") (Some "guess") (Some example_config) st
           example_env example_globals); cbn; lia.
Defined.

(** C7, as the spec has it, fails on an empty identity: from a state
    that tracks "alice" with two failures, an attempt with the empty
    identity is handed to the provider and rewrites the tracked identity
    and the counter. *)
Lemma auth_authenticate_empty_identity_counterexample :
  let st := {| username := "alice"; failed_attempts := 2;
               lockout_until := 0 |} in
  let run := auth_authenticate (Some "") (Some "secret")
               (Some example_config) (Some st) example_env example_globals in
  provider_calls (g_trace run.2)
    = [EvPamStart "kia" "" 0; EvPamAuthenticate "" "secret" 7; EvPamEnd ""] /\
  run.1.2 = Some {| username := ""; failed_attempts := 1;
                    lockout_until := 0 |} /\
  ~ (provider_calls (g_trace run.2) = provider_calls (g_trace example_globals)
     /\ run.1.2 = Some st).
Proof.
  vm_compute. repeat split. intros [H _]. discriminate H.
Qed.

(** C7, amended.  When the identity, the secret, the configuration or
    the state is missing (a NULL pointer), [auth_authenticate] returns
    [KIA_ERROR_AUTH] at once: the state is the one passed in, no
    reading of the clock is taken with [time(NULL)], and the only
    external call is the log entry, so the identity provider is not
    contacted. *)
Theorem auth_authenticate_missing_argument
    (user password : option string) (config : option kia_config_t)
    (state : option auth_state_t) e g :
  user = None \/ password = None \/ config = None \/ state = None ->
  let run := auth_authenticate user password config state e g in
  run.1 = (KIA_ERROR_AUTH, state) /\
  g_trace run.2
    = (g_trace g ++
       [EvLog LOG_ERROR "Invalid parameters to auth_authenticate"])%list /\
  provider_calls (g_trace run.2) = provider_calls (g_trace g) /\
  g_ticks run.2 = g_ticks g.
Proof.
  intros Hmissing run.
  assert (Hrun :
    run
    = ((KIA_ERROR_AUTH, state),
       {| g_ticks := g_ticks g; g_tty_fd := g_tty_fd g;
          g_pam_handle := g_pam_handle g; g_screen := g_screen g;
          g_input := g_input g;
          g_trace := g_trace g ++
            [EvLog LOG_ERROR "Invalid parameters to auth_authenticate"] |})).
  { subst run.
    destruct user, password, config, state; try reflexivity;
      destruct Hmissing as [H|[H|[H|H]]]; discriminate H. }
  rewrite Hrun. cbn. repeat split.
  unfold provider_calls. rewrite List.filter_app, app_nil_r. reflexivity.
Qed.

(** C7 (amended) with the secret missing. *)
Lemma auth_authenticate_missing_argument_witness :
  let st := {| username := "alice"; failed_attempts := 2;
               lockout_until := 0 |} in
  let run := auth_authenticate (Some "alice") None (Some example_config)
               (Some st) example_env example_globals in
  run.1 = (KIA_ERROR_AUTH, Some st) /\
  g_trace run.2
    = (g_trace example_globals ++
       [EvLog LOG_ERROR "Invalid parameters to auth_authenticate"])%list /\
  provider_calls (g_trace run.2) = provider_calls (g_trace example_globals) /\
  g_ticks run.2 = g_ticks example_globals.
Proof.
  intros st.
  apply (auth_authenticate_missing_argument (Some "alice") None
           (Some example_config) (Some st) example_env example_globals).
  right. left. reflexivity.
Defined.

(** One step of the symbolic run of [auth_authenticate]: resolve a call
    of [tty_lock] or [tty_unlock] by its frame lemma, or split on the
    next test. *)
Ltac auth_step :=
  first
    [ match goal with
      | |- context [tty_lock ?e ?g] =>
          let H := fresh in
          destruct (tty_lock_run e g) as (? & ? & ? & H & ? & ?);
          rewrite H; clear H
      end
    | match goal with
      | |- context [tty_unlock ?e ?g] =>
          let H := fresh in
          destruct (tty_unlock_run e g) as (? & ? & H & ? & ?);
          rewrite H; clear H
      end
    | match goal with
      | |- context [if ?c then _ else _] =>
          lazymatch c with
          | context [if _ then _ else _] => fail
          | context [tty_lock] => fail
          | context [tty_unlock] => fail
          | _ => destruct c eqn:?
          end
      end ];
  cbn -[tty_lock tty_unlock int_wrap time_wrap strcmp] in *.

Ltac auth_run :=
  unfold auth_authenticate, auth_is_locked_out_at, auth_reset_attempts;
  unfold_M; cbn -[tty_lock tty_unlock int_wrap time_wrap strcmp] in *;
  repeat auth_step.

(** C3.  When no lockout is active and the provider turns the attempt
    down, at the credential check or at the account check,
    [auth_authenticate] returns [KIA_ERROR_AUTH] and leaves
    [failed_attempts] one above the counter the attempt was evaluated
    on: the stored counter, or 0 when the identity changed or a lockout
    had just expired; if the new value equals [max_attempts],
    [lockout_until] is the clock reading taken then plus
    [lockout_duration].  (The counter is an [int] below [INT_MAX] and the
    sum fits [time_t]: outside of that C leaves the arithmetic
    undefined.) *)
Theorem auth_authenticate_rejection_counts
    (user password : string) (config : kia_config_t) st e g :
  let now := env_time e (g_ticks g) in
  let at_threshold :=
    env_time e (if lockout_until st =? 0 then g_ticks g else S (g_ticks g)) in
  lockout_until st = 0 \/ lockout_until st <= now ->
  provider_rejects e user password = true ->
  INT_MIN <= failed_attempts st < INT_MAX ->
  TIME_MIN <= at_threshold + lockout_duration config <= TIME_MAX ->
  exists st',
    (auth_authenticate (Some user) (Some password) (Some config) (Some st) e g).1
      = (KIA_ERROR_AUTH, Some st') /\
    (lockout_until st = 0 -> username st = user ->
     failed_attempts st' = failed_attempts st + 1) /\
    (lockout_until st <> 0 \/ username st <> user ->
     failed_attempts st' = 0 + 1) /\
    (failed_attempts st' = max_attempts config ->
     lockout_until st' = at_threshold + lockout_duration config).
Proof.
  intros now at_threshold Hfree Hrej Hint Htime.
  subst now at_threshold.
  unfold provider_rejects in *.
  auth_run;
    Zbool; try discriminate; try lia;
    repeat match goal with
           | H : strcmp _ _ = 0 |- _ => apply strcmp_zero in H
           | H : strcmp _ _ <> 0 |- _ => rewrite strcmp_zero in H
           end;
    eexists; (split; [reflexivity|]); cbn;
    rewrite ?int_wrap_id in * by (unfold INT_MIN, INT_MAX in *; lia);
    rewrite ?time_wrap_id by lia;
    repeat split; intros; try reflexivity; try lia; try congruence;
    intuition (try congruence; try lia).
Qed.

(** C3 on the spec's threshold example: [max_attempts = 3],
    [lockout_duration = 60], two failures on record for "alice"; a third
    wrong secret at time 1000 makes the counter 3 and sets the lockout
    to 1060. *)
Lemma auth_authenticate_rejection_counts_witness :
  exists st',
    (auth_authenticate (Some "alice") (Some "wrong") (Some example_config)
       (Some {| username := "alice"; failed_attempts := 2;
                lockout_until := 0 |})
       example_env example_globals).1 = (KIA_ERROR_AUTH, Some st') /\
    failed_attempts st' = 3 /\ lockout_until st' = 1060.
Proof.
  destruct (auth_authenticate_rejection_counts "alice" "wrong" example_config
              {| username := "alice"; failed_attempts := 2; lockout_until := 0 |}
              example_env example_globals)
    as (st' & Hrun & Hsame & _ & Hlock).
  - left. reflexivity.
  - reflexivity.
  - vm_compute. split; [discriminate | reflexivity].
  - vm_compute. split; discriminate.
  - exists st'. split; [exact Hrun|].
    assert (Hcount : failed_attempts st' = 3)
      by (apply Hsame; reflexivity).
    split; [exact Hcount|]. apply Hlock. exact Hcount.
Defined.

(** C4.  When no lockout is active and the requested identity differs
    from the tracked one, the state [auth_authenticate] leaves tracks
    the requested identity (as the 256-byte field holds it: its first
    255 bytes, which is all of it for an identity that fits) and its
    counter has restarted from 0 before the attempt was evaluated: it is
    1 if the provider turned the attempt down and 0 otherwise, whatever
    the counter was. *)
Theorem auth_authenticate_identity_switch
    (user password : string) (config : kia_config_t) st e g :
  let now := env_time e (g_ticks g) in
  lockout_until st = 0 \/ lockout_until st <= now ->
  username st <> user ->
  exists r st',
    (auth_authenticate (Some user) (Some password) (Some config) (Some st) e g).1
      = (r, Some st') /\
    username st' = strncpy user 255 /\
    ((String.length user <= 255)%nat -> username st' = user) /\
    failed_attempts st' = (if provider_rejects e user password then 1 else 0).
Proof.
  intros now Hfree Hother. subst now.
  assert (Hcmp : (strcmp (username st) user =? 0) = false).
  { destruct (strcmp (username st) user =? 0) eqn:Hc; [|reflexivity].
    apply strcmp_eq in Hc. contradiction. }
  unfold provider_rejects.
  auth_run; Zbool; try discriminate; try lia;
    eexists _, _; (split; [reflexivity|]); cbn;
    (split; [reflexivity|]);
    (split; [intros Hlen; apply strncpy_fits, Hlen|]);
    reflexivity.
Qed.

(** C4 on the spec's example: from (identity "userA", two failures),
    one failed attempt for "userB" leaves (identity "userB", one
    failure). *)
Lemma auth_authenticate_identity_switch_witness :
  exists r st',
    (auth_authenticate (Some "userB") (Some "wrong") (Some example_config)
       (Some {| username := "userA"; failed_attempts := 2;
                lockout_until := 0 |})
       example_env example_globals).1 = (r, Some st') /\
    username st' = "userB" /\ failed_attempts st' = 1.
Proof.
  destruct (auth_authenticate_identity_switch "userB" "wrong" example_config
              {| username := "userA"; failed_attempts := 2; lockout_until := 0 |}
              example_env example_globals)
    as (r & st' & Hrun & _ & Hname & Hcount).
  - left. reflexivity.
  - discriminate.
  - exists r, st'. split; [exact Hrun|]. split.
    + apply Hname. cbn. lia.
    + exact Hcount.
Defined.

Lemma config_validate_ranges (config : kia_config_t) :
  config_validate (Some config) = KIA_SUCCESS ->
  1 <= max_attempts config <= 10 /\ 0 <= lockout_duration config.
Proof.
  unfold config_validate, MIN_MAX_ATTEMPTS, MAX_MAX_ATTEMPTS.
  destruct (max_attempts config <? 1) eqn:?;
    destruct (max_attempts config >? 10) eqn:?;
    destruct (lockout_duration config <? 0) eqn:?; cbn;
    try discriminate; Zbool; intros _; lia.
Qed.

Lemma lockout_invariant_mono config g g' st :
  (forall t, In (EvTime t) (g_trace g) -> In (EvTime t) (g_trace g')) ->
  lockout_invariant config g st -> lockout_invariant config g' st.
Proof.
  intros Hmono (Hrange & Hset & Hunset).
  split; [exact Hrange|]. split; [|exact Hunset].
  intros Hne. destruct (Hset Hne) as (Hmax & t & Hin & Hlu).
  split; [exact Hmax|]. exists t. split; [apply Hmono, Hin | exact Hlu].
Qed.

Lemma lockout_invariant_cleared config g name :
  1 <= max_attempts config ->
  lockout_invariant config g
    {| username := name; failed_attempts := 0; lockout_until := 0 |}.
Proof.
  intros Hmax. unfold lockout_invariant; cbn.
  repeat split; intros; try lia; try contradiction.
Qed.

(** The state a counted failure leaves below the threshold. *)
Lemma lockout_invariant_below config g name attempts until :
  1 <= max_attempts config <= 10 ->
  0 <= attempts <= max_attempts config ->
  (int_wrap (attempts + 1) >=? max_attempts config) = false ->
  until = 0 ->
  lockout_invariant config g
    {| username := name; failed_attempts := int_wrap (attempts + 1);
       lockout_until := until |}.
Proof.
  intros Hmax Hatt Hth ->. revert Hth.
  rewrite int_wrap_id by (unfold INT_MIN, INT_MAX; lia).
  intros Hth. Zbool.
  unfold lockout_invariant; cbn.
  repeat split; intros; try lia; try contradiction.
Qed.

(** The state a counted failure leaves at the threshold. *)
Lemma lockout_invariant_threshold config g name attempts t :
  1 <= max_attempts config <= 10 ->
  0 <= lockout_duration config <= INT_MAX ->
  0 <= attempts < max_attempts config ->
  (int_wrap (attempts + 1) >=? max_attempts config) = true ->
  0 < t < 2 ^ 62 ->
  In (EvTime t) (g_trace g) ->
  lockout_invariant config g
    {| username := name; failed_attempts := int_wrap (attempts + 1);
       lockout_until := time_wrap (t + lockout_duration config) |}.
Proof.
  intros Hmax Hdur Hatt Hth Ht Hin. revert Hth.
  unfold INT_MAX in Hdur.
  rewrite int_wrap_id by (unfold INT_MIN, INT_MAX; lia).
  rewrite time_wrap_id by (unfold TIME_MIN, TIME_MAX; lia).
  intros Hth. Zbool.
  unfold lockout_invariant; cbn.
  split; [lia|]. split; [|intros; lia].
  intros _. split; [lia|]. exists t. split; [exact Hin | reflexivity].
Qed.

(** The trace only grows. *)
Lemma auth_is_locked_out_trace_mono state e g ev :
  In ev (g_trace g) -> In ev (g_trace (auth_is_locked_out state e g).2).
Proof.
  unfold auth_is_locked_out, auth_is_locked_out_at. unfold_M.
  destruct state as [st|]; cbn; [|tauto].
  destruct (lockout_until st =? 0); cbn; [tauto|].
  destruct (env_time e (g_ticks g) >=? lockout_until st); cbn;
    intros Hin; solve_in.
Qed.

Lemma auth_authenticate_trace_mono
    (user password : option string) config state e g ev :
  In ev (g_trace g) ->
  In ev (g_trace (auth_authenticate user password config state e g).2).
Proof.
  intros Hin.
  destruct user as [user|], password as [password|], config as [config|],
    state as [st|]; auth_run; solve_in.
Qed.

Lemma auth_is_locked_out_preserves config st e g :
  1 <= max_attempts config ->
  lockout_invariant config g st ->
  exists b st' g',
    auth_is_locked_out (Some st) e g = ((b, Some st'), g') /\
    lockout_invariant config g' st'.
Proof.
  intros Hmax Hinv.
  unfold auth_is_locked_out, auth_is_locked_out_at. unfold_M. cbn.
  destruct (lockout_until st =? 0) eqn:Hz; cbn;
    [|destruct (env_time e (g_ticks g) >=? lockout_until st) eqn:Hge; cbn];
    eexists _, _, _; (split; [reflexivity|]).
  - exact Hinv.
  - apply lockout_invariant_cleared, Hmax.
  - revert Hinv. apply lockout_invariant_mono. cbn. intros t Hin. solve_in.
Qed.

Lemma auth_authenticate_preserves
    (user password : option string) config st e g :
  config_validate (Some config) = KIA_SUCCESS ->
  is_int (lockout_duration config) ->
  clock_after_epoch
    (auth_authenticate user password (Some config) (Some st) e g).2 ->
  lockout_invariant config g st ->
  exists r st' g',
    auth_authenticate user password (Some config) (Some st) e g
      = ((r, Some st'), g') /\
    lockout_invariant config g' st'.
Proof.
  intros Hvalid Hdur Hclock Hinv.
  apply config_validate_ranges in Hvalid. destruct Hvalid as [Hmax Hdur0].
  assert (Hdur' : 0 <= lockout_duration config <= INT_MAX)
    by (destruct Hdur; lia).
  assert (Hmax1 : 1 <= max_attempts config) by lia.
  destruct user as [user|], password as [password|];
    try (eexists _, _, _; split; [reflexivity|]; revert Hinv;
         apply lockout_invariant_mono; cbn; intros t Hin; solve_in).
  pose proof Hinv as (Hrange & Hset & Hunset).
  assert (Hzero : lockout_until st = 0 ->
                  0 <= failed_attempts st < max_attempts config)
    by (intros Hz; specialize (Hunset Hz); lia).
  unfold clock_after_epoch in Hclock. revert Hclock.
  auth_run; intros Hclock;
    eexists _, _, _; (split; [reflexivity|]);
    first
      [ apply lockout_invariant_cleared, Hmax1
      | revert Hinv; apply lockout_invariant_mono; cbn; intros t Hin; solve_in
      | eapply lockout_invariant_below;
        [ exact Hmax
        | first [lia | apply Z.eqb_eq in Heqb; specialize (Hzero Heqb); lia]
        | eassumption
        | first [reflexivity | apply Z.eqb_eq; assumption] ]
      | eapply lockout_invariant_threshold;
        [ exact Hmax | exact Hdur'
        | first [lia | apply Z.eqb_eq in Heqb; exact (Hzero Heqb)]
        | eassumption
        | apply Hclock; solve_in
        | cbn; solve_in ] ].
Qed.

(** C6.  Under a configuration that [config_validate] accepts, every
    authentication state reached from the zero-initialized one by calls
    of [auth_authenticate], [auth_is_locked_out] and
    [auth_reset_attempts] has [0 <= failed_attempts <= max_attempts];
    when its [lockout_until] is nonzero the counter stands at
    [max_attempts] and [lockout_until] is a clock reading of the run
    plus [lockout_duration]; and without a lockout the counter is below
    [max_attempts].  The clock of the run reads times after the epoch. *)
Theorem auth_reachable_invariant (config : kia_config_t) g st :
  config_validate (Some config) = KIA_SUCCESS ->
  is_int (lockout_duration config) ->
  auth_reachable config g st ->
  clock_after_epoch g ->
  0 <= failed_attempts st <= max_attempts config /\
  (lockout_until st <> 0 ->
   failed_attempts st = max_attempts config /\
   exists t, In (EvTime t) (g_trace g) /\
             lockout_until st = t + lockout_duration config) /\
  (lockout_until st = 0 -> failed_attempts st < max_attempts config).
Proof.
  intros Hvalid Hdur Hreach.
  change (clock_after_epoch g -> lockout_invariant config g st).
  induction Hreach as
    [ g
    | g st user password e r st' g' Hreach IH Hrun
    | g st e b st' g' Hreach IH Hrun
    | g st st' Hreach IH Hreset ]; intros Hclock.
  - pose proof (config_validate_ranges config Hvalid).
    apply lockout_invariant_cleared. lia.
  - assert (Hbefore : clock_after_epoch g).
    { intros t Hin. apply Hclock.
      pose proof (auth_authenticate_trace_mono user password (Some config)
                    (Some st) e g (EvTime t) Hin) as Hmono.
      rewrite Hrun in Hmono. exact Hmono. }
    destruct (auth_authenticate_preserves user password config st e g
                Hvalid Hdur) as (r0 & st0 & g0 & Hrun0 & Hinv).
    + rewrite Hrun. exact Hclock.
    + exact (IH Hbefore).
    + rewrite Hrun in Hrun0. injection Hrun0 as -> -> ->. exact Hinv.
  - assert (Hbefore : clock_after_epoch g).
    { intros t Hin. apply Hclock.
      pose proof (auth_is_locked_out_trace_mono (Some st) e g (EvTime t) Hin)
        as Hmono.
      rewrite Hrun in Hmono. exact Hmono. }
    pose proof (config_validate_ranges config Hvalid) as [Hmax _].
    destruct (auth_is_locked_out_preserves config st e g
                ltac:(lia) (IH Hbefore)) as (b0 & st0 & g0 & Hrun0 & Hinv).
    rewrite Hrun in Hrun0. injection Hrun0 as -> -> ->. exact Hinv.
  - pose proof (config_validate_ranges config Hvalid).
    cbn in Hreset. injection Hreset as <-.
    apply lockout_invariant_cleared. lia.
Qed.

(** C6 on the spec's end-to-end run: [max_attempts = 3],
    [lockout_duration = 60]; three wrong secrets for "alice" at time
    1000 reach the state with three failures, locked until 1060. *)
Lemma auth_reachable_invariant_witness :
  let attempt st g :=
    auth_authenticate (Some "alice") (Some "wrong") (Some example_config)
      (Some st) example_env g in
  let g1 := (attempt auth_state_zero example_globals).2 in
  let g2 := (attempt {| username := "alice"; failed_attempts := 1;
                        lockout_until := 0 |} g1).2 in
  let g3 := (attempt {| username := "alice"; failed_attempts := 2;
                        lockout_until := 0 |} g2).2 in
  auth_reachable example_config g3
    {| username := "alice"; failed_attempts := 3; lockout_until := 1060 |} /\
  0 <= 3 <= 3 /\
  (1060 <> 0 ->
   3 = 3 /\ exists t, In (EvTime t) (g_trace g3) /\ 1060 = t + 60) /\
  (1060 = 0 -> 3 < 3).
Proof.
  intros attempt g1 g2 g3.
  assert (Hreach :
    auth_reachable example_config g3
      {| username := "alice"; failed_attempts := 3; lockout_until := 1060 |}).
  { apply (reach_authenticate example_config g2
             {| username := "alice"; failed_attempts := 2; lockout_until := 0 |}
             (Some "alice") (Some "wrong") example_env KIA_ERROR_AUTH);
      [|vm_compute; reflexivity].
    apply (reach_authenticate example_config g1
             {| username := "alice"; failed_attempts := 1; lockout_until := 0 |}
             (Some "alice") (Some "wrong") example_env KIA_ERROR_AUTH);
      [|vm_compute; reflexivity].
    apply (reach_authenticate example_config example_globals auth_state_zero
             (Some "alice") (Some "wrong") example_env KIA_ERROR_AUTH);
      [|vm_compute; reflexivity].
    apply reach_zero. }
  split; [exact Hreach|].
  apply (auth_reachable_invariant example_config g3
           {| username := "alice"; failed_attempts := 3;
              lockout_until := 1060 |}).
  - reflexivity.
  - unfold is_int, INT_MIN, INT_MAX. cbn. lia.
  - exact Hreach.
  - intros t Hin. vm_compute in Hin.
    repeat (destruct Hin as [Hin|Hin];
            [first [discriminate Hin | injection Hin as <-; lia]|]).
    destruct Hin.
Defined.

(** Why the clock of C6 reads after the epoch: at a reading of
    0 with [lockout_duration = 0] the threshold stores 0, which reads as
    no lockout, and the next failure takes the counter past
    [max_attempts]. *)
Remark auth_counter_under_a_clock_at_the_epoch :
  let config := {| autologin_user := ""; autologin_enabled := false;
                   default_session := "xfce"; max_attempts := 1;
                   enable_logs := true; lockout_duration := 0 |} in
  let e := {| env_time := fun _ => 0; env_open_tty := 3;
              env_ioctl := fun _ => 0; env_pam_start := fun _ => 0;
              env_pam_authenticate := fun _ _ => 7;
              env_pam_acct_mgmt := fun _ => 0 |} in
  let first := auth_authenticate (Some "alice") (Some "wrong") (Some config)
                 (Some auth_state_zero) e example_globals in
  let second := auth_authenticate (Some "alice") (Some "wrong") (Some config)
                  first.1.2 e first.2 in
  first.1.2 = Some {| username := "alice"; failed_attempts := 1;
                      lockout_until := 0 |} /\
  second.1.2 = Some {| username := "alice"; failed_attempts := 2;
                       lockout_until := 0 |}.
Proof. vm_compute. split; reflexivity. Qed.

(** The identity field holds 255 bytes: a longer identity is tracked by
    its first 255 bytes, differs from them at the next attempt and starts
    from 0 again. *)
Remark auth_authenticate_long_identity :
  let user := string_of_list_ascii (repeat "a"%char 256) in
  let first := auth_authenticate (Some user) (Some "wrong")
                 (Some example_config) (Some auth_state_zero)
                 example_env example_globals in
  let second := auth_authenticate (Some user) (Some "wrong")
                  (Some example_config) first.1.2 example_env first.2 in
  (failed_attempts <$> first.1.2) = Some 1 /\
  (failed_attempts <$> second.1.2) = Some 1 /\
  (username <$> second.1.2)
    = Some (string_of_list_ascii (repeat "a"%char 255)).
Proof. vm_compute. repeat split. Qed.

End AuthLockout.

Section SessionLaunch.

Ltac child_step :=
  first
    [ match goal with
      | H : k_setgid _ _ _ = _ |- _ => rewrite H
      | H : k_setuid _ _ _ = _ |- _ => rewrite H
      end
    | match goal with
      | |- context [if ?c then _ else _] =>
          lazymatch c with
          | context [if _ then _ else _] => fail
          | _ => destruct c eqn:?
          end
      end ];
  cbn.

Ltac no_exec :=
  intros (? & ? & ? & Hin); cbn in Hin;
  rewrite ?in_app_iff in Hin; cbn in Hin;
  intuition discriminate.

(** C1.  The child of [session_start], started with any identity and
    on any kernel, reaches a call of [execlp] only if the identity it
    has after [setgid] and [setuid] equals the account's in all four
    values (real and effective uid, real and effective gid), and then
    the first [execlp] comes after the two successful drop calls,
    group first; if any of the four values differs, the child ends with
    [exit(EXIT_FAILURE)] and no [execlp] is called. *)
Theorem session_start_child_verifies_identity
    (session : session_info_t) (user home shell : string) (pw : passwd)
    (kr : kernel) (c : creds) :
  let out := run_child (session_start_child session user home shell pw) kr
               {| p_creds := c; p_trace := [] |} in
  let dropped := creds_after_drop kr pw c in
  (exec_reached (p_trace out.2) ->
     creds_match pw dropped /\ p_creds out.2 = dropped /\
     exists before after,
       p_trace out.2
       = (before ++ [SysSetgid (pw_gid pw) 0; SysSetuid (pw_uid pw) 0]
          ++ after)%list /\
       ~ exec_reached before) /\
  (~ creds_match pw dropped ->
     out.1 = Exited EXIT_FAILURE /\ ~ exec_reached (p_trace out.2)) /\
  (forall file argv, out.1 = Replaced file argv ->
     exec_reached (p_trace out.2)).
Proof.
  unfold run_child, session_start_child, creds_after_drop, creds_match,
    setenv, chdir, setgid, setuid, getuid, geteuid, getgid, getegid, execlp,
    child_log, sys_emit, exit.
  unfold mbind, mret, Child_bind, Child_ret. cbn.
  destruct (k_setgid kr (pw_gid pw) c) as [rg cg] eqn:Hsetgid; cbn.
  destruct (k_setuid kr (pw_uid pw) cg) as [ru cu] eqn:Hsetuid; cbn.
  destruct (type session); cbn.
  all: repeat child_step.
  all: Zbool.
  all: split; [|split].
  all: try (intros Hexec; exfalso; revert Hexec; no_exec).
  all: try (intros _; split; [reflexivity | no_exec]).
  all: try (intros file argv Hend; discriminate Hend).
  all: try (intros file argv Hend; eexists _, _, _; solve_in).
  all: try (intros Hbad; exfalso; apply Hbad; cbn; repeat split; lia).
  all: intros Hexec; (split; [cbn; repeat split; lia|]);
    (split; [reflexivity|]).
  all: subst.
  all: match goal with
       | |- exists before after, ?l = _ /\ _ =>
           match l with
           | context [SysSetgid _ _ :: SysSetuid _ _ :: ?rest] =>
               exists (take 7 l), rest
           end
       end; cbn; split; [reflexivity | no_exec].
Qed.

(** The launch on a kernel that does as told: the child becomes the
    session, as uid and gid 1000. *)
Example session_start_child_launches :
  run_child (session_start_child example_session "alice" "/home/alice"
               "/bin/bash" example_passwd)
    example_kernel {| p_creds := root_creds; p_trace := [] |}
  = (Replaced "startx" ["startx"; "startxfce4"],
     {| p_creds := {| ruid := 1000; euid := 1000; rgid := 1000; egid := 1000 |};
        p_trace :=
          [SysSetenv "HOME" "/home/alice" 0; SysSetenv "USER" "alice" 0;
           SysSetenv "LOGNAME" "alice" 0; SysSetenv "SHELL" "/bin/bash" 0;
           SysSetenv "XDG_SESSION_TYPE" "x11" 0; SysSetenv "DISPLAY" ":0" 0;
           SysChdir "/home/alice" 0; SysSetgid 1000 0; SysSetuid 1000 0;
           SysExeclp "startx" ["startx"; "startxfce4"] true] |}).
Proof. vm_compute. reflexivity. Qed.

(** An injected verification failure: [setuid] reports success and does
    nothing; the child logs and exits, and nothing is executed. *)
Example session_start_child_injected_failure :
  run_child (session_start_child example_session "alice" "/home/alice"
               "/bin/bash" example_passwd)
    example_kernel_silent_setuid {| p_creds := root_creds; p_trace := [] |}
  = (Exited EXIT_FAILURE,
     {| p_creds := {| ruid := 0; euid := 0; rgid := 1000; egid := 1000 |};
        p_trace :=
          [SysSetenv "HOME" "/home/alice" 0; SysSetenv "USER" "alice" 0;
           SysSetenv "LOGNAME" "alice" 0; SysSetenv "SHELL" "/bin/bash" 0;
           SysSetenv "XDG_SESSION_TYPE" "x11" 0; SysSetenv "DISPLAY" ":0" 0;
           SysChdir "/home/alice" 0; SysSetgid 1000 0; SysSetuid 1000 0;
           SysLog LOG_ERROR
             "Failed to drop privileges properly (uid=%d/%d, gid=%d/%d)"] |}).
Proof. vm_compute. reflexivity. Qed.

End SessionLaunch.

Section ConfigLoad.

Implicit Types (config : kia_config_t) (line : string).

Lemma config_set_defaults_in_range config :
  config_in_range (config_set_defaults config).
Proof.
  unfold config_in_range, config_set_defaults, DEFAULT_MAX_ATTEMPTS,
    DEFAULT_LOCKOUT_DURATION; cbn. lia.
Qed.

(** A rejected line stores nothing. *)
Lemma parse_config_line_rejected line config :
  (parse_config_line line config).1 <> KIA_SUCCESS ->
  (parse_config_line line config).2 = config.
Proof.
  unfold parse_config_line.
  repeat (match goal with
          | |- context [if ?c then _ else _] => destruct c
          | |- context [match ?x with Some _ => _ | None => _ end] => destruct x
          | |- context [let '(_, _) := ?x in _] => destruct x
          end; cbn);
    intros H; try reflexivity; exfalso; apply H; reflexivity.
Qed.

(** A line stores into [max_attempts] or [lockout_duration] only a
    value of the validated range. *)
Lemma parse_config_line_stores_in_range line config :
  let config' := (parse_config_line line config).2 in
  (max_attempts config' = max_attempts config \/
   1 <= max_attempts config' <= 10) /\
  (lockout_duration config' = lockout_duration config \/
   0 <= lockout_duration config' <= 3600).
Proof.
  unfold parse_config_line.
  repeat (match goal with
          | |- context [if ?c then _ else _] => destruct c eqn:?
          | |- context [match ?x with Some _ => _ | None => _ end] => destruct x
          | |- context [let '(_, _) := ?x in _] => destruct x
          end; cbn);
    try (split; left; reflexivity);
    unfold MIN_MAX_ATTEMPTS, MAX_MAX_ATTEMPTS in *; Zbool;
    split; (try (left; reflexivity)); right; lia.
Qed.

(** Whatever a line says, it keeps both fields in range. *)
Lemma parse_config_line_in_range line config :
  config_in_range config ->
  config_in_range (parse_config_line line config).2.
Proof.
  intros [Hmax Hdur].
  destruct (parse_config_line_stores_in_range line config) as [Hm Hd].
  split.
  - destruct Hm as [-> | Hm]; assumption.
  - destruct Hd as [-> | Hd]; assumption.
Qed.

Lemma config_validate_in_range config :
  config_in_range config -> config_validate (Some config) = KIA_SUCCESS.
Proof.
  intros [Hmax Hdur].
  unfold config_validate, MIN_MAX_ATTEMPTS, MAX_MAX_ATTEMPTS.
  destruct (max_attempts config <? 1) eqn:?;
    destruct (max_attempts config >? 10) eqn:?;
    destruct (lockout_duration config <? 0) eqn:?; cbn;
    Zbool; try reflexivity; lia.
Qed.

Lemma config_read_lines_in_range fuel stream fails config has_error :
  config_in_range config ->
  config_in_range (config_read_lines fuel stream fails config has_error).1.
Proof.
  revert stream config has_error.
  induction fuel as [|fuel IH]; intros stream config has_error Hr;
    cbn -[fgets_chars]; [exact Hr|].
  destruct (fgets_chars 1023 stream) as [[buf rest] hit_end].
  destruct (hit_end && fails); [exact Hr|].
  destruct buf as [|c buf]; [exact Hr|].
  destruct (_ && _ && _).
  - apply IH, Hr.
  - destruct (parse_config_line _ config) as [r config'] eqn:Hline.
    apply IH.
    change config' with (r, config').2. rewrite <- Hline.
    apply parse_config_line_in_range, Hr.
Qed.

(** [fgets] splits the stream: nothing is lost, and a returned line
    takes at least one byte. *)
Lemma fgets_chars_length n stream :
  String.length stream
  = (String.length (fgets_chars n stream).1.1
     + String.length (fgets_chars n stream).1.2)%nat.
Proof.
  revert stream. induction n as [|n IH]; intros [|c stream]; cbn;
    try reflexivity.
  destruct (Ascii.eqb c newline); cbn; [reflexivity|].
  specialize (IH stream).
  destruct (fgets_chars n stream) as [[l r] hit]; cbn in *. lia.
Qed.

Lemma skip_to_end_of_line_length stream :
  (String.length (skip_to_end_of_line stream) <= String.length stream)%nat.
Proof.
  induction stream as [|c stream IH]; cbn; [lia|].
  destruct (Ascii.eqb c newline); lia.
Qed.

(** Any fuel above the length of the stream gives the same result: the
    loop always runs to the end of the file. *)
Lemma config_read_lines_fuel fuel1 fuel2 stream fails config has_error :
  (String.length stream < fuel1)%nat ->
  (String.length stream < fuel2)%nat ->
  config_read_lines fuel1 stream fails config has_error
  = config_read_lines fuel2 stream fails config has_error.
Proof.
  revert fuel2 stream config has_error.
  induction fuel1 as [|fuel1 IH]; intros [|fuel2] stream config has_error H1 H2;
    try lia.
  cbn -[fgets_chars].
  pose proof (fgets_chars_length 1023 stream) as Hlen.
  destruct (fgets_chars 1023 stream) as [[buf rest] hit_end]; cbn in Hlen.
  destruct (hit_end && fails); [reflexivity|].
  destruct buf as [|c buf]; [reflexivity|]. cbn in Hlen.
  destruct (_ && _ && _).
  - pose proof (skip_to_end_of_line_length rest). apply IH; lia.
  - destruct (parse_config_line _ config) as [r config'].
    apply IH; lia.
Qed.

Lemma append_cons c (s t : string) :
  (String c s ++ t)%string = String c (s ++ t).
Proof. reflexivity. Qed.

Lemma append_nil (t : string) : ("" ++ t)%string = t.
Proof. reflexivity. Qed.

Lemma length_append (s t : string) :
  String.length (s ++ t) = (String.length s + String.length t)%nat.
Proof.
  induction s as [|c s IH]; rewrite ?append_cons, ?append_nil; cbn;
    [reflexivity | rewrite IH; reflexivity].
Qed.

(** How [fgets] and the steps after it see a line of text that ends in
    a newline. *)
Lemma fgets_chars_line n line rest :
  text_chars line = true ->
  (String.length line < n)%nat ->
  fgets_chars n (line ++ String newline rest)
  = ((line ++ String newline "")%string, rest, false).
Proof.
  revert n. induction line as [|c line IH]; intros [|n] Htext Hlen;
    rewrite ?append_cons, ?append_nil;
    cbn -[Ascii.eqb newline zero] in *; try lia.
  - reflexivity.
  - apply andb_true_iff in Htext as [Hc Htext].
    apply andb_true_iff in Hc as [Hnl _].
    apply negb_true_iff in Hnl. rewrite Hnl.
    rewrite IH by (assumption || lia). reflexivity.
Qed.

Lemma c_str_line line :
  text_chars line = true ->
  c_str (line ++ String newline "") = (line ++ String newline "")%string.
Proof.
  induction line as [|c line IH]; intros Htext;
    rewrite ?append_cons, ?append_nil;
    cbn -[Ascii.eqb newline zero] in *; [reflexivity|].
  apply andb_true_iff in Htext as [Hc Htext].
  apply andb_true_iff in Hc as [_ Hz].
  apply negb_true_iff in Hz. rewrite Hz, IH by assumption. reflexivity.
Qed.

Lemma last_char_line line :
  last_char (line ++ String newline "") = Some newline.
Proof.
  induction line as [|c line IH]; rewrite ?append_cons, ?append_nil;
    cbn -[newline]; [reflexivity|].
  destruct (line ++ String newline "")%string eqn:Happ; [|exact IH].
  destruct line; discriminate Happ.
Qed.



(** The cases of tests/test_config.c, run on the model. *)
Example test_valid_config_parsing :
  config_load
    (fun _ => Some {| f_bytes := unlines
                        ["autologin_enabled=true"; "autologin_user=testuser";
                         "default_session=gnome"; "max_attempts=5";
                         "enable_logs=false"; "lockout_duration=120"];
                      f_fails := false |})
    (Some "/tmp/kia_test") (Some example_config)
  = (KIA_SUCCESS,
     Some {| autologin_user := "testuser"; autologin_enabled := true;
             default_session := "gnome"; max_attempts := 5;
             enable_logs := false; lockout_duration := 120 |}).
Proof. vm_compute. reflexivity. Qed.

Example test_invalid_syntax :
  config_load
    (fun _ => Some {| f_bytes := unlines
                        ["autologin_enabled=true";
                         "invalid_line_without_equals"; "max_attempts=5"];
                      f_fails := false |})
    (Some "/tmp/kia_test") (Some example_config)
  = (KIA_ERROR_CONFIG,
     Some {| autologin_user := ""; autologin_enabled := true;
             default_session := "xfce"; max_attempts := 5;
             enable_logs := true; lockout_duration := 60 |}).
Proof. vm_compute. reflexivity. Qed.

Example test_max_attempts_boundary_invalid :
  config_load
    (fun _ => Some {| f_bytes := unlines ["max_attempts=11"];
                      f_fails := false |})
    (Some "/tmp/kia_test") (Some example_config)
  = (KIA_ERROR_CONFIG, Some (config_set_defaults example_config)).
Proof. vm_compute. reflexivity. Qed.

Example test_whitespace_handling :
  config_load
    (fun _ => Some {| f_bytes := unlines
                        ["  autologin_enabled  =  true  ";
                         "autologin_user=  testuser  "; "  max_attempts=5"];
                      f_fails := false |})
    (Some "/tmp/kia_test") (Some example_config)
  = (KIA_SUCCESS,
     Some {| autologin_user := "testuser"; autologin_enabled := true;
             default_session := "xfce"; max_attempts := 5;
             enable_logs := true; lockout_duration := 60 |}).
Proof. vm_compute. reflexivity. Qed.

Example test_comments_and_empty_lines :
  config_load
    (fun _ => Some {| f_bytes := unlines
                        ["# This is a comment"; ""; "autologin_enabled=true";
                         "  # Another comment with leading space"; "";
                         "max_attempts=7"; ""];
                      f_fails := false |})
    (Some "/tmp/kia_test") (Some example_config)
  = (KIA_SUCCESS,
     Some {| autologin_user := ""; autologin_enabled := true;
             default_session := "xfce"; max_attempts := 7;
             enable_logs := true; lockout_duration := 60 |}).
Proof. vm_compute. reflexivity. Qed.

(** Left open by C9 as amended: [atoi] reads text that is not a number as
    0, which [lockout_duration] accepts. *)
Remark config_load_reads_text_as_zero :
  config_load
    (fun _ => Some {| f_bytes := unlines ["lockout_duration=abc"];
                      f_fails := false |})
    (Some "/tmp/kia_test") (Some example_config)
  = (KIA_SUCCESS,
     Some {| autologin_user := ""; autologin_enabled := false;
             default_session := "xfce"; max_attempts := 3;
             enable_logs := true; lockout_duration := 0 |}).
Proof. vm_compute. reflexivity. Qed.



End ConfigLoad.

Section PendingSecret.

Implicit Types (buf : list ascii) (pos : Z).

Lemma secure_memzero_all buf n :
  List.length buf = n -> secure_memzero buf n = replicate n zero.
Proof.
  revert n. induction buf as [|c buf IH]; intros [|n] Hlen; cbn in *;
    try reflexivity; try discriminate.
  f_equal. apply IH. lia.
Qed.

Lemma memset0_all buf n :
  List.length buf = n -> memset0 buf n = replicate n zero.
Proof.
  intros <-. unfold memset0.
  rewrite Nat.min_id, drop_all, app_nil_r. reflexivity.
Qed.

Lemma secure_memzero_0 buf : secure_memzero buf 0 = buf.
Proof. destruct buf; reflexivity. Qed.

(** Clearing one byte at [p + n]. *)
Lemma secure_memzero_one buf (n : nat) :
  (take n buf ++ secure_memzero (drop n buf) 1)%list = <[n := zero]> buf.
Proof.
  revert n. induction buf as [|c buf IH]; intros [|n]; cbn; try reflexivity.
  - rewrite secure_memzero_0. reflexivity.
  - f_equal. apply IH.
Qed.

Lemma field_ok_zeroed buf : field_ok buf 0 -> zeroed buf.
Proof.
  intros (Hlen & _ & Hzero & _). unfold zeroed.
  apply list_eq. intros i.
  destruct (decide (i < 256)%nat) as [Hi|Hi].
  - rewrite Hzero by (cbn; lia).
    symmetry. apply lookup_replicate. split; [reflexivity | exact Hi].
  - rewrite !lookup_ge_None_2; [reflexivity | |];
      rewrite ?length_replicate, ?Hlen; lia.
Qed.

Lemma field_ok_clear : field_ok (replicate 256 zero) 0.
Proof.
  split; [apply length_replicate|]. split; [lia|]. split; [|lia].
  intros i Hi. apply lookup_replicate. split; [reflexivity | lia].
Qed.

(** [buf\[pos\] = '\0'] at the end of the typed text changes nothing. *)
Lemma field_ok_terminate buf pos :
  field_ok buf pos -> <[Z.to_nat pos := zero]> buf = buf.
Proof.
  intros (Hlen & Hpos & Hzero & _).
  apply list_insert_id, Hzero. lia.
Qed.

Lemma char_of_key_nonzero ch : 32 <= ch <= 126 -> char_of_key ch <> zero.
Proof.
  intros Hch Heq. unfold char_of_key in Heq.
  apply (f_equal N_of_ascii) in Heq.
  rewrite N_ascii_embedding in Heq by lia.
  cbn in Heq. lia.
Qed.

(** [buf\[pos++\] = c; buf\[pos\] = '\0'] *)
Lemma field_ok_type buf pos c :
  field_ok buf pos -> pos < 20 -> c <> zero ->
  field_ok (<[Z.to_nat (pos + 1) := zero]> (<[Z.to_nat pos := c]> buf))
    (pos + 1).
Proof.
  intros (Hlen & Hpos & Hzero & Hfirst) Hlt Hc.
  split; [rewrite !length_insert; exact Hlen|].
  split; [lia|]. split.
  - intros i Hi.
    destruct (decide (i = Z.to_nat (pos + 1))) as [->|Hne].
    + apply list_lookup_insert_eq. rewrite length_insert. lia.
    + rewrite list_lookup_insert_ne by congruence.
      rewrite list_lookup_insert_ne by lia.
      apply Hzero. lia.
  - intros _.
    rewrite list_lookup_insert_ne by lia.
    destruct (decide (pos = 0)) as [->|Hne].
    + rewrite list_lookup_insert_eq by (cbn; lia). congruence.
    + rewrite list_lookup_insert_ne by lia. apply Hfirst. lia.
Qed.

(** [pos--; buf\[pos\] = '\0'] *)
Lemma field_ok_backspace buf pos :
  field_ok buf pos -> 0 < pos ->
  field_ok (<[Z.to_nat (pos - 1) := zero]> buf) (pos - 1).
Proof.
  intros (Hlen & Hpos & Hzero & Hfirst) Hgt.
  split; [rewrite length_insert; exact Hlen|].
  split; [lia|]. split.
  - intros i Hi.
    destruct (decide (i = Z.to_nat (pos - 1))) as [->|Hne].
    + apply list_lookup_insert_eq. lia.
    + rewrite list_lookup_insert_ne by congruence. apply Hzero. lia.
  - intros Hgt'. rewrite list_lookup_insert_ne by lia. apply Hfirst. lia.
Qed.

Lemma field_ok_memset0 buf :
  List.length buf = 256%nat -> field_ok (memset0 buf (Z.to_nat 256)) 0.
Proof.
  intros Hlen. rewrite memset0_all by (rewrite Hlen; reflexivity).
  apply field_ok_clear.
Qed.

Lemma field_ok_secure_memzero buf :
  List.length buf = 256%nat ->
  field_ok (secure_memzero buf (Z.to_nat 256)) 0.
Proof.
  intros Hlen. rewrite secure_memzero_all by (rewrite Hlen; reflexivity).
  apply field_ok_clear.
Qed.

Ltac solve_field :=
  first
    [ assumption
    | apply field_ok_type; [assumption | lia | apply char_of_key_nonzero; lia]
    | apply field_ok_backspace; [assumption | lia]
    | rewrite secure_memzero_one; apply field_ok_backspace; [assumption | lia]
    | apply field_ok_memset0;
      match goal with H : field_ok ?b _ |- _ ?b = _ => exact (proj1 H) end
    | apply field_ok_secure_memzero;
      match goal with H : field_ok ?b _ |- _ ?b = _ => exact (proj1 H) end ].

(** When [tui_get_credentials]'s loop returns [KIA_SUCCESS], the
    identity field holds at least one character and both fields are
    well formed. *)
Lemma tui_get_credentials_loop_ok input :
  forall username password current_field username_pos password_pos
         r username' password' rest,
    field_ok username username_pos ->
    field_ok password password_pos ->
    tui_get_credentials_loop input 256 256 username password
      current_field username_pos password_pos
    = (r, username', password', rest) ->
    r = KIA_SUCCESS ->
    (exists pos, 0 < pos /\ field_ok username' pos) /\
    (exists pos, field_ok password' pos).
Proof.
  induction input as [|i input IH];
    intros username password current_field username_pos password_pos
           r username' password' rest Hu Hp Hrun Hr;
    cbn -[memset0 secure_memzero Z.to_nat] in Hrun.
  - injection Hrun as <- _ _ _. discriminate Hr.
  - repeat match type of Hrun with
           | context [if ?c then _ else _] => destruct c eqn:?
           end;
      Zbool;
      first
        [ injection Hrun as <- _ _ _; discriminate Hr
        | injection Hrun as _ <- <- _;
          rewrite (field_ok_terminate _ _ Hu), (field_ok_terminate _ _ Hp);
          split; eexists; [split; [|eassumption]; lia | eassumption]
        | refine (IH _ _ _ _ _ _ _ _ _ _ _ Hrun Hr); solve_field ].
Qed.

Ltac show_error_step :=
  match goal with
  | |- context [tui_show_error ?m ?e ?g] =>
      destruct (tui_show_error m e g) as [[] ?]
  end.

Ltac hcbn :=
  cbn -[memset0 secure_memzero replicate Z.to_nat tui_get_credentials_loop
        tui_show_error Nat.ltb].

Lemma nth_0_lookup buf : List.nth 0 buf zero = default zero (buf !! 0%nat).
Proof. destruct buf; reflexivity. Qed.

(** After [handle_authenticate] the pending secret is gone, on the
    locked-out path and after the call of [auth_authenticate] alike. *)
Lemma handle_authenticate_zeroes ctx e g :
  List.length (ctx_password ctx) = 256%nat ->
  zeroed (ctx_password (handle_authenticate ctx e g).1.2).
Proof.
  intros Hlen. unfold zeroed, handle_authenticate. unfold_M.
  cbn -[secure_memzero replicate auth_authenticate auth_is_locked_out
        tui_show_error].
  destruct (auth_is_locked_out _ e g) as [[locked st] g1].
  destruct locked.
  - cbn -[secure_memzero replicate tui_show_error].
    show_error_step.
    cbn -[secure_memzero replicate]. apply secure_memzero_all, Hlen.
  - cbn -[secure_memzero replicate auth_authenticate tui_show_error].
    match goal with
    | |- context [auth_authenticate ?u ?p ?c ?s ?e ?g] =>
        destruct (auth_authenticate u p c s e g) as [[result st'] g2]
    end.
    destruct (result =? KIA_SUCCESS);
      cbn -[secure_memzero replicate tui_show_error].
    + apply secure_memzero_all, Hlen.
    + show_error_step.
      cbn -[secure_memzero replicate]. apply secure_memzero_all, Hlen.
Qed.

(** A validation failure of [handle_get_credentials] (the handler
    returns [KIA_SUCCESS] and goes back to the login screen) leaves no
    secret behind. *)
Lemma handle_get_credentials_zeroes ctx e g :
  List.length (ctx_username ctx) = 256%nat ->
  List.length (ctx_password ctx) = 256%nat ->
  (handle_get_credentials ctx e g).1.1 = KIA_SUCCESS ->
  ctx_state (handle_get_credentials ctx e g).1.2 = STATE_SHOW_LOGIN ->
  zeroed (ctx_password (handle_get_credentials ctx e g).1.2).
Proof.
  intros Hulen Hplen.
  unfold handle_get_credentials, tui_get_credentials. unfold_M.
  hcbn.
  destruct (stdscr_ok (g_screen g));
    hcbn;
    [|show_error_step; cbn; discriminate].
  destruct ((max_y (g_screen g) <? 10) || (max_x (g_screen g) <? 50));
    hcbn;
    [show_error_step; cbn; discriminate|].
  destruct (tui_get_credentials_loop _ _ _ _ _ _ _ _)
    as [[[r u] p] rest] eqn:Hloop;
    hcbn.
  destruct (r =? KIA_SUCCESS) eqn:Hr;
    hcbn.
  2: { show_error_step; cbn.
       intros Hres. apply Z.eqb_neq in Hr. contradiction. }
  apply Z.eqb_eq in Hr.
  destruct (tui_get_credentials_loop_ok _ _ _ _ _ _ _ _ _ _
              (field_ok_memset0 _ Hulen) (field_ok_memset0 _ Hplen)
              Hloop Hr)
    as [(upos & Hupos & Hu) (ppos & Hp)].
  assert (Hfirst : Ascii.eqb (List.nth 0 u zero) zero = false).
  { apply Ascii.eqb_neq. rewrite nth_0_lookup.
    destruct Hu as (Hlen & _ & _ & Hnz). specialize (Hnz Hupos).
    destruct (u !! 0%nat) as [c|] eqn:Hc; cbn.
    - congruence.
    - apply lookup_ge_None in Hc. lia. }
  rewrite Hfirst.
  destruct (255 <? String.length (buf_str u))%nat eqn:Hlong;
    hcbn.
  { show_error_step. hcbn.
    intros _ _. apply secure_memzero_all. apply Hp. }
  destruct (Ascii.eqb (List.nth 0 p zero) zero) eqn:Hempty;
    hcbn.
  2: { intros _ Hstate. discriminate Hstate. }
  show_error_step. cbn. intros _ _.
  apply Ascii.eqb_eq in Hempty. rewrite nth_0_lookup in Hempty.
  apply field_ok_zeroed.
  destruct (decide (ppos = 0)) as [->|Hne]; [exact Hp|].
  destruct Hp as (Hlen & Hrange & _ & Hnz).
  exfalso. apply Hnz; [lia|].
  destruct (p !! 0%nat) as [c|] eqn:Hc; cbn in Hempty.
  - congruence.
  - apply lookup_ge_None in Hc. lia.
Qed.

(** The paths that do clear it.  With the two 256-byte credential
    arrays of the run context, the pending secret is all zeros when
    [handle_authenticate] returns, whether it found the lockout active
    or called [auth_authenticate] with whatever outcome, and when
    [handle_get_credentials] returns to the login screen after a
    validation failure (status [KIA_SUCCESS], next state
    [STATE_SHOW_LOGIN]). *)
Theorem pending_secret_zeroed ctx e g :
  List.length (ctx_username ctx) = 256%nat ->
  List.length (ctx_password ctx) = 256%nat ->
  zeroed (ctx_password (handle_authenticate ctx e g).1.2) /\
  ((handle_get_credentials ctx e g).1.1 = KIA_SUCCESS ->
   ctx_state (handle_get_credentials ctx e g).1.2 = STATE_SHOW_LOGIN ->
   zeroed (ctx_password (handle_get_credentials ctx e g).1.2)).
Proof.
  intros Hulen Hplen. split.
  - apply handle_authenticate_zeroes, Hplen.
  - apply handle_get_credentials_zeroes; assumption.
Qed.

(** On a context with the secret "hunter2" pending: it is gone after
    [handle_authenticate], and after a [handle_get_credentials] in
    which the user enters an identity and no secret. *)
Lemma pending_secret_zeroed_witness :
  let g := globals_init {| stdscr_ok := true; max_y := 24; max_x := 80 |}
             example_keys_no_secret in
  zeroed (ctx_password (handle_authenticate example_ctx example_env g).1.2) /\
  (handle_get_credentials example_ctx example_env g).1.1 = KIA_SUCCESS /\
  ctx_state (handle_get_credentials example_ctx example_env g).1.2
    = STATE_SHOW_LOGIN /\
  zeroed (ctx_password (handle_get_credentials example_ctx example_env g).1.2).
Proof.
  intros g.
  destruct (pending_secret_zeroed example_ctx example_env g)
    as [Hauth Hget]; [reflexivity | reflexivity |].
  split; [exact Hauth|].
  split; [reflexivity|]. split; [reflexivity|].
  apply Hget; reflexivity.
Defined.

(** A second path back to the login screen that does not clear it:
    when the read itself fails ([tui_get_credentials] does not return
    [KIA_SUCCESS], here because the terminal goes away after "a", Tab,
    "s") the handler returns that status and the array keeps what was
    typed so far until the next read clears it. *)
Remark handle_get_credentials_read_failure :
  let g := globals_init {| stdscr_ok := true; max_y := 24; max_x := 80 |}
             example_keys_read_failure in
  let out := (handle_get_credentials example_ctx example_env g).1 in
  out.1 = KIA_ERROR_SYSTEM /\
  ctx_state out.2 = STATE_SHOW_LOGIN /\
  buf_str (ctx_password out.2) = "s".
Proof. vm_compute. repeat split. Qed.

(** C8.  The pending secret is not zeroed on every path that stops
    needing it.  The user types "alice", Tab, "hunter2", Enter, and
    then leaves the session menu with Escape: [handle_get_credentials]
    goes on to the menu, [handle_select_session] returns
    [KIA_ERROR_SESSION] and goes back to the login screen, and the
    array still holds "hunter2".  The sibling paths back to the login
    screen (the over-long identity, the lockout, the rejected attempt)
    call [secure_memzero]; this one does not. *)
Theorem pending_secret_left_after_cancelled_menu :
  let g := globals_init {| stdscr_ok := true; max_y := 24; max_x := 80 |}
             example_keys_cancelled_menu in
  let read := handle_get_credentials example_ctx_at_login example_env g in
  let menu := handle_select_session read.1.2 example_env read.2 in
  read.1.1 = KIA_SUCCESS /\
  ctx_state read.1.2 = STATE_SELECT_SESSION /\
  menu.1.1 = KIA_ERROR_SESSION /\
  ctx_state menu.1.2 = STATE_SHOW_LOGIN /\
  buf_str (ctx_password menu.1.2) = "hunter2" /\
  ~ zeroed (ctx_password menu.1.2).
Proof.
  vm_compute. repeat split. intros H. discriminate H.
Qed.

End PendingSecret.

Section AuthProtocol.

Implicit Types (st : auth_state_t) (e : env) (g : globals).

Ltac auth_exec :=
  unfold auth_authenticate, auth_is_locked_out_at, tty_lock, tty_unlock,
    auth_reset_attempts;
  unfold_M; cbn -[int_wrap time_wrap strcmp strncpy];
  repeat (match goal with
          | |- context [if ?c then _ else _] =>
              lazymatch c with
              | context [if _ then _ else _] => fail
              | _ => destruct c eqn:?
              end
          end; cbn -[int_wrap time_wrap strcmp strncpy] in * ).

(** X1.  [auth_authenticate] returns [KIA_SUCCESS] exactly when no
    lockout is active at the time of the call and the provider accepts
    at all three steps (start, credential check, account check); the
    state it leaves then has the counter and the lockout at 0 and
    tracks the identity the attempt was made for. *)
Theorem auth_authenticate_success_iff
    (user password : string) (config : kia_config_t) st e g :
  let now := env_time e (g_ticks g) in
  let out := (auth_authenticate (Some user) (Some password) (Some config)
                (Some st) e g).1 in
  (out.1 = KIA_SUCCESS <->
     (lockout_until st = 0 \/ lockout_until st <= now) /\
     provider_accepts e user password = true) /\
  (out.1 = KIA_SUCCESS ->
     exists st', out.2 = Some st' /\
       failed_attempts st' = 0 /\ lockout_until st' = 0 /\
       username st' = username (state_for st user)).
Proof.
  cbv zeta. unfold provider_accepts, state_for.
  auth_exec; Zbool;
    unfold KIA_SUCCESS, KIA_ERROR_AUTH, KIA_ERROR_PAM, PAM_SUCCESS in *.
  all: split; [split|].
  all: try (intros ?; discriminate).
  all: try (intros [_ ?]; Zbool; congruence).
  all: try (intros [[?|?] _]; lia).
  all: try (intros _; eexists; repeat split; reflexivity).
  all: try (intros _; split; [lia|]).
  all: repeat match goal with
           | H : _ = 0 |- _ => rewrite H
           end; try reflexivity.
Qed.


(** X2.  When the provider cannot open a transaction ([pam_start]
    fails), [auth_authenticate] returns [KIA_ERROR_PAM], makes no
    further provider call, and does not count the attempt: the counter
    and the lockout are the ones the attempt was evaluated on. *)
Theorem auth_authenticate_provider_unavailable
    (user password : string) (config : kia_config_t) st e g :
  lockout_until st = 0 ->
  env_pam_start e user <> PAM_SUCCESS ->
  exists g' tr,
    auth_authenticate (Some user) (Some password) (Some config) (Some st) e g
      = ((KIA_ERROR_PAM, Some (state_for st user)), g') /\
    g_trace g' = (g_trace g ++ tr)%list /\
    provider_calls tr = [EvPamStart "kia" user (env_pam_start e user)].
Proof.
  intros Hfree Hstart. unfold state_for.
  auth_exec; Zbool; try congruence;
    eexists _, _; cbn; rewrite <- ?app_assoc; cbn;
    (split; [reflexivity|]); split; reflexivity.
Qed.

Lemma auth_authenticate_provider_unavailable_witness :
  exists g',
    auth_authenticate (Some "alice") (Some "correct") (Some example_config)
      (Some {| username := "alice"; failed_attempts := 2; lockout_until := 0 |})
      {| env_time := fun _ => 1000; env_open_tty := 3;
         env_ioctl := fun _ => 0; env_pam_start := fun _ => 26;
         env_pam_authenticate := fun _ _ => 0;
         env_pam_acct_mgmt := fun _ => 0 |}
      example_globals
    = ((KIA_ERROR_PAM,
        Some {| username := "alice"; failed_attempts := 2; lockout_until := 0 |}),
       g').
Proof.
  destruct (auth_authenticate_provider_unavailable "alice" "correct"
              example_config
              {| username := "alice"; failed_attempts := 2; lockout_until := 0 |}
              {| env_time := fun _ => 1000; env_open_tty := 3;
                 env_ioctl := fun _ => 0; env_pam_start := fun _ => 26;
                 env_pam_authenticate := fun _ _ => 0;
                 env_pam_acct_mgmt := fun _ => 0 |}
              example_globals) as (g' & tr & Hrun & _).
  - reflexivity.
  - cbn. discriminate.
  - exists g'. exact Hrun.
Defined.

(** X3.  Whatever its arguments and whatever the provider and the
    terminal answer, [auth_authenticate] returns with the terminal
    descriptor released and no provider transaction open, if that was
    so at the call: it closes exactly as many descriptors as it
    opened. *)
Theorem auth_authenticate_releases_resources
    (user password : option string) (config : option kia_config_t)
    (state : option auth_state_t) e g :
  g_tty_fd g < 0 ->
  g_pam_handle g = None ->
  let g' := (auth_authenticate user password config state e g).2 in
  g_tty_fd g' < 0 /\ g_pam_handle g' = None /\
  exists tr,
    g_trace g' = (g_trace g ++ tr)%list /\
    List.length (List.filter is_close tr)
    = List.length (List.filter is_successful_open tr).
Proof.
  intros Hfd Hpam. cbv zeta.
  destruct user as [user|], password as [password|], config as [config|],
    state as [st|];
    auth_exec; Zbool; try discriminate; try lia;
    (split; [lia|]); (split; [assumption || reflexivity|]);
    rewrite <- ?app_assoc; cbn;
    eexists; (split; [reflexivity|]); cbn;
    repeat match goal with
           | H : ?a < 0 |- context [0 <=? ?a] =>
               replace (0 <=? a) with false by (symmetry; apply Z.leb_gt; lia)
           | H : 0 <= ?a |- context [0 <=? ?a] =>
               replace (0 <=? a) with true by (symmetry; apply Z.leb_le; lia)
           end; reflexivity.
Qed.

Lemma auth_authenticate_releases_resources_witness :
  let g' := (auth_authenticate (Some "alice") (Some "wrong")
               (Some example_config) (Some auth_state_zero)
               example_env example_globals).2 in
  g_tty_fd g' < 0 /\ g_pam_handle g' = None.
Proof.
  destruct (auth_authenticate_releases_resources (Some "alice") (Some "wrong")
              (Some example_config) (Some auth_state_zero)
              example_env example_globals) as (Hfd & Hpam & _).
  - cbn. lia.
  - reflexivity.
  - split; [exact Hfd | exact Hpam].
Defined.

(** X4.  The provider calls of one [auth_authenticate] follow the
    protocol: none at all; or a failed [pam_start] alone; or
    [pam_start], a failed [pam_authenticate], [pam_end]; or
    [pam_start], [pam_authenticate], [pam_acct_mgmt], [pam_end].  The
    account is checked only after the secret was accepted, and every
    transaction that was opened is ended. *)
Theorem auth_authenticate_provider_protocol
    (user password : string) (config : kia_config_t) st e g :
  let g' := (auth_authenticate (Some user) (Some password) (Some config)
               (Some st) e g).2 in
  exists tr,
    g_trace g' = (g_trace g ++ tr)%list /\
    (provider_calls tr = [] \/
     (exists r, r <> PAM_SUCCESS /\
        provider_calls tr = [EvPamStart "kia" user r]) \/
     (exists r, r <> PAM_SUCCESS /\
        provider_calls tr
        = [EvPamStart "kia" user PAM_SUCCESS;
           EvPamAuthenticate user password r; EvPamEnd user]) \/
     (exists r,
        provider_calls tr
        = [EvPamStart "kia" user PAM_SUCCESS;
           EvPamAuthenticate user password PAM_SUCCESS;
           EvPamAcctMgmt user r; EvPamEnd user])).
Proof.
  cbv zeta.
  auth_exec; Zbool; try discriminate; try lia; rewrite <- ?app_assoc; cbn;
    eexists; (split; [reflexivity|]); cbn;
    repeat match goal with
           | H : _ = PAM_SUCCESS |- _ => rewrite H
           end;
    first [ left; reflexivity
          | right; left; eexists; split; [|reflexivity]; assumption
          | right; right; left; eexists; split; [|reflexivity]; assumption
          | right; right; right; eexists; reflexivity ].
Qed.

End AuthProtocol.

Section Conversation.

Lemma pam_conversation_loop_answers msgs : forall i password strdup_ok rs live r h,
  pam_conversation_loop msgs i password strdup_ok rs live
    = (PAM_SUCCESS, r, h) ->
  List.length rs = (i + List.length msgs)%nat ->
  exists rs',
    r = Some rs' /\ List.length rs' = List.length rs /\
    (forall j, (j < i)%nat -> rs' !! j = rs !! j) /\
    (forall k m, msgs !! k = Some m ->
       rs' !! (i + k)%nat
       = Some {| resp := if is_prompt m then Some password else None;
                 resp_retcode := 0 |}).
Proof.
  induction msgs as [|m msgs IH]; intros i password strdup_ok rs live r h Hrun Hlen.
  - cbn in Hrun. simplify_eq. exists rs.
    repeat split; try reflexivity. intros k m Hk. discriminate.
  - cbn [pam_conversation_loop] in Hrun. cbn [List.length] in Hlen.
    fold (is_prompt m) in Hrun.
    destruct (is_prompt m) eqn:Hprompt.
    + destruct (strdup_ok i); [|discriminate].
      apply IH in Hrun; [|rewrite length_insert; lia].
      destruct Hrun as (rs' & -> & Hlen' & Hold & Hnew).
      rewrite length_insert in Hlen'.
      exists rs'. split; [reflexivity|]. split; [exact Hlen'|]. split.
      * intros j Hj. rewrite Hold by lia.
        apply list_lookup_insert_ne. lia.
      * intros [|k] m' Hk; cbn in Hk.
        -- injection Hk as <-. rewrite Hprompt, Nat.add_0_r.
           rewrite Hold by lia. apply list_lookup_insert_eq. lia.
        -- replace (i + S k)%nat with (S i + k)%nat by lia. apply Hnew, Hk.
    + destruct ((msg_style m =? PAM_ERROR_MSG) || (msg_style m =? PAM_TEXT_INFO));
        [|discriminate].
      apply IH in Hrun; [|rewrite length_insert; lia].
      destruct Hrun as (rs' & -> & Hlen' & Hold & Hnew).
      rewrite length_insert in Hlen'.
      exists rs'. split; [reflexivity|]. split; [exact Hlen'|]. split.
      * intros j Hj. rewrite Hold by lia.
        apply list_lookup_insert_ne. lia.
      * intros [|k] m' Hk; cbn in Hk.
        -- injection Hk as <-. rewrite Hprompt, Nat.add_0_r.
           rewrite Hold by lia. apply list_lookup_insert_eq. lia.
        -- replace (i + S k)%nat with (S i + k)%nat by lia. apply Hnew, Hk.
Qed.

(** X5.  When [pam_conversation] returns [PAM_SUCCESS], it hands back one
    response per message, in order: a copy of the secret for each
    prompt (echo on or off), no string for each error or info message,
    and a zero return code in each. *)
Theorem pam_conversation_answers msgs resp0 password calloc_ok strdup_ok r h :
  pam_conversation msgs resp0 password calloc_ok strdup_ok
    = (PAM_SUCCESS, r, h) ->
  exists secret rs,
    password = Some secret /\ r = Some rs /\
    List.length rs = List.length msgs /\
    forall k m, msgs !! k = Some m ->
      rs !! k = Some {| resp := if is_prompt m then Some secret else None;
                        resp_retcode := 0 |}.
Proof.
  unfold pam_conversation. intros Hrun.
  destruct ((Z.of_nat (List.length msgs) <=? 0) ||
            (Z.of_nat (List.length msgs) >? PAM_MAX_NUM_MSG)); [discriminate|].
  destruct password as [secret|]; [|discriminate].
  destruct calloc_ok; cbn in Hrun; [|discriminate].
  apply pam_conversation_loop_answers in Hrun;
    [|rewrite length_replicate; reflexivity].
  destruct Hrun as (rs & -> & Hlen & _ & Hnew).
  rewrite length_replicate in Hlen.
  exists secret, rs. repeat split; try assumption.
Qed.

Lemma pam_conversation_answers_witness :
  exists rs h,
    pam_conversation
      [{| msg_style := PAM_TEXT_INFO; msg := "Welcome" |};
       {| msg_style := PAM_PROMPT_ECHO_OFF; msg := "Password: " |}]
      None (Some "hunter2") true (fun _ => true)
    = (PAM_SUCCESS, Some rs, h) /\
    rs !! 0%nat = Some {| resp := None; resp_retcode := 0 |} /\
    rs !! 1%nat = Some {| resp := Some "hunter2"; resp_retcode := 0 |}.
Proof.
  destruct (pam_conversation_answers
              [{| msg_style := PAM_TEXT_INFO; msg := "Welcome" |};
               {| msg_style := PAM_PROMPT_ECHO_OFF; msg := "Password: " |}]
              None (Some "hunter2") true (fun _ => true)
              (Some [{| resp := None; resp_retcode := 0 |};
                     {| resp := Some "hunter2"; resp_retcode := 0 |}])
              {| array_live := true; strings_live := [1%nat] |})
    as (secret & rs & Hsecret & Hrs & _ & Hall).
  - reflexivity.
  - injection Hsecret as <-. injection Hrs as <-.
    eexists _, _. split; [reflexivity|]. split.
    + apply (Hall 0%nat {| msg_style := PAM_TEXT_INFO; msg := "Welcome" |}).
      reflexivity.
    + apply (Hall 1%nat
               {| msg_style := PAM_PROMPT_ECHO_OFF; msg := "Password: " |}).
      reflexivity.
Defined.

Lemma free_response_in rs j live k :
  In k (free_response rs j live) <->
  In k live /\
  ~ (k = j /\ exists secret rc,
       rs !! j = Some {| resp := Some secret; resp_retcode := rc |}).
Proof.
  unfold free_response.
  destruct (rs !! j) as [[[secret|] rc]|] eqn:Hj.
  - rewrite filter_In. split.
    + intros [Hin Hne]. split; [exact Hin|]. intros [-> _].
      rewrite Nat.eqb_refl in Hne. discriminate.
    + intros [Hin Hne]. split; [exact Hin|].
      destruct (Nat.eqb k j) eqn:Heq; [|reflexivity].
      apply Nat.eqb_eq in Heq. exfalso. apply Hne. split; [exact Heq|].
      eexists _, _. reflexivity.
  - split; [|tauto]. intros Hin. split; [exact Hin|].
    intros [_ (secret & rc' & Heq)]. discriminate.
  - split; [|tauto]. intros Hin. split; [exact Hin|].
    intros [_ (secret & rc' & Heq)]. discriminate.
Qed.

Lemma free_responses_in rs i : forall live k,
  In k (free_responses rs i live) <->
  In k live /\
  ~ ((k < i)%nat /\ exists secret rc,
       rs !! k = Some {| resp := Some secret; resp_retcode := rc |}).
Proof.
  unfold free_responses.
  induction i as [|i IH]; intros live k.
  - cbn. split; [|tauto]. intros Hin. split; [exact Hin|]. intros [Hlt _]. lia.
  - rewrite seq_S, foldl_app. cbn. rewrite free_response_in, IH.
    split.
    + intros [[Hin Hno] Hno']. split; [exact Hin|].
      intros [Hlt Hsome]. destruct (decide (k = i)) as [->|Hne].
      * apply Hno'. split; [reflexivity|exact Hsome].
      * apply Hno. split; [lia|exact Hsome].
    + intros [Hin Hno]. split; [split; [exact Hin|]|].
      * intros [Hlt Hsome]. apply Hno. split; [lia|exact Hsome].
      * intros [-> Hsome]. apply Hno. split; [lia|exact Hsome].
Qed.

Lemma free_responses_all rs i live :
  strings_recorded rs i live -> free_responses rs i live = [].
Proof.
  intros Hrec. destruct (free_responses rs i live) as [|k rest] eqn:Hfree;
    [reflexivity|].
  assert (Hin : In k (free_responses rs i live)) by (rewrite Hfree; left; reflexivity).
  apply free_responses_in in Hin. destruct Hin as [Hin Hno].
  exfalso. apply Hno, Hrec, Hin.
Qed.

Lemma strings_recorded_insert rs i live r :
  (i < List.length rs)%nat ->
  strings_recorded rs i live ->
  strings_recorded (<[i := r]> rs) (S i)
    (match resp r with Some _ => (live ++ [i])%list | None => live end).
Proof.
  intros Hlen Hrec k Hin.
  assert (Hcases : In k live \/ (k = i /\ exists s, resp r = Some s)).
  { destruct (resp r) as [s|]; [|left; exact Hin].
    apply in_app_iff in Hin. destruct Hin as [Hin|[<-|[]]]; [left; exact Hin|].
    right. split; [reflexivity|]. exists s. reflexivity. }
  destruct Hcases as [Hlive|[-> [s Hs]]].
  - destruct (Hrec k Hlive) as [Hlt Hsome]. split; [lia|].
    rewrite list_lookup_insert_ne by lia. exact Hsome.
  - split; [lia|]. rewrite list_lookup_insert_eq by exact Hlen.
    destruct r as [rr rc]. cbn in Hs. subst rr. eexists _, _. reflexivity.
Qed.

Lemma pam_conversation_loop_failure msgs :
  forall i password strdup_ok rs live r out h,
  pam_conversation_loop msgs i password strdup_ok rs live = (r, out, h) ->
  r <> PAM_SUCCESS ->
  List.length rs = (i + List.length msgs)%nat ->
  strings_recorded rs i live ->
  (r = PAM_BUF_ERR \/ r = PAM_CONV_ERR) /\ out = None /\
  h = {| array_live := false; strings_live := [] |}.
Proof.
  induction msgs as [|m msgs IH];
    intros i password strdup_ok rs live r out h Hrun Hr Hlen Hrec.
  - cbn in Hrun. simplify_eq.
  - cbn [pam_conversation_loop] in Hrun. cbn [List.length] in Hlen.
    destruct ((msg_style m =? PAM_PROMPT_ECHO_OFF) ||
              (msg_style m =? PAM_PROMPT_ECHO_ON)).
    + destruct (strdup_ok i).
      * eapply IH; [exact Hrun|exact Hr|rewrite length_insert; lia|].
        apply (strings_recorded_insert rs i live
                 {| resp := Some password; resp_retcode := 0 |}); [lia|exact Hrec].
      * simplify_eq. rewrite free_responses_all by exact Hrec.
        split; [left; reflexivity|]. split; reflexivity.
    + destruct ((msg_style m =? PAM_ERROR_MSG) || (msg_style m =? PAM_TEXT_INFO)).
      * eapply IH; [exact Hrun|exact Hr|rewrite length_insert; lia|].
        apply (strings_recorded_insert rs i live
                 {| resp := None; resp_retcode := 0 |}); [lia|exact Hrec].
      * simplify_eq. rewrite free_responses_all by exact Hrec.
        split; [right; reflexivity|]. split; reflexivity.
Qed.

(** X6.  When [pam_conversation] fails it keeps nothing: the return code
    is [PAM_CONV_ERR] or [PAM_BUF_ERR], no copy of the secret and no
    response array stays allocated, and [*resp] is NULL, or, when the
    arguments were turned down before anything was allocated, what it
    was. *)
Theorem pam_conversation_failure_frees
    msgs resp0 password calloc_ok strdup_ok r out h :
  pam_conversation msgs resp0 password calloc_ok strdup_ok = (r, out, h) ->
  r <> PAM_SUCCESS ->
  (r = PAM_BUF_ERR \/ r = PAM_CONV_ERR) /\
  (out = None \/ out = resp0) /\
  h = {| array_live := false; strings_live := [] |}.
Proof.
  unfold pam_conversation. intros Hrun Hr.
  destruct ((Z.of_nat (List.length msgs) <=? 0) ||
            (Z.of_nat (List.length msgs) >? PAM_MAX_NUM_MSG)).
  { simplify_eq. split; [right; reflexivity|].
    split; [right; reflexivity|reflexivity]. }
  destruct password as [secret|].
  2:{ simplify_eq. split; [right; reflexivity|].
      split; [right; reflexivity|reflexivity]. }
  destruct calloc_ok; cbn in Hrun.
  2:{ simplify_eq. split; [left; reflexivity|].
      split; [left; reflexivity|reflexivity]. }
  apply pam_conversation_loop_failure in Hrun; try assumption.
  - destruct Hrun as (Hcode & -> & ->). split; [exact Hcode|].
    split; [left; reflexivity|reflexivity].
  - rewrite length_replicate. reflexivity.
  - intros k [].
Qed.

Lemma pam_conversation_failure_frees_witness :
  pam_conversation
    [{| msg_style := PAM_PROMPT_ECHO_OFF; msg := "Password: " |};
     {| msg_style := PAM_PROMPT_ECHO_ON; msg := "Token: " |};
     {| msg_style := 7; msg := "?" |}]
    None (Some "hunter2") true (fun _ => true)
  = (PAM_CONV_ERR, None, {| array_live := false; strings_live := [] |}).
Proof.
  destruct (pam_conversation
              [{| msg_style := PAM_PROMPT_ECHO_OFF; msg := "Password: " |};
               {| msg_style := PAM_PROMPT_ECHO_ON; msg := "Token: " |};
               {| msg_style := 7; msg := "?" |}]
              None (Some "hunter2") true (fun _ => true))
    as [[r out] h] eqn:Hrun.
  destruct (pam_conversation_failure_frees _ _ _ _ _ _ _ _ Hrun)
    as (_ & _ & ->).
  - vm_compute in Hrun. simplify_eq. discriminate.
  - vm_compute in Hrun. simplify_eq. reflexivity.
Defined.

End Conversation.

Section ConfigText.

Lemma skip_spaces_split s :
  exists pre,
    s = (pre ++ skip_spaces s)%string /\ all_space pre = true /\
    (forall c rest, skip_spaces s = String c rest -> isspace c = false).
Proof.
  induction s as [|c s (pre & Hs & Hpre & Hfirst)]; cbn [skip_spaces].
  - exists "". repeat split. intros c rest H. discriminate.
  - destruct (isspace c) eqn:Hc.
    + exists (String c pre). rewrite append_cons, <- Hs.
      split; [reflexivity|]. split; [cbn; rewrite Hc; exact Hpre|exact Hfirst].
    + exists "". split; [reflexivity|]. split; [reflexivity|].
      intros c' rest Heq. injection Heq as <- _. exact Hc.
Qed.

Lemma drop_trailing_spaces_split s :
  exists post,
    s = (drop_trailing_spaces s ++ post)%string /\ all_space post = true /\
    (forall c, last_char (drop_trailing_spaces s) = Some c -> isspace c = false).
Proof.
  induction s as [|c s (post & Hs & Hpost & Hlast)]; cbn [drop_trailing_spaces].
  - exists "". repeat split. intros c H. discriminate.
  - destruct (drop_trailing_spaces s) as [|d kept] eqn:Hkept.
    + rewrite append_nil in Hs. subst post.
      destruct (isspace c) eqn:Hc.
      * exists (String c s). rewrite append_nil. split; [reflexivity|].
        split; [cbn; rewrite Hc; exact Hpost|]. intros c' H. discriminate.
      * exists s. split; [reflexivity|]. split; [exact Hpost|].
        intros c' Heq. cbn in Heq. injection Heq as <-. exact Hc.
    + exists post. rewrite append_cons, <- Hs. split; [reflexivity|].
      split; [exact Hpost|]. intros c' Heq. apply Hlast.
      cbn [last_char] in Heq. exact Heq.
Qed.

Lemma skip_spaces_first c rest :
  isspace c = false -> skip_spaces (String c rest) = String c rest.
Proof. intros Hc. cbn. rewrite Hc. reflexivity. Qed.

Lemma drop_trailing_spaces_kept s :
  (forall c, last_char s = Some c -> isspace c = false) ->
  drop_trailing_spaces s = s.
Proof.
  induction s as [|c s IH]; intros Hlast; cbn [drop_trailing_spaces];
    [reflexivity|].
  destruct s as [|d s].
  - cbn. rewrite (Hlast c) by reflexivity. reflexivity.
  - rewrite IH by (intros c' Hc'; apply Hlast; exact Hc').
    reflexivity.
Qed.

(** X7.  [trim_whitespace] removes white space at both ends and nothing
    else: the input is the result between two runs of white space; the
    result neither starts nor ends with white space, and trimming it
    again changes nothing. *)
Theorem trim_whitespace_trims (s : string) :
  let t := trim_whitespace s in
  (exists pre post,
     s = (pre ++ t ++ post)%string /\
     all_space pre = true /\ all_space post = true) /\
  (forall c rest, t = String c rest -> isspace c = false) /\
  (forall c, last_char t = Some c -> isspace c = false) /\
  trim_whitespace t = t.
Proof.
  cbv zeta. unfold trim_whitespace.
  destruct (skip_spaces_split s) as (pre & Hs & Hpre & Hfirst).
  destruct (skip_spaces s) as [|c rest] eqn:Hskip.
  - split; [|split; [|split]]; try (intros; discriminate); try reflexivity.
    exists pre, "". rewrite append_nil. auto.
  - destruct (drop_trailing_spaces_split rest) as (post & Hrest & Hpost & Hlast).
    assert (Hc : isspace c = false) by (apply (Hfirst c rest); reflexivity).
    assert (Hend : forall c', last_char (String c (drop_trailing_spaces rest))
                              = Some c' -> isspace c' = false).
    { intros c' Hc'. cbn [last_char] in Hc'.
      destruct (drop_trailing_spaces rest) as [|d kept] eqn:Hkept.
      - injection Hc' as <-. exact Hc.
      - apply Hlast. exact Hc'. }
    split; [|split; [|split]].
    + exists pre, post. rewrite append_cons, <- Hrest. auto.
    + intros c' rest' Heq. injection Heq as <- _. exact Hc.
    + exact Hend.
    + rewrite (skip_spaces_first c _ Hc). f_equal.
      apply drop_trailing_spaces_kept.
      intros c' Hc'. apply Hend. cbn [last_char].
      destruct (drop_trailing_spaces rest); [discriminate|exact Hc'].
Qed.

End ConfigText.

Section SessionCatalog.

Implicit Types (s session : session_info_t) (e : env) (g : globals).

Lemma parse_desktop_line_found line session found_name found_exec :
  fields_found session found_name found_exec ->
  let '(session', found_name', found_exec') :=
    parse_desktop_line line session found_name found_exec in
  fields_found session' found_name' found_exec' /\
  type session' = type session.
Proof.
  intros [Hname Hexec]. unfold parse_desktop_line.
  destruct (String.prefix "Name=" line && negb found_name) eqn:Hn.
  - destruct ((0 <? String.length (string_from 5 line))%nat &&
              (String.length (string_from 5 line) <? 256)%nat) eqn:Hlen.
    + apply andb_true_iff in Hlen as [Hpos Hfit].
      apply Nat.ltb_lt in Hpos, Hfit.
      split; [|reflexivity]. split; cbn [name exec]; [|exact Hexec].
      intros _. rewrite strncpy_fits by lia. lia.
    + split; [split; assumption|reflexivity].
  - destruct (String.prefix "Exec=" line && negb found_exec) eqn:He.
    + destruct ((0 <? String.length (string_from 5 line))%nat &&
                (String.length (string_from 5 line) <? 512)%nat) eqn:Hlen.
      * apply andb_true_iff in Hlen as [Hpos Hfit].
        apply Nat.ltb_lt in Hpos, Hfit.
        split; [|reflexivity]. split; cbn [name exec]; [exact Hname|].
        intros _. rewrite strncpy_fits by lia. lia.
      * split; [split; assumption|reflexivity].
    + split; [split; assumption|reflexivity].
Qed.

Lemma parse_desktop_lines_found fuel :
  forall stream fails session found_name found_exec,
  fields_found session found_name found_exec ->
  let '(session', found_name', found_exec', _) :=
    parse_desktop_lines fuel stream fails session found_name found_exec in
  fields_found session' found_name' found_exec' /\
  type session' = type session.
Proof.
  induction fuel as [|fuel IH];
    intros stream fails session found_name found_exec Hfound;
    cbn -[fgets_chars]; [split; [exact Hfound|reflexivity]|].
  destruct (fgets_chars 1023 stream) as [[buf rest] hit_end].
  destruct (hit_end && fails); [split; [exact Hfound|reflexivity]|].
  destruct buf as [|c buf]; [split; [exact Hfound|reflexivity]|].
  destruct (_ && _ && _).
  - apply IH, Hfound.
  - pose proof (parse_desktop_line_found
                  (cut_at_newline (c_str (String c buf))) session
                  found_name found_exec Hfound) as Hline.
    destruct (parse_desktop_line _ session found_name found_exec)
      as [[session1 found_name1] found_exec1].
    destruct Hline as [Hfound1 Htype1].
    destruct (found_name1 && found_exec1); [split; assumption|].
    specialize (IH rest fails session1 found_name1 found_exec1 Hfound1).
    destruct (parse_desktop_lines fuel rest fails session1 found_name1
                found_exec1) as [[[session2 found_name2] found_exec2] failed].
    destruct IH as [Hfound2 Htype2]. split; [exact Hfound2|congruence].
Qed.

(** Any fuel above the length of the stream gives the same result: the
    loop of [parse_desktop_file] always runs to its end. *)
Lemma parse_desktop_lines_fuel fuel1 :
  forall fuel2 stream fails session found_name found_exec,
  (String.length stream < fuel1)%nat ->
  (String.length stream < fuel2)%nat ->
  parse_desktop_lines fuel1 stream fails session found_name found_exec
  = parse_desktop_lines fuel2 stream fails session found_name found_exec.
Proof.
  induction fuel1 as [|fuel1 IH];
    intros [|fuel2] stream fails session found_name found_exec H1 H2;
    try lia.
  cbn -[fgets_chars].
  pose proof (fgets_chars_length 1023 stream) as Hlen.
  destruct (fgets_chars 1023 stream) as [[buf rest] hit_end]; cbn in Hlen.
  destruct (hit_end && fails); [reflexivity|].
  destruct buf as [|c buf]; [reflexivity|]. cbn in Hlen.
  destruct (_ && _ && _).
  - pose proof (skip_to_end_of_line_length rest). apply IH; lia.
  - destruct (parse_desktop_line _ session found_name found_exec)
      as [[session1 found_name1] found_exec1].
    destruct (found_name1 && found_exec1); [reflexivity|].
    apply IH; lia.
Qed.

(** [parse_desktop_file] reports [KIA_SUCCESS] only with a record a
    session can be started from, of the kind it was asked for; every
    other outcome is [KIA_ERROR_SESSION]. *)
Lemma parse_desktop_file_result
    (fopen_r : string -> option FILE) (filepath : option string)
    (slot : option session_info_t) (ty : session_type_t) e g :
  let out := (parse_desktop_file fopen_r filepath slot ty e g).1 in
  (out.1 = KIA_SUCCESS \/ out.1 = KIA_ERROR_SESSION) /\
  (out.1 = KIA_SUCCESS ->
   exists s, out.2 = Some s /\ session_usable s /\ type s = ty) /\
  (is_Some slot -> is_Some out.2).
Proof.
  cbv zeta. unfold parse_desktop_file.
  destruct filepath as [filepath|], slot as [session|]; unfold_M; cbn -[parse_desktop_lines];
    try (split; [right; reflexivity|]; split; [discriminate|];
         intros [? ?]; try discriminate; eexists; reflexivity).
  destruct (String.length filepath =? 0)%nat; cbn -[parse_desktop_lines].
  { split; [right; reflexivity|]. split; [discriminate|].
    intros _. eexists; reflexivity. }
  destruct (fopen_r filepath) as [fp|]; cbn -[parse_desktop_lines].
  2:{ split; [right; reflexivity|]. split; [discriminate|].
      intros _. eexists; reflexivity. }
  pose proof (parse_desktop_lines_found (S (String.length (f_bytes fp)))
                (f_bytes fp) (f_fails fp)
                {| name := ""; exec := ""; type := type session |}
                false false) as Hfound.
  destruct (parse_desktop_lines _ _ _ _ _ _)
    as [[[session' found_name] found_exec] failed].
  destruct Hfound as [[Hname Hexec] _]; [split; discriminate|].
  destruct failed; cbn -[parse_desktop_lines].
  { split; [right; reflexivity|]. split; [discriminate|].
    intros _. eexists; reflexivity. }
  destruct found_name, found_exec; cbn -[parse_desktop_lines];
    try (split; [right; reflexivity|]; split; [discriminate|];
         intros _; eexists; reflexivity).
  split; [left; reflexivity|]. split; [|intros _; eexists; reflexivity].
  intros _. eexists. split; [reflexivity|].
  split; [|reflexivity]. split; cbn; auto.
Qed.

Lemma cut_at_newline_line line :
  text_chars line = true ->
  cut_at_newline (line ++ String newline "") = line.
Proof.
  induction line as [|c line IH]; intros Htext;
    rewrite ?append_cons, ?append_nil;
    cbn -[Ascii.eqb newline zero] in *.
  - rewrite Ascii.eqb_refl. reflexivity.
  - apply andb_true_iff in Htext as [Hc Htext].
    apply andb_true_iff in Hc as [Hnl _].
    apply negb_true_iff in Hnl. rewrite Hnl, IH by assumption. reflexivity.
Qed.

(** On a file of text lines the loop of [parse_desktop_file] is
    [desktop_lines] over the lines. *)
Lemma parse_desktop_lines_unlines lines :
  Forall text_line lines ->
  forall fuel session found_name found_exec,
    (String.length (unlines lines) < fuel)%nat ->
    parse_desktop_lines fuel (unlines lines) false session found_name found_exec
    = (desktop_lines lines session found_name found_exec, false).
Proof.
  induction 1 as [|line lines [Htext Hfit] _ IH];
    intros [|fuel] session found_name found_exec Hfuel;
    try (cbn in Hfuel; lia).
  - reflexivity.
  - cbn [unlines] in *. cbn -[fgets_chars].
    rewrite fgets_chars_line by assumption.
    rewrite andb_false_r.
    destruct (line ++ String newline "")%string as [|c buf] eqn:Hbuf;
      [destruct line; discriminate Hbuf|].
    rewrite <- Hbuf. clear c buf Hbuf.
    rewrite c_str_line, last_char_line, cut_at_newline_line by assumption.
    rewrite bool_decide_eq_true_2 by reflexivity. cbn [negb].
    rewrite andb_false_r. cbn [andb].
    destruct (parse_desktop_line line session found_name found_exec)
      as [[session1 found_name1] found_exec1].
    destruct (found_name1 && found_exec1); [reflexivity|].
    rewrite length_append in Hfuel. cbn in Hfuel.
    apply IH. lia.
Qed.

Lemma text_chars_append (a b : string) :
  text_chars (a ++ b) = text_chars a && text_chars b.
Proof.
  induction a as [|c a IH]; rewrite ?append_cons, ?append_nil; cbn -[newline zero];
    [reflexivity|].
  rewrite IH, andb_assoc. reflexivity.
Qed.

Lemma prefix_nil (s : string) : String.prefix "" s = true.
Proof. destruct s; reflexivity. Qed.

(** X8.  A descriptor written as the tests write it, [Name=] then
    [Exec=] between a header and a [Type=] line, is read back as
    exactly that name and that command, with the kind of the directory,
    provided each is text of 1 to 255, respectively 511, bytes. *)
Theorem parse_desktop_file_round_trip
    (fopen_r : string -> option FILE) (filepath session_name command : string)
    (slot : session_info_t) (ty : session_type_t) e g :
  filepath <> "" ->
  fopen_r filepath
  = Some {| f_bytes := desktop_file_text session_name command;
            f_fails := false |} ->
  text_chars session_name = true ->
  text_chars command = true ->
  (0 < String.length session_name < 256)%nat ->
  (0 < String.length command < 512)%nat ->
  (parse_desktop_file fopen_r (Some filepath) (Some slot) ty e g).1
  = (KIA_SUCCESS,
     Some {| name := session_name; exec := command; type := ty |}).
Proof.
  intros Hpath Hopen Hname Hexec Hnlen Hxlen.
  unfold parse_desktop_file.
  destruct filepath as [|c filepath]; [contradiction|].
  cbn [String.length Nat.eqb]. rewrite Hopen. cbn [f_bytes f_fails].
  unfold desktop_file_text.
  assert (Hlines : Forall text_line
            ["[Desktop Entry]"; ("Name=" ++ session_name)%string;
             ("Exec=" ++ command)%string; "Type=Application"]).
  { repeat apply List.Forall_cons; try apply List.Forall_nil;
      unfold text_line;
      rewrite ?text_chars_append, ?length_append, ?Hname, ?Hexec;
      cbn [String.length]; (split; [reflexivity|lia]). }
  rewrite (parse_desktop_lines_unlines _ Hlines) by lia.
  cbn [desktop_lines].
  change (parse_desktop_line "[Desktop Entry]"
            {| name := ""; exec := ""; type := type slot |} false false)
    with ({| name := ""; exec := ""; type := type slot |}, false, false).
  cbn [andb].
  rewrite !append_cons, !append_nil.
  unfold parse_desktop_line.
  cbn -[strncpy Nat.ltb].
  replace (0 <? String.length session_name)%nat with true
    by (symmetry; apply Nat.ltb_lt; lia).
  replace (String.length session_name <? 256)%nat with true
    by (symmetry; apply Nat.ltb_lt; lia).
  cbn -[strncpy Nat.ltb].
  replace (0 <? String.length command)%nat with true
    by (symmetry; apply Nat.ltb_lt; lia).
  replace (String.length command <? 512)%nat with true
    by (symmetry; apply Nat.ltb_lt; lia).
  cbn -[strncpy Nat.ltb].
  rewrite !strncpy_fits by lia.
  rewrite !prefix_nil. reflexivity.
Qed.

Lemma parse_desktop_file_round_trip_witness :
  (parse_desktop_file
     (fun _ => Some {| f_bytes := desktop_file_text "XFCE Session" "startxfce4";
                       f_fails := false |})
     (Some "/usr/share/xsessions/xfce.desktop") (Some example_session)
     SESSION_X11 example_env example_globals).1
  = (KIA_SUCCESS,
     Some {| name := "XFCE Session"; exec := "startxfce4";
             type := SESSION_X11 |}).
Proof.
  apply (parse_desktop_file_round_trip
           (fun _ => Some {| f_bytes :=
                               desktop_file_text "XFCE Session" "startxfce4";
                             f_fails := false |})
           "/usr/share/xsessions/xfce.desktop" "XFCE Session" "startxfce4").
  - discriminate.
  - reflexivity.
  - reflexivity.
  - reflexivity.
  - cbn. lia.
  - cbn. lia.
Defined.

Lemma realloc_sessions_length old n fresh :
  List.length (realloc_sessions old n fresh) = n.
Proof.
  unfold realloc_sessions.
  rewrite length_app, length_take, length_replicate. lia.
Qed.

Lemma realloc_sessions_lookup old n fresh i :
  (i < List.length old)%nat -> (i < n)%nat ->
  realloc_sessions old n fresh !! i = old !! i.
Proof.
  intros Hold Hn. unfold realloc_sessions.
  rewrite lookup_app_l by (rewrite length_take; lia).
  apply lookup_take_lt, Hn.
Qed.

(** The loop of [scan_session_directory] keeps the catalog well formed,
    leaves the records it found in place, and adds only records of the
    kind of the directory. *)
Lemma scan_entries_catalog fs dir_path ty entries :
  forall sess cnt e g,
  catalog_ok sess cnt ->
  cnt + Z.of_nat (List.length entries) <= INT_MAX ->
  let out := (scan_entries fs dir_path ty entries sess cnt e g).1 in
  catalog_ok out.1.2 out.2 /\
  cnt <= out.2 <= cnt + Z.of_nat (List.length entries) /\
  (forall i, (i < Z.to_nat cnt)%nat -> out.1.2 !! i = sess !! i) /\
  (forall i s, (Z.to_nat cnt <= i < Z.to_nat out.2)%nat ->
     out.1.2 !! i = Some s -> type s = ty).
Proof.
  induction entries as [|d_name entries IH]; intros sess cnt e g Hok Hmax;
    cbv zeta; cbn [scan_entries List.length] in *.
  { cbn. split; [exact Hok|]. split; [lia|]. split; [reflexivity|].
    intros i s Hi. lia. }
  assert (Hrec : forall g',
    let out := (scan_entries fs dir_path ty entries sess cnt e g').1 in
    catalog_ok out.1.2 out.2 /\
    cnt <= out.2 <= cnt + Z.of_nat (S (List.length entries)) /\
    (forall i, (i < Z.to_nat cnt)%nat -> out.1.2 !! i = sess !! i) /\
    (forall i s, (Z.to_nat cnt <= i < Z.to_nat out.2)%nat ->
       out.1.2 !! i = Some s -> type s = ty)).
  { intros g'. destruct (IH sess cnt e g' Hok) as (H1 & H2 & H3 & H4); [lia|].
    cbv zeta. split; [exact H1|]. split; [lia|]. split; assumption. }
  destruct (negb (strstr_found d_name ".desktop")); [apply Hrec|].
  destruct (_ || _); [unfold_M; apply Hrec|].
  destruct (_ <=? _)%nat; [unfold_M; apply Hrec|].
  destruct (negb (fs_realloc_ok fs (cnt + 1))).
  { unfold_M. cbn. split; [exact Hok|]. split; [lia|]. split; [reflexivity|].
    intros i s Hi. lia. }
  destruct Hok as (Hpos & Hlen & Husable).
  set (sess1 := realloc_sessions sess (Z.to_nat (cnt + 1)) (fs_fresh fs)).
  assert (Hlen1 : List.length sess1 = S (Z.to_nat cnt)).
  { unfold sess1. rewrite realloc_sessions_length. lia. }
  assert (Hold1 : forall i, (i < Z.to_nat cnt)%nat -> sess1 !! i = sess !! i).
  { intros i Hi. apply realloc_sessions_lookup; lia. }
  unfold mbind, M_bind. cbn beta.
  pose proof (parse_desktop_file_result (fs_fopen fs)
                (Some (dir_path ++ "/" ++ d_name)%string)
                (sess1 !! Z.to_nat cnt) ty e g) as Hparse.
  destruct (parse_desktop_file _ _ _ _ e g) as [[r slot] g1].
  cbv zeta in Hparse. cbn [fst snd] in Hparse.
  destruct Hparse as (Hcode & Hsuccess & Hslot).
  destruct Hslot as [s' ->]; [apply lookup_lt_is_Some; lia|].
  set (sess2 := <[Z.to_nat cnt := s']> sess1).
  assert (Hlen2 : List.length sess2 = S (Z.to_nat cnt)).
  { unfold sess2. rewrite length_insert. exact Hlen1. }
  assert (Hold2 : forall i, (i < Z.to_nat cnt)%nat -> sess2 !! i = sess !! i).
  { intros i Hi. unfold sess2. rewrite list_lookup_insert_ne by lia.
    apply Hold1, Hi. }
  destruct (r =? KIA_SUCCESS) eqn:Hr.
  - apply Z.eqb_eq in Hr. destruct (Hsuccess Hr) as (s & Hs & Hs_ok & Hs_ty).
    injection Hs as <-.
    unfold_M. rewrite int_wrap_id by (unfold INT_MIN; lia).
    match goal with
    | |- context [scan_entries fs dir_path ty entries sess2 (cnt + 1) e ?g'] =>
        destruct (IH sess2 (cnt + 1) e g') as (H1 & H2 & H3 & H4)
    end.
    + split; [lia|]. split; [lia|]. intros i s Hi Hlook.
      destruct (decide (i = Z.to_nat cnt)) as [->|Hne].
      * unfold sess2 in Hlook. rewrite list_lookup_insert_eq in Hlook by lia.
        injection Hlook as <-. exact Hs_ok.
      * apply (Husable i); [lia|]. rewrite <- Hold2 by lia. exact Hlook.
    + lia.
    + cbv zeta in *. split; [exact H1|]. split; [lia|]. split.
      * intros i Hi. rewrite H3 by lia. apply Hold2, Hi.
      * intros i s Hi Hlook.
        destruct (decide (i = Z.to_nat cnt)) as [->|Hne].
        -- rewrite H3 in Hlook by lia. unfold sess2 in Hlook.
           rewrite list_lookup_insert_eq in Hlook by lia.
           injection Hlook as <-. exact Hs_ty.
        -- apply (H4 i); [lia|exact Hlook].
  - match goal with
    | |- context [scan_entries fs dir_path ty entries sess2 cnt e ?g'] =>
        destruct (IH sess2 cnt e g') as (H1 & H2 & H3 & H4)
    end.
    + split; [lia|]. split; [lia|]. intros i s Hi Hlook.
      apply (Husable i); [lia|]. rewrite <- Hold2 by lia. exact Hlook.
    + lia.
    + cbv zeta in *. split; [exact H1|]. split; [lia|]. split.
      * intros i Hi. rewrite H3 by lia. apply Hold2, Hi.
      * exact H4.
Qed.

Lemma scan_session_directory_catalog fs dir_path ty sess cnt e g :
  directories_countable fs ->
  catalog_ok sess cnt ->
  cnt <= 2 ^ 30 ->
  let out := (scan_session_directory fs (Some dir_path) ty sess cnt e g).1 in
  (out.1.1 = KIA_SUCCESS \/ out.1.1 = KIA_ERROR_SESSION) /\
  catalog_ok out.1.2 out.2 /\
  cnt <= out.2 <= cnt + 2 ^ 30 /\
  (forall i, (i < Z.to_nat cnt)%nat -> out.1.2 !! i = sess !! i) /\
  (forall i s, (Z.to_nat cnt <= i < Z.to_nat out.2)%nat ->
     out.1.2 !! i = Some s -> type s = ty).
Proof.
  intros Hdirs Hok Hcnt. cbv zeta. unfold scan_session_directory.
  assert (Hsame :
    catalog_ok sess cnt /\ cnt <= cnt <= cnt + 2 ^ 30 /\
    (forall i, (i < Z.to_nat cnt)%nat -> sess !! i = sess !! i) /\
    (forall i s, (Z.to_nat cnt <= i < Z.to_nat cnt)%nat ->
       sess !! i = Some s -> type s = ty)).
  { split; [exact Hok|]. split; [lia|]. split; [reflexivity|].
    intros i s Hi. lia. }
  destruct (cnt <? 0); [unfold_M; cbn; split; [right; reflexivity|exact Hsame]|].
  destruct (fs_opendir fs dir_path) as [dir|] eqn:Hdir;
    [|unfold_M; cbn; split; [left; reflexivity|exact Hsame]].
  specialize (Hdirs _ _ Hdir).
  unfold mbind, M_bind. cbn beta.
  pose proof (scan_entries_catalog fs dir_path ty (d_entries dir) sess cnt e g
                Hok) as Hscan.
  destruct (scan_entries fs dir_path ty (d_entries dir) sess cnt e g)
    as [[[finished sess'] cnt'] g'].
  cbv zeta in Hscan. cbn [fst snd] in Hscan.
  destruct Hscan as (H1 & H2 & H3 & H4); [unfold INT_MAX; lia|].
  assert (Hout : catalog_ok sess' cnt' /\ cnt <= cnt' <= cnt + 2 ^ 30 /\
    (forall i, (i < Z.to_nat cnt)%nat -> sess' !! i = sess !! i) /\
    (forall i s, (Z.to_nat cnt <= i < Z.to_nat cnt')%nat ->
       sess' !! i = Some s -> type s = ty)).
  { split; [exact H1|]. split; [lia|]. split; assumption. }
  destruct finished; cbn [negb];
    [|unfold_M; cbn; split; [right; reflexivity|exact Hout]].
  destruct (negb (d_errno dir =? 0)); unfold_M; cbn;
    (split; [(left; reflexivity) || (right; reflexivity)|exact Hout]).
Qed.

(** What [session_discover] hands back, in one statement. *)
Lemma session_discover_run fs list e g :
  directories_countable fs ->
  let out := (session_discover fs (Some list) e g).1 in
  exists l,
    out.2 = Some l /\
    catalog_ok (sessions l) (count l) /\
    (out.1 = KIA_SUCCESS /\ 0 < count l \/
     out.1 = KIA_ERROR_SESSION /\ count l = 0) /\
    exists k, 0 <= k <= count l /\
      forall i s, sessions l !! i = Some s ->
        ((i < Z.to_nat k)%nat -> type s = SESSION_X11) /\
        ((Z.to_nat k <= i < Z.to_nat (count l))%nat -> type s = SESSION_WAYLAND).
Proof.
  intros Hdirs. cbv zeta. unfold session_discover.
  assert (Hempty : catalog_ok [] 0).
  { split; [lia|]. split; [cbn; lia|]. intros i s Hi. cbn in Hi. lia. }
  assert (Hfreed : forall sess cnt,
    catalog_ok sess cnt ->
    exists l,
      session_list_free (Some {| sessions := sess; count := cnt |}) = Some l /\
      catalog_ok (sessions l) (count l) /\
      (KIA_ERROR_SESSION = KIA_SUCCESS /\ 0 < count l \/
       KIA_ERROR_SESSION = KIA_ERROR_SESSION /\ count l = 0) /\
      exists k, 0 <= k <= count l /\
        forall i s, sessions l !! i = Some s ->
          ((i < Z.to_nat k)%nat -> type s = SESSION_X11) /\
          ((Z.to_nat k <= i < Z.to_nat (count l))%nat ->
           type s = SESSION_WAYLAND)).
  { intros sess cnt (Hpos & Hlen & Husable). unfold session_list_free.
    destruct sess as [|s0 sess]; cbn [sessions count].
    - cbn in Hlen. assert (cnt = 0) by lia. subst cnt.
      eexists. split; [reflexivity|]. cbn [sessions count].
      split; [exact Hempty|]. split; [right; split; reflexivity|].
      exists 0. split; [lia|]. intros i s Hi. discriminate.
    - eexists. split; [reflexivity|]. cbn [sessions count].
      split; [exact Hempty|]. split; [right; split; reflexivity|].
      exists 0. split; [lia|]. intros i s Hi. discriminate. }
  unfold mbind, M_bind. cbn beta.
  pose proof (scan_session_directory_catalog fs X11_SESSION_DIR SESSION_X11
                [] 0 e g Hdirs Hempty) as Hx11.
  destruct (scan_session_directory fs (Some X11_SESSION_DIR) SESSION_X11 [] 0 e g)
    as [[[r1 sess1] cnt1] g1].
  cbv zeta in Hx11. cbn [fst snd] in Hx11.
  destruct Hx11 as (Hr1 & Hok1 & Hcnt1 & _ & Hty1); [lia|].
  destruct (r1 =? KIA_SUCCESS) eqn:Hs1; cbn [negb];
    [|unfold_M; cbn [fst snd]; apply Hfreed, Hok1].
  pose proof (scan_session_directory_catalog fs WAYLAND_SESSION_DIR
                SESSION_WAYLAND sess1 cnt1 e g1 Hdirs Hok1) as Hwl.
  destruct (scan_session_directory fs (Some WAYLAND_SESSION_DIR)
              SESSION_WAYLAND sess1 cnt1 e g1) as [[[r2 sess2] cnt2] g2].
  cbv zeta in Hwl. cbn [fst snd] in Hwl.
  destruct Hwl as (Hr2 & Hok2 & Hcnt2 & Hold2 & Hty2); [lia|].
  destruct (r2 =? KIA_SUCCESS) eqn:Hs2; cbn [negb];
    [|unfold_M; cbn [fst snd]; apply Hfreed, Hok2].
  assert (Horder : exists k, 0 <= k <= cnt2 /\
    forall i s, sess2 !! i = Some s ->
      ((i < Z.to_nat k)%nat -> type s = SESSION_X11) /\
      ((Z.to_nat k <= i < Z.to_nat cnt2)%nat -> type s = SESSION_WAYLAND)).
  { exists cnt1. split; [lia|]. intros i s Hlook. split.
    - intros Hi. apply (Hty1 i); [lia|]. rewrite <- Hold2 by lia. exact Hlook.
    - intros Hi. apply (Hty2 i); [lia|exact Hlook]. }
  destruct (cnt2 =? 0) eqn:Hzero; unfold_M; cbn [fst snd];
    eexists; (split; [reflexivity|]); cbn [sessions count];
    (split; [exact Hok2|]); (split; [|exact Horder]).
  - right. split; [reflexivity|]. apply Z.eqb_eq, Hzero.
  - left. split; [reflexivity|]. apply Z.eqb_neq in Hzero. lia.
Qed.

(** X9.  [session_discover] succeeds exactly when it leaves a catalog
    that is not empty, and fails with [KIA_ERROR_SESSION] and a count
    of 0 otherwise; in both cases the array holds at least [count]
    records and each of the first [count] has a name of 1 to 255 bytes
    and a command of 1 to 511 bytes, so none of them is turned down by
    the checks of [session_start]. *)
Theorem session_discover_catalog fs list e g :
  directories_countable fs ->
  let out := (session_discover fs (Some list) e g).1 in
  exists l,
    out.2 = Some l /\
    (out.1 = KIA_SUCCESS /\ 0 < count l \/
     out.1 = KIA_ERROR_SESSION /\ count l = 0) /\
    (Z.to_nat (count l) <= List.length (sessions l))%nat /\
    forall i s, (i < Z.to_nat (count l))%nat -> sessions l !! i = Some s ->
      session_usable s.
Proof.
  intros Hdirs.
  destruct (session_discover_run fs list e g Hdirs)
    as (l & Hout & (_ & Hlen & Husable) & Hcode & _).
  exists l. auto.
Qed.

(** X10.  The catalog [session_discover] builds lists the X11 sessions
    first and the Wayland sessions after them: some index splits the
    first [count] records into the two kinds. *)
Theorem session_discover_order fs list e g :
  directories_countable fs ->
  let out := (session_discover fs (Some list) e g).1 in
  exists l k,
    out.2 = Some l /\ 0 <= k <= count l /\
    forall i s, sessions l !! i = Some s ->
      ((i < Z.to_nat k)%nat -> type s = SESSION_X11) /\
      ((Z.to_nat k <= i < Z.to_nat (count l))%nat -> type s = SESSION_WAYLAND).
Proof.
  intros Hdirs.
  destruct (session_discover_run fs list e g Hdirs)
    as (l & Hout & _ & _ & k & Hk & Horder).
  exists l, k. auto.
Qed.

Lemma example_fs_countable : directories_countable example_fs.
Proof.
  intros path dir. unfold example_fs. cbn [fs_opendir].
  destruct (String.eqb path X11_SESSION_DIR);
    [|destruct (String.eqb path WAYLAND_SESSION_DIR)];
    intros Hdir; try discriminate; injection Hdir as <-; cbn; lia.
Qed.

(** The discovery test on the model: one descriptor in each directory
    gives a catalog of two, the X11 session first. *)
Example session_discover_example :
  (session_discover example_fs (Some {| sessions := []; count := 0 |})
     example_env example_globals).1
  = (KIA_SUCCESS, Some example_catalog).
Proof. vm_compute. reflexivity. Qed.

Lemma session_discover_catalog_witness :
  directories_countable example_fs /\
  exists l,
    (session_discover example_fs (Some {| sessions := []; count := 0 |})
       example_env example_globals).1.2 = Some l /\
    (Z.to_nat (count l) <= List.length (sessions l))%nat.
Proof.
  split; [exact example_fs_countable|].
  destruct (session_discover_catalog example_fs
              {| sessions := []; count := 0 |} example_env example_globals
              example_fs_countable) as (l & Hout & _ & Hlen & _).
  exists l. split; [exact Hout|exact Hlen].
Defined.

Lemma session_discover_order_witness :
  directories_countable example_fs /\
  exists l k,
    (session_discover example_fs (Some {| sessions := []; count := 0 |})
       example_env example_globals).1.2 = Some l /\
    0 <= k <= count l.
Proof.
  split; [exact example_fs_countable|].
  destruct (session_discover_order example_fs
              {| sessions := []; count := 0 |} example_env example_globals
              example_fs_countable) as (l & k & Hout & Hk & _).
  exists l, k. split; [exact Hout|exact Hk].
Defined.

End SessionCatalog.

Section Terminal.

Implicit Types (buf : list ascii) (e : env) (g : globals).

(** X11.  [secure_memzero] writes what [memset] with 0 writes: zeros
    over the first [len] bytes of the array and nothing beyond, so the
    array keeps its length. *)
Theorem secure_memzero_memset0 buf (len : nat) :
  secure_memzero buf len = memset0 buf len /\
  List.length (secure_memzero buf len) = List.length buf /\
  (forall i, (i < len)%nat -> (i < List.length buf)%nat ->
     secure_memzero buf len !! i = Some zero) /\
  (forall i, (len <= i)%nat -> secure_memzero buf len !! i = buf !! i).
Proof.
  assert (Heq : forall b n, secure_memzero b n = memset0 b n).
  { induction b as [|c b IH]; intros [|n]; try reflexivity.
    cbn [secure_memzero]. rewrite IH. reflexivity. }
  rewrite Heq. unfold memset0. split; [reflexivity|].
  split; [|split].
  - rewrite length_app, length_replicate, length_drop. lia.
  - intros i Hlen Hi. rewrite lookup_app_l by (rewrite length_replicate; lia).
    apply lookup_replicate_2. lia.
  - intros i Hi. destruct (decide (len <= List.length buf)%nat) as [Hle|Hgt].
    + rewrite lookup_app_r by (rewrite length_replicate; lia).
      rewrite length_replicate, lookup_drop. f_equal. lia.
    + rewrite drop_ge, app_nil_r by lia.
      rewrite lookup_ge_None_2 by (rewrite length_replicate; lia).
      symmetry. apply lookup_ge_None_2. lia.
Qed.

Lemma buf_str_length_le buf : forall n : nat,
  buf !! n = Some zero -> (String.length (buf_str buf) <= n)%nat.
Proof.
  induction buf as [|c buf IH]; intros n Hn; [discriminate|].
  cbn [buf_str]. destruct (Ascii.eqb c zero) eqn:Hc; [cbn; lia|].
  destruct n as [|n]; cbn in Hn.
  - injection Hn as ->. discriminate.
  - cbn [String.length]. specialize (IH n Hn). lia.
Qed.

Lemma buf_str_nonempty buf :
  buf !! 0%nat <> Some zero -> buf <> [] ->
  (0 < String.length (buf_str buf))%nat.
Proof.
  destruct buf as [|c buf]; [congruence|]. intros Hc _.
  cbn [buf_str]. destruct (Ascii.eqb c zero) eqn:Heq.
  - apply Ascii.eqb_eq in Heq. subst c. contradiction Hc. reflexivity.
  - cbn. lia.
Qed.

Lemma field_ok_length buf pos :
  field_ok buf pos ->
  (String.length (buf_str buf) <= 20)%nat /\
  (0 < pos -> (0 < String.length (buf_str buf))%nat).
Proof.
  intros (Hlen & Hpos & Hzero & Hfirst). split.
  - assert (String.length (buf_str buf) <= Z.to_nat pos)%nat; [|lia].
    apply buf_str_length_le, Hzero. lia.
  - intros Hp. apply buf_str_nonempty; [apply Hfirst, Hp|].
    destruct buf; [discriminate|congruence].
Qed.

(** X12.  When [tui_get_credentials] reads into two 256-byte arrays and
    returns [KIA_SUCCESS], the identity it leaves is 1 to 20 bytes long
    and the secret at most 20: the login screen takes no more than 20
    characters in either field. *)
Theorem tui_get_credentials_lengths username password e g :
  List.length username = 256%nat ->
  List.length password = 256%nat ->
  let out := (tui_get_credentials username 256 password 256 e g).1 in
  out.1.1 = KIA_SUCCESS ->
  (1 <= String.length (buf_str out.1.2) <= 20)%nat /\
  (String.length (buf_str out.2) <= 20)%nat.
Proof.
  intros Hu Hp. cbv zeta. unfold tui_get_credentials. unfold_M.
  cbn -[memset0 tui_get_credentials_loop].
  destruct (negb (stdscr_ok (g_screen g))); [discriminate|].
  destruct (_ || _); [discriminate|].
  cbn -[memset0 tui_get_credentials_loop].
  destruct (tui_get_credentials_loop _ _ _ _ _ _ _ _)
    as [[[r username'] password'] rest] eqn:Hloop.
  cbn. intros Hr.
  apply tui_get_credentials_loop_ok in Hloop; try assumption.
  - destruct Hloop as [(upos & Hupos & Huok) (ppos & Hpok)].
    apply field_ok_length in Huok, Hpok.
    destruct Huok as [Hule Hupos']. destruct Hpok as [Hple _].
    specialize (Hupos' Hupos). lia.
  - rewrite memset0_all by exact Hu. apply field_ok_clear.
  - rewrite memset0_all by exact Hp. apply field_ok_clear.
Qed.

Lemma tui_get_credentials_lengths_witness :
  let out := (tui_get_credentials (buffer_of "") 256 (buffer_of "") 256
                example_env
                (globals_init {| stdscr_ok := true; max_y := 24; max_x := 80 |}
                   [key 97; key 9; key 115; key 10])).1 in
  (1 <= String.length (buf_str out.1.2) <= 20)%nat /\
  (String.length (buf_str out.2) <= 20)%nat.
Proof.
  apply (tui_get_credentials_lengths (buffer_of "") (buffer_of "") example_env
           (globals_init {| stdscr_ok := true; max_y := 24; max_x := 80 |}
              [key 97; key 9; key 115; key 10])).
  - reflexivity.
  - reflexivity.
  - reflexivity.
Defined.

Lemma tui_select_session_loop_index input : forall cnt selected,
  let r := (tui_select_session_loop input cnt selected).1 in
  r = -1 \/ 0 <= r < cnt.
Proof.
  induction input as [|i input IH]; intros cnt selected; cbv zeta;
    cbn [tui_select_session_loop]; [left; reflexivity|].
  repeat match goal with
         | |- context [if ?c then _ else _] =>
             lazymatch c with
             | context [if _ then _ else _] => fail
             | _ => destruct c eqn:?
             end
         end; cbn [fst]; Zbool;
    try (left; reflexivity); try (right; lia); apply IH.
Qed.

(** X13.  [tui_select_session] returns -1 or an index into the first
    [count] records of the catalog, whatever keys arrive; when the
    first key is Enter on a screen of at least 10 by 60, it returns the
    default index if that is within the catalog, and 0 otherwise. *)
Theorem tui_select_session_index (l : session_list_t) (default_idx : Z) e g :
  let r := (tui_select_session (Some l) default_idx e g).1 in
  (r = -1 \/ 0 <= r < count l) /\
  (forall i rest,
     g_input g = i :: rest -> in_refresh_ok i = true ->
     in_key i = 10 \/ in_key i = KEY_ENTER ->
     stdscr_ok (g_screen g) = true ->
     10 <= max_y (g_screen g) -> 60 <= max_x (g_screen g) ->
     sessions l <> [] -> 0 < count l ->
     r = if (default_idx >=? 0) && (default_idx <? count l)
         then default_idx else 0).
Proof.
  cbv zeta. unfold tui_select_session. split.
  - destruct (count l =? 0); [left; reflexivity|].
    destruct (sessions l); [left; reflexivity|].
    unfold_M. cbn -[tui_select_session_loop].
    destruct (negb (stdscr_ok (g_screen g))); [left; reflexivity|].
    destruct (_ || _); [left; reflexivity|].
    cbn -[tui_select_session_loop].
    match goal with
    | |- context [tui_select_session_loop ?i ?c ?s] =>
        pose proof (tui_select_session_loop_index i c s) as Hloop;
        destruct (tui_select_session_loop i c s) as [r rest]
    end.
    exact Hloop.
  - intros i rest Hinput Hrefresh Hkey Hscr Hy Hx Hsess Hcount.
    replace (count l =? 0) with false by (symmetry; apply Z.eqb_neq; lia).
    destruct (sessions l); [contradiction|].
    unfold_M. cbn -[tui_select_session_loop].
    rewrite Hscr. cbn [negb].
    replace (max_y (g_screen g) <? 10) with false
      by (symmetry; apply Z.ltb_ge; lia).
    replace (max_x (g_screen g) <? 60) with false
      by (symmetry; apply Z.ltb_ge; lia).
    cbn -[tui_select_session_loop]. rewrite Hinput.
    cbn [tui_select_session_loop]. rewrite Hrefresh. cbn [negb].
    assert (Herr : (in_key i =? ERR) = false)
      by (destruct Hkey as [-> | ->]; reflexivity).
    assert (Henter : ((in_key i =? 10) || (in_key i =? KEY_ENTER)) = true)
      by (destruct Hkey as [-> | ->]; reflexivity).
    rewrite Herr, Henter.
    destruct ((default_idx >=? 0) && (default_idx <? count l)) eqn:Hdef.
    + rewrite Hdef. reflexivity.
    + replace ((0 >=? 0) && (0 <? count l)) with true
        by (symmetry; apply andb_true_iff; split;
            [reflexivity|apply Z.ltb_lt; lia]).
      reflexivity.
Qed.

End Terminal.

Section DefaultSession.

Implicit Types (s : session_info_t) (e : env) (g : globals).

Lemma find_session_from_spec (l : list session_info_t) (d : string) :
  forall i0,
  match find_session_from l d i0 with
  | Some i =>
      exists (k : nat) s,
        i = i0 + Z.of_nat k /\ l !! k = Some s /\ name s = d /\ d <> "" /\
        forall j s', (j < k)%nat -> l !! j = Some s' ->
          name s' <> d \/ d = ""
  | None => forall k s, l !! k = Some s -> name s <> d \/ d = ""
  end.
Proof.
  induction l as [|s l IH]; intros i0; cbn [find_session_from].
  - intros k s Hk. discriminate.
  - destruct (negb (String.eqb (name s) "") && (strcmp (name s) d =? 0))
      eqn:Hmatch.
    + apply andb_true_iff in Hmatch as [Hne Heq].
      apply strcmp_eq in Heq. apply negb_true_iff, String.eqb_neq in Hne.
      exists 0%nat, s. split; [lia|]. split; [reflexivity|].
      split; [exact Heq|]. split; [congruence|]. intros j s' Hj. lia.
    + assert (Hs : name s <> d \/ d = "").
      { apply andb_false_iff in Hmatch as [Hempty|Hdiff].
        - apply negb_false_iff, String.eqb_eq in Hempty.
          destruct (decide (d = "")) as [->|Hd]; [right; reflexivity|].
          left. congruence.
        - left. intros Heq. apply strcmp_eq in Heq. congruence. }
      specialize (IH (i0 + 1)).
      destruct (find_session_from l d (i0 + 1)) as [i|].
      * destruct IH as (k & s1 & -> & Hk & Hname & Hd & Hfirst).
        exists (S k), s1. split; [lia|]. split; [exact Hk|].
        split; [exact Hname|]. split; [exact Hd|].
        intros [|j] s' Hj Hlook; cbn in Hlook.
        -- injection Hlook as <-. exact Hs.
        -- apply (Hfirst j); [lia|exact Hlook].
      * intros [|k] s' Hlook; cbn in Hlook.
        -- injection Hlook as <-. exact Hs.
        -- apply (IH k), Hlook.
Qed.

(** X14.  [find_default_session] always returns an index a non-empty
    catalog has, so the callers' range check after it cannot fail; a
    result other than 0 is the index of a record with the default
    name; and when the default name is not empty and one of the first
    [count] records has it, the result is the index of the first such
    record. *)
Theorem find_default_session_index
    (l : session_list_t) (default_name : string) e g :
  let i := (find_default_session (Some l) (Some default_name) e g).1 in
  0 <= i /\
  (0 < count l -> i < count l) /\
  (i <> 0 ->
   exists s, sessions l !! Z.to_nat i = Some s /\ name s = default_name) /\
  (forall (j : nat) s,
     (j < Z.to_nat (count l))%nat -> sessions l !! j = Some s ->
     name s = default_name -> default_name <> "" ->
     (Z.to_nat i <= j)%nat /\
     exists s', sessions l !! Z.to_nat i = Some s' /\ name s' = default_name).
Proof.
  cbv zeta. unfold find_default_session.
  destruct (sessions l) as [|s0 rest] eqn:Hsess.
  { cbn. split; [lia|]. split; [lia|]. split; [congruence|].
    intros j s Hj Hlook. destruct j; discriminate. }
  destruct (count l <=? 0) eqn:Hcount.
  { cbn. apply Z.leb_le in Hcount. split; [lia|]. split; [lia|].
    split; [congruence|]. intros j s Hj. lia. }
  apply Z.leb_gt in Hcount.
  destruct default_name as [|c d].
  { cbn. split; [lia|]. split; [lia|]. split; [congruence|].
    intros j s Hj Hlook Hname Hd. congruence. }
  pose proof (find_session_from_spec (take (Z.to_nat (count l)) (s0 :: rest))
                (String c d) 0) as Hfind.
  destruct (find_session_from _ _ 0) as [i|].
  - destruct Hfind as (k & s & -> & Hk & Hname & _ & Hfirst).
    cbn [fst mret M_ret]. unfold mret, M_ret. cbn [fst].
    apply lookup_take_Some in Hk as [Hk Hlt].
    rewrite Z.add_0_l, Nat2Z.id.
    split; [lia|]. split; [lia|]. split; [exists s; auto|].
    intros j s' Hj Hlook Hname' _. split.
    + destruct (decide (k <= j)%nat) as [Hle|Hgt]; [exact Hle|].
      destruct (Hfirst j s') as [Hne|Hempty]; [lia| |congruence|discriminate].
      apply lookup_take_Some. split; [exact Hlook|lia].
    + exists s. auto.
  - unfold_M. cbn [fst].
    split; [lia|]. split; [lia|]. split; [congruence|].
    intros j s Hj Hlook Hname _.
    destruct (Hfind j s) as [Hne|Hempty]; [|congruence|discriminate].
    apply lookup_take_Some. split; [exact Hlook|lia].
Qed.

End DefaultSession.

Section SessionParent.

Implicit Types (session : session_info_t) (e : env) (g : globals).

Ltac child_run :=
  repeat (first
    [ match goal with
      | H : k_setgid _ _ _ = _ |- _ => rewrite H
      | H : k_setuid _ _ _ = _ |- _ => rewrite H
      end
    | match goal with
      | |- context [if ?c then _ else _] =>
          lazymatch c with
          | context [if _ then _ else _] => fail
          | _ => destruct c eqn:?
          end
      end ]; cbn).

(** The child ends in one of two ways: it exits with [EXIT_FAILURE], or
    it becomes the session with the identity of the account, after the
    whole setup and nothing else. *)
Lemma session_start_child_run
    session (user home shell : string) (pw : passwd) (kr : kernel) (c : creds) :
  let out := run_child (session_start_child session user home shell pw) kr
               {| p_creds := c; p_trace := [] |} in
  out.1 = Exited EXIT_FAILURE \/
  exists file argv launch,
    out.1 = Replaced file argv /\
    creds_match pw (p_creds out.2) /\
    In launch (session_launches session) /\
    p_trace out.2 = (session_setup session user home shell pw ++ launch)%list /\
    List.last launch (SysLog LOG_ERROR "") = SysExeclp file argv true.
Proof.
  unfold run_child, session_start_child, creds_match, session_setup,
    session_launches, setenv, chdir, setgid, setuid, getuid, geteuid, getgid,
    getegid, execlp, child_log, sys_emit, exit.
  unfold mbind, mret, Child_bind, Child_ret. cbn.
  destruct (k_setgid kr (pw_gid pw) c) as [rg cg] eqn:Hsetgid; cbn.
  destruct (k_setuid kr (pw_uid pw) cg) as [ru cu] eqn:Hsetuid; cbn.
  destruct (type session); cbn.
  all: child_run.
  all: try (left; reflexivity).
  all: right; Zbool; subst;
    repeat match goal with
           | H : k_setenv _ _ _ = 0 |- _ => rewrite H
           | H : k_chdir _ _ = 0 |- _ => rewrite H
           end;
    eexists _, _, _; (split; [reflexivity|]);
    (split; [cbn; repeat split; lia|]).
  all: first
    [ split; [left; reflexivity|]; split; reflexivity
    | split; [right; left; reflexivity|]; split; reflexivity ].
Qed.

(** X15.  A session that starts has the whole setup behind it and nothing
    else: when the child of [session_start] becomes the session, its
    calls were, in this order and each with success, the four or six
    [setenv] (HOME, USER, LOGNAME, SHELL, the session type and the
    display), [chdir] to the home directory, [setgid], [setuid], and
    then [execlp]: of [startx], or of the shell with the session's
    command (for X11 after a failed [startx]). *)
Theorem session_start_child_setup
    session (user home shell : string) (pw : passwd) (kr : kernel) (c : creds) :
  let out := run_child (session_start_child session user home shell pw) kr
               {| p_creds := c; p_trace := [] |} in
  forall file argv,
    out.1 = Replaced file argv ->
    exists launch,
      In launch (session_launches session) /\
      p_trace out.2 = (session_setup session user home shell pw ++ launch)%list /\
      List.last launch (SysLog LOG_ERROR "") = SysExeclp file argv true.
Proof.
  cbv zeta. intros file argv Hend.
  destruct (session_start_child_run session user home shell pw kr c)
    as [Hexit | (file' & argv' & launch & Hrep & _ & Hin & Htrace & Hlast)].
  - rewrite Hexit in Hend. discriminate.
  - rewrite Hrep in Hend. injection Hend as <- <-.
    exists launch. auto.
Qed.

Lemma session_start_child_setup_witness :
  exists launch,
    In launch (session_launches example_session) /\
    p_trace (run_child (session_start_child example_session "alice"
                          "/home/alice" "/bin/bash" example_passwd)
               example_kernel {| p_creds := root_creds; p_trace := [] |}).2
    = (session_setup example_session "alice" "/home/alice" "/bin/bash"
         example_passwd ++ launch)%list.
Proof.
  destruct (session_start_child_setup example_session "alice" "/home/alice"
              "/bin/bash" example_passwd example_kernel root_creds
              "startx" ["startx"; "startxfce4"])
    as (launch & Hin & Htrace & _).
  - reflexivity.
  - exists launch. split; [exact Hin|exact Htrace].
Defined.

Lemma session_start_code os (session : option session_info_t)
    (user : option string) e g :
  (session_start os session user e g).1 = KIA_SUCCESS \/
  (session_start os session user e g).1 = KIA_ERROR_SESSION.
Proof.
  unfold session_start.
  destruct session as [session|], user as [user|];
    try (right; reflexivity).
  destruct (String.eqb user ""); [right; reflexivity|].
  destruct (_ || _); [right; reflexivity|].
  destruct (os_getpwnam os user) as [pw|];
    [|destruct (negb (os_errno os =? 0)); right; reflexivity].
  destruct (pw_dir pw) as [[|c home]|]; try (right; reflexivity).
  destruct (pw_shell pw) as [[|c' shell]|];
    unfold_M; cbn -[run_child session_start_child];
    (destruct (os_fork os <? 0); [right; reflexivity|]);
    destruct (run_child _ _ _) as [stop p'];
    cbn -[run_child session_start_child];
    (destruct (os_waitpid os <? 0); [right; reflexivity|]);
    (destruct stop as [status|file argv];
     [|destruct (os_session_status os)]);
    cbn; try destruct (negb (_ =? 0)); cbn;
    (left; reflexivity) || (right; reflexivity).
Qed.

(** X16.  [session_start] reports [KIA_SUCCESS] only when a session ran:
    the user name is not empty and has an account with a home
    directory, the fork and the wait succeeded, the child became the
    session (it did not exit on the way) with real and effective user
    and group id equal to the account's, and the wait status of the
    session is an exit with status 0 or one that is neither an exit
    nor a death by signal, which the last two tests of [session_start]
    let through.  Every other outcome is [KIA_ERROR_SESSION]. *)
Theorem session_start_success
    os (session : option session_info_t) (user : option string) e g :
  let r := (session_start os session user e g).1 in
  (r = KIA_SUCCESS \/ r = KIA_ERROR_SESSION) /\
  (r = KIA_SUCCESS ->
   exists s u pw home shell file argv p',
     session = Some s /\ user = Some u /\ u <> "" /\
     os_getpwnam os u = Some pw /\ pw_dir pw = Some home /\ home <> "" /\
     0 <= os_fork os /\ 0 <= os_waitpid os /\
     run_child (session_start_child s u home shell pw) (os_kernel os)
       {| p_creds := os_creds os; p_trace := [] |}
     = (Replaced file argv, p') /\
     creds_match pw (p_creds p') /\
     (os_session_status os = WEXITED 0 \/ os_session_status os = WOTHER)).
Proof.
  cbv zeta. split; [apply session_start_code|].
  unfold session_start.
  destruct session as [s|], user as [u|]; try discriminate.
  destruct (String.eqb u "") eqn:Hu; [discriminate|].
  apply String.eqb_neq in Hu.
  destruct (_ || _); [discriminate|].
  destruct (os_getpwnam os u) as [pw|] eqn:Hpw;
    [|destruct (negb (os_errno os =? 0)); discriminate].
  destruct (pw_dir pw) as [[|c home]|] eqn:Hdir; try discriminate.
  assert (Hgoal : forall shell g0,
    ((if os_fork os <? 0
      then logger_log LOG_ERROR "Failed to fork: %s";;
           mret KIA_ERROR_SESSION
      else
        let '(stop, _) :=
          run_child (session_start_child s u (String c home) shell pw)
            (os_kernel os) {| p_creds := os_creds os; p_trace := [] |} in
        logger_log LOG_INFO "Session started with PID %d";;
        (if os_waitpid os <? 0
         then logger_log LOG_ERROR "Failed to wait for child process: %s";;
              mret KIA_ERROR_SESSION
         else
           match
             match stop with
             | Exited status => WEXITED (status `mod` 256)
             | Replaced _ _ => os_session_status os
             end
           with
           | WEXITED exit_status =>
               logger_log LOG_INFO "Session exited with status %d";;
               (if negb (exit_status =? 0) then mret KIA_ERROR_SESSION
                else mret KIA_SUCCESS)
           | WSIGNALED _ =>
               logger_log LOG_WARN "Session terminated by signal %d";;
               mret KIA_ERROR_SESSION
           | WOTHER => mret KIA_SUCCESS
           end)) e g0).1 = KIA_SUCCESS ->
    exists s0 u0 pw0 home0 shell0 file argv p',
      Some s = Some s0 /\ Some u = Some u0 /\ u0 <> "" /\
      os_getpwnam os u0 = Some pw0 /\ pw_dir pw0 = Some home0 /\ home0 <> "" /\
      0 <= os_fork os /\ 0 <= os_waitpid os /\
      run_child (session_start_child s0 u0 home0 shell0 pw0) (os_kernel os)
        {| p_creds := os_creds os; p_trace := [] |}
      = (Replaced file argv, p') /\
      creds_match pw0 (p_creds p') /\
      (os_session_status os = WEXITED 0 \/ os_session_status os = WOTHER)).
  { intros shell g0.
    destruct (os_fork os <? 0) eqn:Hfork; [discriminate|].
    pose proof (session_start_child_run s u (String c home) shell pw
                  (os_kernel os) (os_creds os)) as Hchild.
    destruct (run_child _ _ _) as [stop p'] eqn:Hrun.
    cbv zeta in Hchild. cbn [fst snd] in Hchild.
    unfold_M. cbn -[run_child session_start_child].
    destruct (os_waitpid os <? 0) eqn:Hwait; [discriminate|].
    Zbool.
    destruct Hchild as [-> | (file & argv & launch & -> & Hcreds & _)].
    { cbn. discriminate. }
    intros Hok.
    exists s, u, pw, (String c home), shell, file, argv, p'.
    repeat (split; [first [reflexivity | assumption | discriminate | lia]|]).
    destruct (os_session_status os) as [code|sig|]; cbn in Hok.
    - destruct (code =? 0) eqn:Hcode; cbn in Hok; [|discriminate].
      apply Z.eqb_eq in Hcode. subst code. left. reflexivity.
    - discriminate.
    - right. reflexivity. }
  destruct (pw_shell pw) as [[|c' shell]|];
    unfold mbind at 1, M_bind at 1; unfold logger_log at 1 2, emit at 1 2;
    unfold mbind at 1, M_bind at 1; cbn [mret M_ret];
    unfold mbind at 1, M_bind at 1.
  all: apply Hgoal.
Qed.

End SessionParent.

Section StateMachine.

Implicit Types (ctx : app_context_t) (e : env) (g : globals) (sys : system).

Lemma tui_get_credentials_loop_code input :
  forall user_len pass_len username password current_field
         username_pos password_pos,
  let r := (tui_get_credentials_loop input user_len pass_len username password
              current_field username_pos password_pos).1.1.1 in
  r = KIA_SUCCESS \/ r = KIA_ERROR_SYSTEM.
Proof.
  induction input as [|i input IH];
    intros user_len pass_len username password current_field
           username_pos password_pos; cbv zeta;
    cbn -[memset0 secure_memzero Z.to_nat]; [right; reflexivity|].
  repeat match goal with
         | |- context [if ?c then _ else _] =>
             lazymatch c with
             | context [if _ then _ else _] => fail
             | _ => destruct c
             end
         end;
    cbn [fst]; first [left; reflexivity | right; reflexivity | apply IH].
Qed.

Lemma tui_get_credentials_code username user_len password pass_len e g :
  let r := (tui_get_credentials username user_len password pass_len e g).1.1.1 in
  r = KIA_SUCCESS \/ r = KIA_ERROR_SYSTEM.
Proof.
  cbv zeta. unfold tui_get_credentials.
  destruct (_ || _); [right; reflexivity|].
  unfold_M. cbn -[memset0 tui_get_credentials_loop].
  destruct (negb _); [right; reflexivity|].
  destruct (_ || _); [right; reflexivity|].
  cbn -[memset0 tui_get_credentials_loop].
  match goal with
  | |- context [tui_get_credentials_loop ?i ?ul ?pl ?u ?p ?f ?up ?pp] =>
      pose proof (tui_get_credentials_loop_code i ul pl u p f up pp) as Hloop;
      destruct (tui_get_credentials_loop i ul pl u p f up pp)
        as [[[r u'] p'] rest]
  end.
  exact Hloop.
Qed.

(** Run a handler: name the outcome of each call it makes and split on
    each test. *)
Ltac handler_run :=
  unfold mbind, M_bind, mret, M_ret, logger_log, emit; cbn beta;
  repeat (match goal with
          | |- context [match ?x with pair _ _ => _ end] =>
              lazymatch x with
              | pair _ _ => fail
              | context [match _ with pair _ _ => _ end] => fail
              | context [if _ then _ else _] => fail
              | _ => destruct x as [? ?] eqn:?
              end
          | |- context [if ?c then _ else _] =>
              lazymatch c with
              | context [if _ then _ else _] => fail
              | context [match _ with pair _ _ => _ end] => fail
              | _ => destruct c eqn:?
              end
          end; cbn beta iota).

(** Every handler follows an edge of the state machine and leaves the
    run flag alone. *)
Lemma controller_step_edge sys ctx (result : Z) e g :
  let out := (controller_step sys ctx result e g).1 in
  transition_allowed (ctx_state ctx) (ctx_state out.2) out.1 = true /\
  ctx_running out.2 = ctx_running ctx.
Proof.
  cbv zeta. unfold controller_step.
  destruct (ctx_state ctx) eqn:Hstate.
  - unfold handle_init, auth_init, tui_init.
    destruct (sys_initscr sys) as [[lines cols]|];
      unfold set_screen; handler_run; try discriminate; cbn; split; reflexivity.
  - unfold handle_load_config.
    destruct (config_load _ _ _) as [r config].
    handler_run; cbn [fst snd set_ctx_state ctx_state ctx_running
                      transition_allowed set_ctx_sessions set_ctx_config];
      split; reflexivity.
  - unfold handle_check_autologin.
    handler_run; cbn [fst snd set_ctx_state ctx_state ctx_running
                      transition_allowed set_ctx_sessions set_ctx_config
                      set_ctx_credentials set_ctx_selected_session];
      split; reflexivity.
  - unfold handle_show_login, tui_draw_login_screen. handler_run.
    cbn. split; reflexivity.
  - unfold handle_get_credentials.
    pose proof (tui_get_credentials_code (ctx_username ctx) 256
                  (ctx_password ctx) 256 e g) as Hcode.
    unfold mbind, M_bind. cbn beta.
    destruct (tui_get_credentials _ _ _ _ e g) as [[[r u] p] g1].
    cbv zeta in Hcode. cbn [fst] in Hcode.
    handler_run; cbn [fst snd set_ctx_state ctx_state ctx_running
                      transition_allowed set_ctx_credentials];
      (split; [|reflexivity]);
      destruct Hcode as [-> | ->]; try reflexivity; discriminate.
  - unfold handle_select_session.
    handler_run; cbn [fst snd set_ctx_state ctx_state ctx_running
                      transition_allowed set_ctx_selected_session];
      split; reflexivity.
  - unfold handle_authenticate.
    handler_run; cbn [fst snd set_ctx_state ctx_state ctx_running
                      transition_allowed set_ctx_credentials
                      set_ctx_auth_state];
      split; reflexivity.
  - unfold handle_start_session, tui_show_message.
    destruct ((ctx_selected_session ctx <? 0) ||
              (ctx_selected_session ctx >=? count (ctx_sessions ctx))).
    + handler_run; cbn; split; reflexivity.
    + unfold mbind, M_bind, mret, M_ret, logger_log, emit. cbn beta.
      match goal with
      | |- context [session_start ?os ?s ?u ?e ?g] =>
          pose proof (session_start_code os s u e g) as Hcode;
          destruct (session_start os s u e g) as [r g1]
      end.
      cbn [fst] in Hcode.
      destruct Hcode as [-> | ->]; handler_run; try discriminate; cbn;
        split; reflexivity.
  - cbn. rewrite Hstate. split; reflexivity.
Qed.

(** X17.  One round of [controller_run] follows an edge of the state
    machine and returns the result that goes with it: Init goes to
    LoadConfig, or to Exit with [KIA_ERROR_SYSTEM]; LoadConfig to
    CheckAutologin, or to Exit with [KIA_ERROR_SESSION]; CheckAutologin
    to StartSession or ShowLogin; ShowLogin to GetCredentials;
    GetCredentials to SelectSession or back to ShowLogin; SelectSession
    to Authenticate or back to ShowLogin; Authenticate to StartSession
    or back to ShowLogin; StartSession to Exit with [KIA_SUCCESS], or
    back to ShowLogin with [KIA_ERROR_SESSION].  No handler clears the
    run flag. *)
Theorem controller_step_transition sys ctx (result : Z) e g :
  let out := (controller_step sys ctx result e g).1 in
  let s' := ctx_state out.2 in
  let r := out.1 in
  ctx_running out.2 = ctx_running ctx /\
  match ctx_state ctx with
  | STATE_INIT =>
      s' = STATE_LOAD_CONFIG /\ r = KIA_SUCCESS \/
      s' = STATE_EXIT /\ r = KIA_ERROR_SYSTEM
  | STATE_LOAD_CONFIG =>
      s' = STATE_CHECK_AUTOLOGIN /\ r = KIA_SUCCESS \/
      s' = STATE_EXIT /\ r = KIA_ERROR_SESSION
  | STATE_CHECK_AUTOLOGIN =>
      (s' = STATE_START_SESSION \/ s' = STATE_SHOW_LOGIN) /\ r = KIA_SUCCESS
  | STATE_SHOW_LOGIN => s' = STATE_GET_CREDENTIALS /\ r = KIA_SUCCESS
  | STATE_GET_CREDENTIALS =>
      s' = STATE_SELECT_SESSION /\ r = KIA_SUCCESS \/
      s' = STATE_SHOW_LOGIN /\ (r = KIA_SUCCESS \/ r = KIA_ERROR_SYSTEM)
  | STATE_SELECT_SESSION =>
      s' = STATE_AUTHENTICATE /\ r = KIA_SUCCESS \/
      s' = STATE_SHOW_LOGIN /\ r = KIA_ERROR_SESSION
  | STATE_AUTHENTICATE =>
      (s' = STATE_START_SESSION \/ s' = STATE_SHOW_LOGIN) /\ r = KIA_SUCCESS
  | STATE_START_SESSION =>
      s' = STATE_EXIT /\ r = KIA_SUCCESS \/
      s' = STATE_SHOW_LOGIN /\ r = KIA_ERROR_SESSION
  | STATE_EXIT => s' = STATE_EXIT /\ r = result
  end.
Proof.
  cbv zeta.
  destruct (controller_step_edge sys ctx result e g) as [Hedge Hkeep].
  split; [exact Hkeep|].
  destruct (ctx_state ctx) eqn:Hs.
  9:{ unfold controller_step. rewrite Hs. cbn. auto. }
  all: destruct (ctx_state (controller_step sys ctx result e g).1.2);
    cbn [transition_allowed] in Hedge; try discriminate Hedge;
    Zbool; auto.
  apply orb_true_iff in Hedge as [Hr|Hr]; Zbool; auto.
Qed.

Lemma controller_run_loop_stops fuel sys :
  forall ctx (r0 : Z) e g r ctx' g',
  controller_run_loop fuel sys ctx r0 e g = (Some (r, ctx'), g') ->
  ctx_running ctx = true ->
  (ctx_state ctx = STATE_EXIT /\ r = r0 /\ ctx' = ctx /\ g' = g) \/
  (ctx_state ctx' = STATE_EXIT /\
   exists ctx1 r1 g1,
     ctx_state ctx1 <> STATE_EXIT /\
     controller_step sys ctx1 r1 e g1 = ((r, ctx'), g')).
Proof.
  induction fuel as [|fuel IH]; intros ctx r0 e g r ctx' g' Hrun Hrunning;
    cbn [controller_run_loop] in Hrun; rewrite Hrunning in Hrun;
    cbn [andb] in Hrun.
  - destruct (is_exit (ctx_state ctx)) eqn:Hexit; cbn [negb] in Hrun;
      [|discriminate].
    left. injection Hrun as <- <- <-.
    destruct (ctx_state ctx); try discriminate. auto.
  - destruct (is_exit (ctx_state ctx)) eqn:Hexit; cbn [negb] in Hrun.
    { left. injection Hrun as <- <- <-.
      destruct (ctx_state ctx); try discriminate. auto. }
    assert (Hstate : ctx_state ctx <> STATE_EXIT)
      by (intros Heq; rewrite Heq in Hexit; discriminate).
    unfold mbind, M_bind in Hrun.
    pose proof (controller_step_edge sys ctx r0 e g) as [_ Hkeep].
    destruct (controller_step sys ctx r0 e g) as [[r1 ctx1] g1] eqn:Hstep.
    cbn [fst snd] in Hkeep.
    destruct (negb (r1 =? KIA_SUCCESS) && is_exit (ctx_state ctx1)) eqn:Hfatal.
    + injection Hrun as <- <- <-. right.
      apply andb_true_iff in Hfatal as [_ Hexit1].
      split; [destruct (ctx_state ctx1); try discriminate; reflexivity|].
      exists ctx, r0, g. auto.
    + apply IH in Hrun; [|congruence].
      destruct Hrun as [(Hexit1 & -> & -> & ->) | Hlater].
      * right. split; [exact Hexit1|]. exists ctx, r0, g. auto.
      * right. exact Hlater.
Qed.

(** X18.  When [controller_run] returns, the state is Exit and the last
    handler was one of three: [handle_start_session] after a call of
    [session_start] that reported success, and then the result is
    [KIA_SUCCESS]; [handle_init], and then the result is
    [KIA_ERROR_SYSTEM]; or [handle_load_config], and then the result is
    [KIA_ERROR_SESSION].  Nothing that goes wrong in the login loop
    ends the run. *)
Theorem controller_run_stops (fuel : nat) sys ctx e g (r : Z) ctx' :
  ctx_running ctx = true ->
  ctx_state ctx <> STATE_EXIT ->
  (controller_run fuel sys (Some ctx) e g).1 = Some (r, Some ctx') ->
  ctx_state ctx' = STATE_EXIT /\
  exists ctx1 g1,
    (ctx_state ctx1 = STATE_START_SESSION /\ r = KIA_SUCCESS /\
     (handle_start_session sys ctx1 e g1).1 = (r, ctx') /\
     exists g2,
       (session_start (sys_os sys)
          (sessions (ctx_sessions ctx1)
             !! Z.to_nat (ctx_selected_session ctx1))
          (Some (buf_str (ctx_username ctx1))) e g2).1 = KIA_SUCCESS) \/
    (ctx_state ctx1 = STATE_INIT /\ r = KIA_ERROR_SYSTEM /\
     (handle_init sys ctx1 e g1).1 = (r, ctx')) \/
    (ctx_state ctx1 = STATE_LOAD_CONFIG /\ r = KIA_ERROR_SESSION /\
     (handle_load_config sys ctx1 e g1).1 = (r, ctx')).
Proof.
  intros Hrunning Hstate Hrun. unfold controller_run in Hrun.
  unfold mbind, M_bind, mret, M_ret in Hrun.
  destruct (controller_run_loop fuel sys ctx KIA_SUCCESS e g)
    as [[[r' ctx'']|] g'] eqn:Hloop; cbn [fst] in Hrun; [|discriminate].
  injection Hrun as <- <-.
  apply controller_run_loop_stops in Hloop; [|exact Hrunning].
  destruct Hloop as [(Hexit & _) | (Hexit & ctx1 & r1 & g1 & Hstate1 & Hstep)];
    [contradiction|].
  split; [exact Hexit|]. exists ctx1, g1.
  pose proof (controller_step_edge sys ctx1 r1 e g1) as [Hedge _].
  rewrite Hstep in Hedge. cbn [fst snd] in Hedge. rewrite Hexit in Hedge.
  unfold controller_step in Hstep.
  destruct (ctx_state ctx1) eqn:Hs1; try discriminate Hedge;
    try contradiction; apply Z.eqb_eq in Hedge.
  - right. left. rewrite Hstep. auto.
  - right. right. rewrite Hstep. auto.
  - left. split; [reflexivity|]. split; [exact Hedge|].
    rewrite Hstep. split; [reflexivity|].
    revert Hstep. unfold handle_start_session, tui_show_message.
    destruct (_ || _).
    { unfold mbind, M_bind, mret, M_ret, logger_log, emit. cbn beta.
      match goal with
      | |- context [tui_show_error ?m ?e ?g0] =>
          destruct (tui_show_error m e g0) as [[] g3]
      end.
      intros Hstep. injection Hstep as _ <- _. discriminate Hexit. }
    unfold mbind, M_bind, mret, M_ret, logger_log, emit. cbn beta.
    match goal with
    | |- context [session_start ?os ?s ?u ?e ?g0] =>
        destruct (session_start os s u e g0) as [rs g3] eqn:Hstart;
        exists g0
    end.
    rewrite Hstart. cbn [fst].
    destruct (negb (rs =? KIA_SUCCESS)) eqn:Hrs.
    + revert Hstep.
      match goal with
      | |- context [tui_show_error ?m ?e ?g0] =>
          destruct (tui_show_error m e g0) as [[] g4]
      end.
      intros Hstep. injection Hstep as _ <- _. discriminate Hexit.
    + apply negb_false_iff, Z.eqb_eq in Hrs. exact Hrs.
Qed.

(** A whole run on the example system: "alice" logs in with the
    secret the provider accepts, picks the second session, and the
    manager exits with [KIA_SUCCESS] once the session has ended. *)
Example controller_run_login :
  let out := controller_run 20 example_system (Some initial_ctx) example_env
               (globals_init {| stdscr_ok := false; max_y := 0; max_x := 0 |}
                  example_keys_login) in
  (exists ctx', out.1 = Some (KIA_SUCCESS, Some ctx') /\
     ctx_state ctx' = STATE_EXIT /\ ctx_selected_session ctx' = 1 /\
     buf_str (ctx_username ctx') = "alice" /\ zeroed (ctx_password ctx')) /\
  provider_calls (g_trace out.2)
  = [EvPamStart "kia" "alice" 0; EvPamAuthenticate "alice" "correct" 0;
     EvPamAcctMgmt "alice" 0; EvPamEnd "alice"].
Proof.
  cbv zeta. split.
  - eexists. split; [vm_compute; reflexivity|]. vm_compute. auto.
  - vm_compute. reflexivity.
Qed.

Lemma controller_run_stops_witness :
  exists ctx',
    (controller_run 20 example_system (Some initial_ctx) example_env
       (globals_init {| stdscr_ok := false; max_y := 0; max_x := 0 |}
          example_keys_login)).1 = Some (KIA_SUCCESS, Some ctx') /\
    ctx_state ctx' = STATE_EXIT.
Proof.
  assert (Hrun : exists ctx',
    (controller_run 20 example_system (Some initial_ctx) example_env
       (globals_init {| stdscr_ok := false; max_y := 0; max_x := 0 |}
          example_keys_login)).1 = Some (KIA_SUCCESS, Some ctx')).
  { eexists. vm_compute. reflexivity. }
  destruct Hrun as [ctx' Hrun]. exists ctx'. split; [exact Hrun|].
  apply (controller_run_stops 20 example_system initial_ctx example_env
           (globals_init {| stdscr_ok := false; max_y := 0; max_x := 0 |}
              example_keys_login) KIA_SUCCESS ctx').
  - reflexivity.
  - discriminate.
  - exact Hrun.
Defined.

(** X19.  [controller_cleanup] leaves nothing behind: the pending secret
    is all zeros, the catalog is released, no provider transaction is
    open and the terminal descriptor is closed, whatever state the run
    was in. *)
Theorem controller_cleanup_releases ctx e g :
  List.length (ctx_password ctx) = 256%nat ->
  let out := controller_cleanup (Some ctx) e g in
  exists ctx',
    out.1 = Some ctx' /\
    zeroed (ctx_password ctx') /\
    sessions (ctx_sessions ctx') = [] /\
    g_pam_handle out.2 = None /\
    g_tty_fd out.2 < 0.
Proof.
  intros Hlen. cbv zeta.
  unfold controller_cleanup, auth_cleanup, tui_cleanup, tty_unlock,
    config_free, session_list_free.
  unfold_M. cbn -[secure_memzero].
  assert (Hzero : zeroed (secure_memzero (ctx_password ctx) 256))
    by (unfold zeroed; apply secure_memzero_all, Hlen).
  destruct (g_pam_handle g) as [user|] eqn:Hpam; cbn -[secure_memzero];
    destruct (g_tty_fd g >=? 0) eqn:Hfd; cbn -[secure_memzero];
    try destruct (env_ioctl e VT_UNLOCKSWITCH <? 0); cbn -[secure_memzero];
    destruct (sessions (ctx_sessions ctx)) eqn:Hsess; cbn -[secure_memzero];
    eexists; (split; [reflexivity|]); cbn -[secure_memzero];
    rewrite ?Hsess; Zbool; repeat split; try exact Hzero; try exact Hpam;
    try reflexivity; lia.
Qed.

Lemma controller_cleanup_releases_witness :
  exists ctx',
    (controller_cleanup (Some example_ctx) example_env example_globals).1
    = Some ctx' /\
    zeroed (ctx_password ctx').
Proof.
  destruct (controller_cleanup_releases example_ctx example_env example_globals)
    as (ctx' & Hout & Hzero & _).
  - reflexivity.
  - exists ctx'. split; [exact Hout|exact Hzero].
Defined.

End StateMachine.

Section LoginGate.

Implicit Types (ctx : app_context_t) (e : env) (g : globals) (sys : system).

Ltac auth_paths :=
  unfold auth_authenticate, auth_is_locked_out_at, tty_lock, tty_unlock,
    auth_reset_attempts;
  unfold_M; cbn -[int_wrap time_wrap strcmp strncpy];
  repeat (match goal with
          | |- context [if ?c then _ else _] =>
              lazymatch c with
              | context [if _ then _ else _] => fail
              | _ => destruct c eqn:?
              end
          end; cbn -[int_wrap time_wrap strcmp strncpy] in * ).

(** With no lockout on record, the outcome of [auth_authenticate] is
    the provider's. *)
Lemma auth_authenticate_unlocked
    (user password : string) (config : kia_config_t) (st : auth_state_t) e g :
  lockout_until st = 0 ->
  let out := (auth_authenticate (Some user) (Some password) (Some config)
                (Some st) e g).1 in
  (out.1 = KIA_SUCCESS <-> provider_accepts e user password = true) /\
  exists st',
    out.2 = Some st' /\
    (out.1 = KIA_SUCCESS ->
     failed_attempts st' = 0 /\ lockout_until st' = 0).
Proof.
  intros Hfree. cbv zeta. unfold provider_accepts.
  auth_paths; Zbool; try congruence;
    unfold KIA_SUCCESS, KIA_ERROR_AUTH, KIA_ERROR_PAM, PAM_SUCCESS in *;
    (split; [split; [intros ?|intros ?; Zbool]|
             eexists; split; [reflexivity|intros ?]]);
    try discriminate; try congruence; try (split; reflexivity);
    repeat match goal with
           | H : _ = 0 |- _ => rewrite H
           end; reflexivity.
Qed.

(** X20.  [handle_authenticate] always returns [KIA_SUCCESS], and it
    moves to StartSession exactly when no lockout is active at the time
    of the call and the provider accepts the pending identity and
    secret at all three steps; in every other case it goes back to
    ShowLogin.  On the way to StartSession the counter and the lockout
    are cleared. *)
Theorem handle_authenticate_gate ctx e g :
  let now := env_time e (g_ticks g) in
  let st := ctx_auth_state ctx in
  let out := (handle_authenticate ctx e g).1 in
  out.1 = KIA_SUCCESS /\
  (ctx_state out.2 = STATE_START_SESSION <->
     (lockout_until st = 0 \/ lockout_until st <= now) /\
     provider_accepts e (buf_str (ctx_username ctx))
       (buf_str (ctx_password ctx)) = true) /\
  (ctx_state out.2 <> STATE_START_SESSION ->
     ctx_state out.2 = STATE_SHOW_LOGIN) /\
  (ctx_state out.2 = STATE_START_SESSION ->
     failed_attempts (ctx_auth_state out.2) = 0 /\
     lockout_until (ctx_auth_state out.2) = 0).
Proof.
  cbv zeta. unfold handle_authenticate, auth_is_locked_out.
  assert (Hgo : forall st1 g1,
    lockout_until st1 = 0 ->
    let out :=
      (('(result, st) ← auth_authenticate (Some (buf_str (ctx_username ctx)))
                          (Some (buf_str (ctx_password ctx)))
                          (Some (ctx_config ctx)) (Some st1);
        let ctx1 := set_ctx_auth_state (set_ctx_auth_state ctx st1)
                      (default st1 st) in
        let ctx2 := set_ctx_credentials ctx1 (ctx_username ctx1)
                      (secure_memzero (ctx_password ctx1) 256) in
        if result =? KIA_SUCCESS then
          logger_log LOG_INFO "User '%s' authenticated successfully";;
          mret (KIA_SUCCESS,
                set_ctx_state
                  (set_ctx_auth_state ctx2
                     (default (ctx_auth_state ctx2)
                        (auth_reset_attempts (Some (ctx_auth_state ctx2)))))
                  STATE_START_SESSION)
        else
          logger_log LOG_ERROR
            "Authentication failed for user '%s' (attempt %d/%d)";;
          tui_show_error "Authentication failed. Attempt %d of %d.";;
          mret (KIA_SUCCESS, set_ctx_state ctx2 STATE_SHOW_LOGIN)) e g1).1 in
    out.1 = KIA_SUCCESS /\
    (ctx_state out.2 = STATE_START_SESSION <->
       provider_accepts e (buf_str (ctx_username ctx))
         (buf_str (ctx_password ctx)) = true) /\
    (ctx_state out.2 <> STATE_START_SESSION ->
       ctx_state out.2 = STATE_SHOW_LOGIN) /\
    (ctx_state out.2 = STATE_START_SESSION ->
       failed_attempts (ctx_auth_state out.2) = 0 /\
       lockout_until (ctx_auth_state out.2) = 0)).
  { intros st1 g1 Hfree. cbv zeta.
    pose proof (auth_authenticate_unlocked (buf_str (ctx_username ctx))
                  (buf_str (ctx_password ctx)) (ctx_config ctx) st1 e g1 Hfree)
      as Hauth.
    unfold mbind, M_bind, mret, M_ret, logger_log, emit. cbn beta.
    destruct (auth_authenticate _ _ _ _ e g1) as [[r st'] g2].
    cbv zeta in Hauth. cbn [fst snd] in Hauth.
    destruct Hauth as (Hiff & st2 & -> & Hcleared).
    destruct (r =? KIA_SUCCESS) eqn:Hr.
    - apply Z.eqb_eq in Hr. cbn -[secure_memzero].
      split; [reflexivity|]. split; [split; [intros _; apply Hiff, Hr|reflexivity]|].
      split; [congruence|]. intros _. split; reflexivity.
    - apply Z.eqb_neq in Hr. cbn beta iota.
      match goal with
      | |- context [tui_show_error ?m ?e ?g0] =>
          destruct (tui_show_error m e g0) as [[] g3]
      end.
      cbn -[secure_memzero].
      split; [reflexivity|].
      split; [split; [discriminate|intros Hacc; apply Hiff in Hacc; contradiction]|].
      split; [reflexivity|discriminate]. }
  unfold auth_is_locked_out_at.
  destruct (lockout_until (ctx_auth_state ctx) =? 0) eqn:Hzero.
  - apply Z.eqb_eq in Hzero.
    destruct (Hgo (ctx_auth_state ctx) g Hzero) as (H1 & [H2 H2'] & H3 & H4).
    split; [exact H1|]. split; [|split; [exact H3|exact H4]].
    split; [intros Hs; split; [left; exact Hzero|exact (H2 Hs)]|].
    intros [_ Hacc]. exact (H2' Hacc).
  - apply Z.eqb_neq in Hzero.
    unfold mbind, M_bind, time_NULL. cbn beta iota.
    destruct (env_time e (g_ticks g) >=? lockout_until (ctx_auth_state ctx))
      eqn:Hexpired.
    + destruct (Hgo {| username := username (ctx_auth_state ctx);
                       failed_attempts := 0; lockout_until := 0 |}
                  {| g_ticks := S (g_ticks g); g_tty_fd := g_tty_fd g;
                     g_pam_handle := g_pam_handle g; g_screen := g_screen g;
                     g_input := g_input g;
                     g_trace := g_trace g ++ [EvTime (env_time e (g_ticks g))] |}
                  eq_refl) as (H1 & [H2 H2'] & H3 & H4).
      Zbool.
      split; [exact H1|]. split; [|split; [exact H3|exact H4]].
      split; [intros Hs; split; [right; lia|exact (H2 Hs)]|].
      intros [_ Hacc]. exact (H2' Hacc).
    + unfold mret, M_ret, logger_log, emit. cbn beta iota.
      match goal with
      | |- context [tui_show_error ?m ?e ?g0] =>
          destruct (tui_show_error m e g0) as [[] g3]
      end.
      cbn -[secure_memzero]. Zbool.
      split; [reflexivity|].
      split; [split; [discriminate|intros [[?|?] _]; lia]|].
      split; [reflexivity|discriminate].
Qed.

Lemma buf_str_c_str (s : string) : forall buf : list ascii,
  take (String.length s) buf = list_ascii_of_string s ->
  buf !! String.length s = Some zero ->
  buf_str buf = c_str s.
Proof.
  induction s as [|c s IH]; intros buf Htake Hzero; cbn in *.
  - destruct buf as [|b buf]; [reflexivity|]. cbn in Hzero.
    injection Hzero as ->. reflexivity.
  - destruct buf as [|b buf]; [discriminate|]. cbn in Htake, Hzero.
    injection Htake as -> Htake. cbn [buf_str].
    destruct (Ascii.eqb c zero); [reflexivity|].
    f_equal. apply IH; assumption.
Qed.

Lemma length_list_ascii_of_string (s : string) :
  List.length (list_ascii_of_string s) = String.length s.
Proof. induction s as [|c s IH]; cbn; [reflexivity|]. rewrite IH. reflexivity. Qed.

(** The 256-byte array after [strncpy(dst, src, 255); dst\[255\] = 0]
    holds the C string [src], when that is shorter than the array. *)
Lemma strncpy_array_str (dst : list ascii) (src : string) :
  List.length dst = 256%nat ->
  (String.length src < 256)%nat ->
  buf_str (<[255%nat := zero]> (strncpy_array dst src 255)) = c_str src.
Proof.
  intros Hdst Hsrc. unfold strncpy_array.
  pose proof (length_list_ascii_of_string src) as Hchars.
  assert (Hcopy : take 255 (list_ascii_of_string src ++ replicate 255 zero)
                  = (list_ascii_of_string src
                     ++ replicate (255 - String.length src) zero)%list).
  { rewrite take_app_ge by lia. rewrite Hchars, take_replicate.
    f_equal. f_equal. lia. }
  rewrite Hcopy.
  apply buf_str_c_str.
  - rewrite take_insert_ge by lia.
    rewrite <- app_assoc, <- Hchars. apply take_app_length.
  - destruct (decide (String.length src = 255%nat)) as [Heq|Hne].
    + rewrite Heq. apply list_lookup_insert_eq.
      rewrite !length_app, length_replicate, length_drop. lia.
    + rewrite list_lookup_insert_ne by lia.
      rewrite <- app_assoc, lookup_app_r by lia.
      rewrite Hchars, Nat.sub_diag.
      destruct (255 - String.length src)%nat as [|k] eqn:Hk; [lia|].
      reflexivity.
Qed.

Lemma provider_calls_log tr lvl fmt :
  provider_calls (tr ++ [EvLog lvl fmt]) = provider_calls tr.
Proof. unfold provider_calls. rewrite List.filter_app. cbn. apply app_nil_r. Qed.

Lemma tui_show_error_quiet message e g :
  provider_calls (g_trace (tui_show_error message e g).2)
  = provider_calls (g_trace g).
Proof.
  unfold tui_show_error. destruct (String.eqb message ""); [reflexivity|].
  unfold_M. cbn. destruct (negb _); [reflexivity|].
  destruct (_ || _); [reflexivity|]. cbn.
  unfold provider_calls. rewrite List.filter_app. cbn. apply app_nil_r.
Qed.

Lemma user_exists_quiet os username e g :
  provider_calls (g_trace (user_exists os username e g).2)
  = provider_calls (g_trace g).
Proof.
  unfold user_exists. destruct username as [[|c username]|]; try reflexivity.
  destruct (_ <? _)%nat; [reflexivity|].
  destruct (os_getpwnam os _); [reflexivity|].
  destruct (negb _); unfold_M; cbn; [apply provider_calls_log|reflexivity].
Qed.

Lemma find_default_session_quiet list default_name e g :
  provider_calls (g_trace (find_default_session list default_name e g).2)
  = provider_calls (g_trace g).
Proof.
  unfold find_default_session. destruct list as [l|]; [|reflexivity].
  destruct (sessions l); [reflexivity|].
  destruct (count l <=? 0); [reflexivity|].
  destruct default_name as [[|c d]|]; try reflexivity.
  destruct (find_session_from _ _ _); [reflexivity|].
  unfold_M. cbn. apply provider_calls_log.
Qed.

Lemma user_exists_found os username e g :
  (user_exists os username e g).1 = true ->
  exists u, username = Some u /\ is_Some (os_getpwnam os u).
Proof.
  unfold user_exists. destruct username as [[|c username]|]; try discriminate.
  destruct (_ <? _)%nat; [discriminate|].
  destruct (os_getpwnam os _) as [pw|] eqn:Hpw.
  - intros _. eexists. split; [reflexivity|]. rewrite Hpw. eexists. reflexivity.
  - destruct (negb _); unfold_M; cbn; discriminate.
Qed.

(** X21.  [handle_check_autologin] never calls the identity provider and
    never touches the pending secret; it always returns [KIA_SUCCESS]
    and goes to StartSession or to ShowLogin.  It goes to StartSession
    only when autologin is enabled, the configured user has an account,
    and the default session resolves to an index within the catalog;
    the pending identity is then the configured user. *)
Theorem handle_check_autologin_start sys ctx e g :
  List.length (ctx_username ctx) = 256%nat ->
  let config := ctx_config ctx in
  let out := (handle_check_autologin sys ctx e g).1 in
  let g' := (handle_check_autologin sys ctx e g).2 in
  out.1 = KIA_SUCCESS /\
  ctx_password out.2 = ctx_password ctx /\
  provider_calls (g_trace g') = provider_calls (g_trace g) /\
  (ctx_state out.2 = STATE_START_SESSION \/
   ctx_state out.2 = STATE_SHOW_LOGIN) /\
  (ctx_state out.2 = STATE_START_SESSION ->
     autologin_enabled config = true /\
     is_Some (os_getpwnam (sys_os sys) (autologin_user config)) /\
     buf_str (ctx_username out.2) = c_str (autologin_user config) /\
     0 <= ctx_selected_session out.2 < count (ctx_sessions out.2)).
Proof.
  intros Hlen. cbv zeta. unfold handle_check_autologin.
  destruct (autologin_enabled (ctx_config ctx) && _) eqn:Henabled.
  2:{ cbn. repeat split; try reflexivity; try discriminate.
      right. reflexivity. }
  apply andb_true_iff in Henabled as [Henabled _].
  destruct ((String.length (autologin_user (ctx_config ctx)) =? 0)%nat
            || (256 <=? String.length (autologin_user (ctx_config ctx)))%nat)
    eqn:Hfits.
  { unfold mbind, M_bind, mret, M_ret, logger_log, emit. cbn beta.
    match goal with
    | |- context [tui_show_error ?m ?e ?g0] =>
        pose proof (tui_show_error_quiet m e g0) as Hquiet;
        destruct (tui_show_error m e g0) as [[] g1]
    end.
    cbn [fst snd set_ctx_state ctx_state ctx_password ctx_username
         ctx_selected_session ctx_sessions g_trace set_ctx_credentials
         set_ctx_selected_session] in *.
    rewrite Hquiet, provider_calls_log.
    repeat split; try reflexivity; try discriminate. right. reflexivity. }
  apply orb_false_iff in Hfits as [_ Hfits]. apply Nat.leb_gt in Hfits.
  unfold mbind, M_bind. cbn beta.
  pose proof (user_exists_quiet (sys_os sys)
                (Some (autologin_user (ctx_config ctx))) e g) as Hq1.
  pose proof (user_exists_found (sys_os sys)
                (Some (autologin_user (ctx_config ctx))) e g) as Hfound.
  destruct (user_exists _ _ e g) as [found g1]. cbn [fst snd] in Hq1, Hfound.
  destruct found; cbn [negb].
  2:{ unfold mbind, M_bind, mret, M_ret, logger_log, emit. cbn beta.
      match goal with
      | |- context [tui_show_error ?m ?e ?g0] =>
          pose proof (tui_show_error_quiet m e g0) as Hquiet;
          destruct (tui_show_error m e g0) as [[] g2]
      end.
      cbn [fst snd set_ctx_state ctx_state ctx_password ctx_username
         ctx_selected_session ctx_sessions g_trace set_ctx_credentials
         set_ctx_selected_session] in *.
    rewrite Hquiet, provider_calls_log, Hq1.
      repeat split; try reflexivity; try discriminate. right. reflexivity. }
  destruct Hfound as (u & Hu & Hpw); [reflexivity|]. injection Hu as <-.
  unfold mbind, M_bind. cbn beta.
  match goal with
  | |- context [find_default_session ?l ?d e g1] =>
      pose proof (find_default_session_quiet l d e g1) as Hq2;
      destruct (find_default_session l d e g1) as [idx g2]
  end.
  cbn [fst snd] in Hq2.
  cbn [set_ctx_credentials set_ctx_selected_session ctx_sessions].
  destruct ((idx <? 0) || (idx >=? count (ctx_sessions ctx))) eqn:Hidx.
  { unfold mbind, M_bind, mret, M_ret, logger_log, emit. cbn beta.
    match goal with
    | |- context [tui_show_error ?m ?e ?g0] =>
        pose proof (tui_show_error_quiet m e g0) as Hquiet;
        destruct (tui_show_error m e g0) as [[] g3]
    end.
    cbn [fst snd set_ctx_state ctx_state ctx_password ctx_username
         ctx_selected_session ctx_sessions g_trace set_ctx_credentials
         set_ctx_selected_session] in *.
    rewrite Hquiet, provider_calls_log, Hq2, Hq1.
    repeat split; try reflexivity; try discriminate. right. reflexivity. }
  unfold_M.
  cbn [fst snd set_ctx_state ctx_state ctx_password ctx_username
       ctx_selected_session ctx_sessions g_trace].
  rewrite provider_calls_log, Hq2, Hq1.
  split; [reflexivity|]. split; [reflexivity|]. split; [reflexivity|].
  split; [left; reflexivity|]. intros _.
  split; [exact Henabled|]. split; [exact Hpw|].
  split; [apply strncpy_array_str; [exact Hlen|lia]|].
  Zbool. cbn [set_ctx_selected_session set_ctx_credentials ctx_selected_session
              ctx_sessions]. lia.
Qed.

Lemma handle_check_autologin_start_witness :
  let ctx := {| ctx_state := STATE_CHECK_AUTOLOGIN;
                ctx_config :=
                  {| autologin_user := "alice"; autologin_enabled := true;
                     default_session := "Sway"; max_attempts := 3;
                     enable_logs := true; lockout_duration := 60 |};
                ctx_auth_state := auth_state_zero;
                ctx_sessions := example_catalog;
                ctx_username := replicate 256 zero;
                ctx_password := replicate 256 zero;
                ctx_selected_session := -1;
                ctx_running := true |} in
  let out := (handle_check_autologin example_system ctx example_env
                example_globals).1 in
  ctx_state out.2 = STATE_START_SESSION /\
  buf_str (ctx_username out.2) = "alice" /\
  ctx_selected_session out.2 = 1.
Proof.
  cbv zeta.
  pose proof (handle_check_autologin_start example_system
                {| ctx_state := STATE_CHECK_AUTOLOGIN;
                   ctx_config :=
                     {| autologin_user := "alice"; autologin_enabled := true;
                        default_session := "Sway"; max_attempts := 3;
                        enable_logs := true; lockout_duration := 60 |};
                   ctx_auth_state := auth_state_zero;
                   ctx_sessions := example_catalog;
                   ctx_username := replicate 256 zero;
                   ctx_password := replicate 256 zero;
                   ctx_selected_session := -1;
                   ctx_running := true |}
                example_env example_globals eq_refl)
    as (_ & _ & _ & _ & Hstart).
  assert (Hstate :
    ctx_state
      (handle_check_autologin example_system
         {| ctx_state := STATE_CHECK_AUTOLOGIN;
            ctx_config :=
              {| autologin_user := "alice"; autologin_enabled := true;
                 default_session := "Sway"; max_attempts := 3;
                 enable_logs := true; lockout_duration := 60 |};
            ctx_auth_state := auth_state_zero;
            ctx_sessions := example_catalog;
            ctx_username := replicate 256 zero;
            ctx_password := replicate 256 zero;
            ctx_selected_session := -1;
            ctx_running := true |}
         example_env example_globals).1.2 = STATE_START_SESSION)
    by (vm_compute; reflexivity).
  destruct (Hstart Hstate) as (_ & _ & Hname & _).
  split; [exact Hstate|]. split; [exact Hname|].
  vm_compute. reflexivity.
Defined.

End LoginGate.

Section LockoutSequence.

Implicit Types (st : auth_state_t) (e : env) (g : globals).








End LockoutSequence.

Section Typing.

Implicit Types (l : list ascii) (e : env) (g : globals).

Lemma buffer_of_chars l :
  (List.length l <= 256)%nat ->
  buffer_of (string_of_list_ascii l)
  = (l ++ replicate (256 - List.length l) zero)%list.
Proof.
  intros Hlen. unfold buffer_of.
  rewrite list_ascii_of_string_of_list_ascii.
  rewrite take_app_ge by exact Hlen. rewrite take_replicate.
  f_equal. f_equal. lia.
Qed.

(** Typing a character into a field that holds [l]. *)
Lemma field_type l (c : ascii) :
  (List.length l < 255)%nat ->
  <[S (List.length l) := zero]>
    (<[List.length l := c]> (l ++ replicate (256 - List.length l) zero)%list)
  = ((l ++ [c]) ++ replicate (256 - List.length (l ++ [c])) zero)%list.
Proof.
  intros Hlen. rewrite length_app. cbn [List.length].
  replace (256 - List.length l)%nat with (S (S (254 - List.length l))) by lia.
  replace (256 - (List.length l + 1))%nat with (S (254 - List.length l)) by lia.
  cbn [replicate].
  rewrite insert_app_r_alt by lia. rewrite Nat.sub_diag. cbn [insert list_insert].
  rewrite insert_app_r_alt by lia.
  replace (S (List.length l) - List.length l)%nat with 1%nat by lia.
  cbn. rewrite <- app_assoc. reflexivity.
Qed.

Lemma field_terminate l :
  (List.length l < 256)%nat ->
  <[List.length l := zero]> (l ++ replicate (256 - List.length l) zero)%list
  = (l ++ replicate (256 - List.length l) zero)%list.
Proof.
  intros Hlen. rewrite insert_app_r_alt by lia. rewrite Nat.sub_diag.
  replace (256 - List.length l)%nat with (S (255 - List.length l)) by lia.
  reflexivity.
Qed.

(** One printable key in the loop of [tui_get_credentials]. *)
Lemma tui_get_credentials_loop_printable (ch : Z) input
    (username password : list ascii) (current_field username_pos password_pos : Z) :
  printable ch ->
  tui_get_credentials_loop (key ch :: input) 256 256 username password
    current_field username_pos password_pos
  = if (current_field =? FIELD_USERNAME) && (username_pos <? 256 - 1)
       && (username_pos <? 20)
    then
      tui_get_credentials_loop input 256 256
        (<[Z.to_nat (username_pos + 1) := zero]>
           (<[Z.to_nat username_pos := char_of_key ch]> username))
        password current_field (username_pos + 1) password_pos
    else if (current_field =? FIELD_PASSWORD) && (password_pos <? 256 - 1)
            && (password_pos <? 20)
    then
      tui_get_credentials_loop input 256 256 username
        (<[Z.to_nat (password_pos + 1) := zero]>
           (<[Z.to_nat password_pos := char_of_key ch]> password))
        current_field username_pos (password_pos + 1)
    else
      tui_get_credentials_loop input 256 256 username password
        current_field username_pos password_pos.
Proof.
  unfold printable. intros Hch.
  cbn [tui_get_credentials_loop key in_refresh_ok in_key negb].
  unfold ERR, KEY_ENTER, KEY_DOWN, KEY_UP, KEY_BACKSPACE.
  repeat match goal with
         | |- context [ch =? ?n] =>
             replace (ch =? n) with false by (symmetry; apply Z.eqb_neq; lia)
         end.
  replace (32 <=? ch) with true by (symmetry; apply Z.leb_le; lia).
  replace (ch <=? 126) with true by (symmetry; apply Z.leb_le; lia).
  cbn [orb andb]. reflexivity.
Qed.

Lemma tui_get_credentials_loop_types_username keys :
  forall l more password password_pos,
  Forall printable keys ->
  (List.length l + List.length keys <= 20)%nat ->
  tui_get_credentials_loop (map key keys ++ more)%list 256 256
    (l ++ replicate (256 - List.length l) zero)%list password
    FIELD_USERNAME (Z.of_nat (List.length l)) password_pos
  = tui_get_credentials_loop more 256 256
      ((l ++ map char_of_key keys)
       ++ replicate (256 - List.length (l ++ map char_of_key keys)) zero)%list
      password FIELD_USERNAME
      (Z.of_nat (List.length (l ++ map char_of_key keys)%list)) password_pos.
Proof.
  induction keys as [|ch keys IH]; intros l more password password_pos Hkeys Hlen.
  - cbn [map app]. rewrite app_nil_r. reflexivity.
  - apply List.Forall_cons_iff in Hkeys as [Hch Hkeys]. cbn [List.length] in Hlen.
    cbn [map app]. rewrite tui_get_credentials_loop_printable by exact Hch.
    replace (Z.of_nat (List.length l) <? 256 - 1) with true
      by (symmetry; apply Z.ltb_lt; lia).
    replace (Z.of_nat (List.length l) <? 20) with true
      by (symmetry; apply Z.ltb_lt; lia).
    cbn [Z.eqb FIELD_USERNAME andb].
    replace (Z.to_nat (Z.of_nat (List.length l) + 1)) with (S (List.length l))
      by lia.
    rewrite Nat2Z.id, field_type by lia.
    replace (Z.of_nat (List.length l) + 1)
      with (Z.of_nat (List.length (l ++ [char_of_key ch])%list))
      by (rewrite length_app; cbn; lia).
    rewrite IH by (try assumption; rewrite length_app; cbn; lia).
    replace ((l ++ [char_of_key ch]) ++ map char_of_key keys)%list
      with (l ++ char_of_key ch :: map char_of_key keys)%list
      by (rewrite <- app_assoc; reflexivity).
    reflexivity.
Qed.

Lemma tui_get_credentials_loop_types_password keys :
  forall l more username username_pos,
  Forall printable keys ->
  (List.length l + List.length keys <= 20)%nat ->
  tui_get_credentials_loop (map key keys ++ more)%list 256 256 username
    (l ++ replicate (256 - List.length l) zero)%list
    FIELD_PASSWORD username_pos (Z.of_nat (List.length l))
  = tui_get_credentials_loop more 256 256 username
      ((l ++ map char_of_key keys)
       ++ replicate (256 - List.length (l ++ map char_of_key keys)) zero)%list
      FIELD_PASSWORD username_pos
      (Z.of_nat (List.length (l ++ map char_of_key keys)%list)).
Proof.
  induction keys as [|ch keys IH]; intros l more username username_pos Hkeys Hlen.
  - cbn [map app]. rewrite app_nil_r. reflexivity.
  - apply List.Forall_cons_iff in Hkeys as [Hch Hkeys]. cbn [List.length] in Hlen.
    cbn [map app]. rewrite tui_get_credentials_loop_printable by exact Hch.
    replace (Z.of_nat (List.length l) <? 256 - 1) with true
      by (symmetry; apply Z.ltb_lt; lia).
    replace (Z.of_nat (List.length l) <? 20) with true
      by (symmetry; apply Z.ltb_lt; lia).
    cbn [Z.eqb FIELD_USERNAME FIELD_PASSWORD andb Pos.eqb].
    replace (Z.to_nat (Z.of_nat (List.length l) + 1)) with (S (List.length l))
      by lia.
    rewrite Nat2Z.id, field_type by lia.
    replace (Z.of_nat (List.length l) + 1)
      with (Z.of_nat (List.length (l ++ [char_of_key ch])%list))
      by (rewrite length_app; cbn; lia).
    rewrite IH by (try assumption; rewrite length_app; cbn; lia).
    replace ((l ++ [char_of_key ch]) ++ map char_of_key keys)%list
      with (l ++ char_of_key ch :: map char_of_key keys)%list
      by (rewrite <- app_assoc; reflexivity).
    reflexivity.
Qed.

Lemma buf_str_chars l (k : nat) :
  Forall (fun c => c <> zero) l ->
  buf_str (l ++ replicate (S k) zero)%list = string_of_list_ascii l.
Proof.
  induction 1 as [|c l Hc _ IH]; cbn [app buf_str string_of_list_ascii].
  - reflexivity.
  - destruct (Ascii.eqb c zero) eqn:Heq;
      [apply Ascii.eqb_eq in Heq; contradiction|].
    rewrite IH. reflexivity.
Qed.

Lemma buf_str_typed keys :
  Forall printable keys -> (List.length keys <= 20)%nat ->
  buf_str (buffer_of (typed keys)) = typed keys.
Proof.
  intros Hkeys Hlen. unfold typed.
  rewrite buffer_of_chars by (rewrite length_map; lia).
  rewrite length_map.
  replace (256 - List.length keys)%nat with (S (255 - List.length keys)) by lia.
  apply buf_str_chars. clear Hlen.
  induction Hkeys as [|ch keys Hch _ IH]; cbn [map]; constructor;
    [apply char_of_key_nonzero, Hch|exact IH].
Qed.

(** X23.  What is typed is what is handed over: on a screen of at least
    10 by 50, the keys of an identity of 1 to 20 printable characters,
    Tab, the keys of a secret of at most 20 printable characters and
    Enter make [tui_get_credentials] return [KIA_SUCCESS] with exactly
    the typed identity and the typed secret in the two arrays, each
    followed by zeros, and leave the keys after Enter unread. *)
Theorem tui_get_credentials_typed
    (user_keys secret_keys : list Z) (rest : list tty_input)
    (username password : list ascii) e g :
  Forall printable user_keys ->
  Forall printable secret_keys ->
  (1 <= List.length user_keys <= 20)%nat ->
  (List.length secret_keys <= 20)%nat ->
  List.length username = 256%nat ->
  List.length password = 256%nat ->
  stdscr_ok (g_screen g) = true ->
  10 <= max_y (g_screen g) ->
  50 <= max_x (g_screen g) ->
  g_input g
  = (map key user_keys ++ key 9 :: map key secret_keys ++ key 10 :: rest)%list ->
  let out := tui_get_credentials username 256 password 256 e g in
  out.1 = (KIA_SUCCESS, buffer_of (typed user_keys),
           buffer_of (typed secret_keys)) /\
  buf_str (buffer_of (typed user_keys)) = typed user_keys /\
  buf_str (buffer_of (typed secret_keys)) = typed secret_keys /\
  g_input out.2 = rest.
Proof.
  intros Hukeys Hskeys Hulen Hslen Hu Hp Hscr Hy Hx Hinput. cbv zeta.
  split; [|split; [apply buf_str_typed; [exact Hukeys|lia]|
           split; [apply buf_str_typed; [exact Hskeys|lia]|]]].
  all: unfold tui_get_credentials; unfold_M;
    cbn -[memset0 tui_get_credentials_loop];
    rewrite Hscr; cbn [negb];
    replace (max_y (g_screen g) <? 10) with false
      by (symmetry; apply Z.ltb_ge; lia);
    replace (max_x (g_screen g) <? 50) with false
      by (symmetry; apply Z.ltb_ge; lia);
    cbn -[memset0 tui_get_credentials_loop];
    rewrite Hinput, !memset0_all by assumption;
    change (Z.to_nat 256) with 256%nat;
    pose proof (tui_get_credentials_loop_types_username user_keys []
                  (key 9 :: map key secret_keys ++ key 10 :: rest)%list
                  (replicate 256 zero) 0 Hukeys) as Htype_user;
    cbn [List.length app Nat.sub] in Htype_user;
    change (Z.of_nat 0) with 0 in Htype_user;
    rewrite Htype_user by lia; clear Htype_user;
    cbn [tui_get_credentials_loop key in_refresh_ok in_key negb];
    cbn [Z.eqb Pos.eqb ERR KEY_ENTER KEY_DOWN orb FIELD_USERNAME FIELD_PASSWORD];
    pose proof (tui_get_credentials_loop_types_password secret_keys []
                  (key 10 :: rest)
                  (map char_of_key user_keys
                   ++ replicate (256 - List.length (map char_of_key user_keys))
                        zero)%list
                  (Z.of_nat (List.length (map char_of_key user_keys))) Hskeys)
      as Htype_secret;
    cbn [List.length app Nat.sub] in Htype_secret;
    change (Z.of_nat 0) with 0 in Htype_secret;
    rewrite Htype_secret by lia; clear Htype_secret;
    cbn [tui_get_credentials_loop key in_refresh_ok in_key negb];
    cbn [Z.eqb Pos.eqb ERR KEY_ENTER orb];
    rewrite !length_map;
    replace (Z.of_nat (List.length user_keys) >? 0) with true
      by (symmetry; apply Z.gtb_lt; lia);
    rewrite !Nat2Z.id.
  - cbn [fst snd].
    pose proof (field_terminate (map char_of_key user_keys)) as Hu0.
    pose proof (field_terminate (map char_of_key secret_keys)) as Hp0.
    rewrite !length_map in Hu0, Hp0. rewrite Hu0, Hp0 by lia.
    unfold typed. rewrite !buffer_of_chars by (rewrite length_map; lia).
    rewrite !length_map. reflexivity.
  - reflexivity.
Qed.

(** "alice", Tab, "correct", Enter. *)
Lemma tui_get_credentials_typed_witness :
  let out := tui_get_credentials (buffer_of "") 256 (buffer_of "") 256
               example_env
               (globals_init {| stdscr_ok := true; max_y := 24; max_x := 80 |}
                  (map key [97; 108; 105; 99; 101] ++ key 9
                   :: map key [99; 111; 114; 114; 101; 99; 116]
                   ++ key 10 :: [key KEY_DOWN; key 10])%list) in
  out.1 = (KIA_SUCCESS, buffer_of "alice", buffer_of "correct") /\
  g_input out.2 = [key KEY_DOWN; key 10].
Proof.
  destruct (tui_get_credentials_typed [97; 108; 105; 99; 101]
              [99; 111; 114; 114; 101; 99; 116] [key KEY_DOWN; key 10]
              (buffer_of "") (buffer_of "") example_env
              (globals_init {| stdscr_ok := true; max_y := 24; max_x := 80 |}
                 (map key [97; 108; 105; 99; 101] ++ key 9
                  :: map key [99; 111; 114; 114; 101; 99; 116]
                  ++ key 10 :: [key KEY_DOWN; key 10])%list))
    as (Hout & _ & _ & Hrest).
  - repeat constructor; unfold printable; lia.
  - repeat constructor; unfold printable; lia.
  - cbn. lia.
  - cbn. lia.
  - reflexivity.
  - reflexivity.
  - reflexivity.
  - cbn. lia.
  - cbn. lia.
  - reflexivity.
  - split; [exact Hout|exact Hrest].
Defined.

End Typing.

Section LogSink.

Implicit Types (lg : Logger.logger_state) (io : Logger.log_io).

(** The cases of [logger_log] that return before [fprintf]. *)
Ltac no_line :=
  cbn [negb orb fst snd Logger.logging_enabled Logger.log_file
       Logger.min_log_level];
  repeat apply conj;
  first [ reflexivity | assumption | discriminate
        | intros Hon; exact Hon
        | intros Hon; congruence
        | intros [? ?]; discriminate
        | intros ([? ?] & ? & [? ?] & ? & ? & ?);
          first [discriminate|congruence|lia] ].

(** X24.  [logger_log] hands a line to [fprintf] exactly when a format is
    given, logging is enabled with a file open, the level is at least
    the minimum and one of the four, and [vsnprintf] did not fail; the
    line carries the name of the level.  Logging is still enabled
    afterwards only if it was and neither formatting, [fprintf] nor
    [fflush] failed; the file and the minimum level are never
    changed. *)
Theorem logger_log_writes io (level : Z) (format : option string) lg :
  let out := Logger.logger_log io level format lg in
  (is_Some out.2 <->
     is_Some format /\ Logger.logging_enabled lg = true /\
     is_Some (Logger.log_file lg) /\
     Logger.min_log_level lg <= level /\
     Logger.LOG_DEBUG <= level <= Logger.LOG_ERROR /\
     0 <= Logger.io_vsnprintf io) /\
  (forall line, out.2 = Some line ->
     Logger.line_level line = Logger.log_level_strings level /\
     Logger.line_message line = Logger.io_message io /\
     (Logger.logging_enabled out.1 = true <->
      0 <= Logger.io_fprintf io /\ Logger.io_fflush io = 0)) /\
  (Logger.logging_enabled out.1 = true -> Logger.logging_enabled lg = true) /\
  Logger.log_file out.1 = Logger.log_file lg /\
  Logger.min_log_level out.1 = Logger.min_log_level lg.
Proof.
  cbv zeta. unfold Logger.logger_log.
  destruct format as [format|]; [|no_line].
  destruct (Logger.logging_enabled lg) eqn:Hen; cbn [negb orb]; [|no_line].
  destruct (Logger.log_file lg) as [path|] eqn:Hfile.
  2:{ rewrite bool_decide_eq_false_2 by (intros [? ?]; discriminate).
      no_line. }
  rewrite bool_decide_eq_true_2 by (eexists; reflexivity). cbn [negb].
  destruct (level <? Logger.min_log_level lg) eqn:Hmin; Zbool; [no_line|].
  destruct ((level <? Logger.LOG_DEBUG) || (level >? Logger.LOG_ERROR))
    eqn:Hlevel.
  { apply orb_true_iff in Hlevel as [Hl|Hl]; Zbool; no_line. }
  apply orb_false_iff in Hlevel as [Hlow Hhigh]. Zbool.
  destruct (Logger.io_vsnprintf io <? 0) eqn:Hfmt; Zbool; [no_line|].
  cbn [fst snd Logger.logging_enabled Logger.log_file Logger.min_log_level].
  rewrite ?Hen, ?Hfile.
  split; [|split; [|split; [|split]]]; try reflexivity.
  - split; [intros _|intros _; eexists; reflexivity].
    split; [eexists; reflexivity|]. split; [reflexivity|].
    split; [eexists; reflexivity|]. lia.
  - intros line Hline. injection Hline as <-.
    cbn [Logger.line_level Logger.line_message].
    split; [reflexivity|]. split; [reflexivity|].
    destruct (Logger.io_fprintf io <? 0) eqn:Hw;
      destruct (Logger.io_fflush io =? 0) eqn:Hf; cbn [negb]; Zbool;
      (split; [first [discriminate|intros _; split; [lia|assumption]]
              |first [reflexivity|intros [? ?]; first [lia|contradiction]]]).
Qed.

Lemma logger_log_disabled io (level : Z) (format : option string) lg :
  Logger.logging_enabled lg = false ->
  Logger.logger_log io level format lg = (lg, None).
Proof.
  intros Hoff. unfold Logger.logger_log. destruct format; [|reflexivity].
  rewrite Hoff. reflexivity.
Qed.

Lemma logger_log_failed_write io (level : Z) (format : option string) lg :
  is_Some (Logger.logger_log io level format lg).2 ->
  Logger.io_fprintf io < 0 \/ Logger.io_fflush io <> 0 ->
  Logger.logging_enabled (Logger.logger_log io level format lg).1 = false.
Proof.
  unfold Logger.logger_log. intros Hline Hfail.
  destruct format as [format|]; [|destruct Hline; discriminate].
  destruct (negb (Logger.logging_enabled lg)
            || negb (bool_decide (is_Some (Logger.log_file lg))));
    [destruct Hline; discriminate|].
  destruct (level <? Logger.min_log_level lg);
    [destruct Hline; discriminate|].
  destruct ((level <? Logger.LOG_DEBUG) || (level >? Logger.LOG_ERROR));
    [destruct Hline; discriminate|].
  destruct (Logger.io_vsnprintf io <? 0); [reflexivity|].
  cbn [fst Logger.logging_enabled].
  destruct (Logger.io_fflush io =? 0) eqn:Hf; cbn [negb]; [|reflexivity].
  destruct (Logger.io_fprintf io <? 0) eqn:Hw; [reflexivity|]. Zbool.
  destruct Hfail; [lia|contradiction].
Qed.

(** X25.  Once logging is disabled, by [logger_close], by a [logger_init]
    that is told so or cannot open the file, or by a write or flush
    that failed, no run of [logger_log] calls writes a line or changes
    the state: only [logger_init] brings logging back. *)
Theorem logger_disabled_is_silent
    (calls : list (Logger.log_io * Z * option string)) lg
    (fopen_a : string -> bool) (log_path : option string) :
  let silent lg' := Logger.logger_log_all calls lg' = (lg', []) in
  (Logger.logging_enabled lg = false -> silent lg) /\
  silent (Logger.logger_close lg) /\
  (is_Some log_path ->
   silent (Logger.logger_init fopen_a log_path false lg).2) /\
  (forall path, log_path = Some path -> fopen_a path = false ->
     silent (Logger.logger_init fopen_a log_path true lg).2) /\
  (forall io level format,
     is_Some (Logger.logger_log io level format lg).2 ->
     Logger.io_fprintf io < 0 \/ Logger.io_fflush io <> 0 ->
     silent (Logger.logger_log io level format lg).1).
Proof.
  cbv zeta.
  assert (Hsilent : forall lg', Logger.logging_enabled lg' = false ->
            Logger.logger_log_all calls lg' = (lg', [])).
  { induction calls as [|[[io level] format] calls IH]; intros lg' Hoff;
      cbn [Logger.logger_log_all]; [reflexivity|].
    rewrite logger_log_disabled by exact Hoff. rewrite IH by exact Hoff.
    reflexivity. }
  split; [exact (Hsilent lg)|]. split; [apply Hsilent; reflexivity|].
  split; [intros [path ->]; apply Hsilent; reflexivity|].
  split.
  - intros path -> Hopen. apply Hsilent. unfold Logger.logger_init.
    rewrite Hopen. reflexivity.
  - intros io level format Hline Hfail. apply Hsilent.
    apply logger_log_failed_write; assumption.
Qed.

End LogSink.

Section LoadConfig.

Implicit Types (ctx : app_context_t) (e : env) (g : globals) (sys : system).

Lemma config_load_in_range (fopen_r : string -> option FILE)
    (path : option string) (config : kia_config_t) :
  exists r config',
    config_load fopen_r path (Some config) = (r, Some config') /\
    config_in_range config'.
Proof.
  unfold config_load.
  pose proof (config_set_defaults_in_range config) as Hdef.
  destruct path as [[|c p]|];
    try (eexists _, _; split; [reflexivity|exact Hdef]).
  destruct (fopen_r (String c p)) as [file|];
    [|eexists _, _; split; [reflexivity|exact Hdef]].
  pose proof (config_read_lines_in_range
                (S (String.length (f_bytes file))) (f_bytes file)
                (f_fails file) (config_set_defaults config) false Hdef)
    as Hrange.
  destruct (config_read_lines _ _ _ _ _) as [config' has_error].
  cbn [fst] in Hrange.
  rewrite (config_validate_in_range config' Hrange). cbn [Z.eqb negb].
  eexists _, _. split; [reflexivity|exact Hrange].
Qed.

(** X26.  After [handle_load_config] the configuration of the context is
    within the validated ranges, whatever the configuration file holds
    and whether or not it could be read; the state is CheckAutologin
    only with a catalog of at least one session, each usable, and
    otherwise the state is Exit and the result [KIA_ERROR_SESSION]. *)
Theorem handle_load_config_result sys ctx e g :
  directories_countable (sys_fs sys) ->
  let out := (handle_load_config sys ctx e g).1 in
  config_in_range (ctx_config out.2) /\
  (out.1 = KIA_SUCCESS /\ ctx_state out.2 = STATE_CHECK_AUTOLOGIN /\
   0 < count (ctx_sessions out.2) /\
   catalog_ok (sessions (ctx_sessions out.2)) (count (ctx_sessions out.2)) \/
   out.1 = KIA_ERROR_SESSION /\ ctx_state out.2 = STATE_EXIT).
Proof.
  intros Hdirs. cbv zeta. unfold handle_load_config.
  destruct (config_load_in_range (fs_fopen (sys_fs sys)) (Some KIA_CONFIG_PATH)
              (ctx_config ctx)) as (r & config' & -> & Hrange).
  cbn [default set_ctx_config ctx_config ctx_sessions].
  unfold mbind, M_bind. cbn beta.
  match goal with
  | |- context [(if ?c then ?a else ?b) e g] =>
      destruct ((if c then a else b) e g) as [[] g1]
  end.
  match goal with
  | |- context [(if ?c then ?a else ?b) e g1] =>
      destruct ((if c then a else b) e g1) as [[] g2]
  end.
  pose proof (session_discover_run (sys_fs sys) (ctx_sessions ctx) e g2 Hdirs)
    as Hdiscover.
  destruct (session_discover (sys_fs sys) (Some (ctx_sessions ctx)) e g2)
    as [[rd list] g3].
  cbv zeta in Hdiscover. cbn [fst snd] in Hdiscover.
  destruct Hdiscover as (l & -> & Hok & Hcode & _).
  cbn [default set_ctx_sessions ctx_sessions ctx_config]. unfold id.
  destruct (negb (rd =? KIA_SUCCESS) || (count l =? 0)) eqn:Hbad.
  - unfold mret, M_ret, logger_log, emit. cbn beta iota.
    match goal with
    | |- context [tui_show_error ?m ?e ?g0] =>
        destruct (tui_show_error m e g0) as [[] g4]
    end.
    cbn. split; [exact Hrange|]. right. split; reflexivity.
  - unfold_M. cbn. split; [exact Hrange|]. left.
    apply orb_false_iff in Hbad as [_ Hcount]. apply Z.eqb_neq in Hcount.
    destruct Hok as (Hpos & Hlen & Husable).
    split; [reflexivity|]. split; [reflexivity|]. split; [lia|].
    split; [exact Hpos|]. split; [exact Hlen|exact Husable].
Qed.

Lemma handle_load_config_result_witness :
  let out := (handle_load_config example_system initial_ctx example_env
                example_globals).1 in
  config_in_range (ctx_config out.2) /\
  ctx_state out.2 = STATE_CHECK_AUTOLOGIN.
Proof.
  destruct (handle_load_config_result example_system initial_ctx example_env
              example_globals example_fs_countable) as [Hrange Hstate].
  split; [exact Hrange|]. vm_compute. reflexivity.
Defined.

(** The tests of [parse_config_line], one after the other. *)
Ltac line_paths :=
  repeat match goal with
         | |- context [if ?c then _ else _] =>
             lazymatch c with
             | context [if _ then _ else _] => fail
             | _ => destruct c eqn:?
             end
         end.

(** X27.  A configuration line changes at most the field its key names:
    a field differs after [parse_config_line] only if the trimmed text
    before the first '=' is exactly the key of that field.  A line
    that is rejected (the result is not [KIA_SUCCESS]) changes nothing;
    an empty line and a comment are accepted and change nothing; and a
    line whose key is none of the six changes nothing. *)
Theorem parse_config_line_frame (line : string) (config : kia_config_t) :
  let config' := (parse_config_line line config).2 in
  (autologin_enabled config' <> autologin_enabled config ->
   line_key line = Some "autologin_enabled") /\
  (autologin_user config' <> autologin_user config ->
   line_key line = Some "autologin_user") /\
  (default_session config' <> default_session config ->
   line_key line = Some "default_session") /\
  (max_attempts config' <> max_attempts config ->
   line_key line = Some "max_attempts") /\
  (enable_logs config' <> enable_logs config ->
   line_key line = Some "enable_logs") /\
  (lockout_duration config' <> lockout_duration config ->
   line_key line = Some "lockout_duration") /\
  ((parse_config_line line config).1 <> KIA_SUCCESS -> config' = config) /\
  (line = "" \/ (exists rest, line = String "#" rest) ->
   parse_config_line line config = (KIA_SUCCESS, config)) /\
  ((forall k, In k config_keys -> line_key line <> Some k) ->
   config' = config).
Proof.
  cbv zeta.
  assert (Hfields :
    forall A (field : kia_config_t -> A) (k : string),
      (forall before after,
         split_at "="%char line = Some (before, after) ->
         (strcmp (trim_whitespace before) k =? 0) = false ->
         field (parse_config_line line config).2 = field config) ->
      field (parse_config_line line config).2 <> field config ->
      line_key line = Some k).
  { intros A field k Hkeep Hdiff. unfold line_key.
    destruct (split_at "="%char line) as [[before after]|] eqn:Hsplit.
    - destruct (strcmp (trim_whitespace before) k =? 0) eqn:Hk.
      + f_equal. apply strcmp_eq, Hk.
      + contradiction Hdiff. apply (Hkeep before after eq_refl Hk).
    - contradiction Hdiff. unfold parse_config_line. rewrite Hsplit.
      destruct (match line with
                | EmptyString => true
                | String c _ => Ascii.eqb c "#"%char
                end); reflexivity. }
  repeat apply conj.
  1-6: apply Hfields; intros before after Hsplit Hk;
    unfold parse_config_line; rewrite Hsplit; line_paths;
    try reflexivity; congruence.
  - apply parse_config_line_rejected.
  - intros [->|[rest ->]]; reflexivity.
  - intros Hunknown. unfold parse_config_line, line_key in *.
    destruct (match line with
              | EmptyString => true
              | String c _ => Ascii.eqb c "#"%char
              end); [reflexivity|].
    destruct (split_at "="%char line) as [[before after]|]; [|reflexivity].
    line_paths; cbn [snd]; try reflexivity; exfalso;
      match goal with
      | H : (strcmp _ ?k =? 0) = true |- _ =>
          apply (Hunknown k); [cbn; tauto|f_equal; apply strcmp_eq, H]
      end.
Qed.

End LoadConfig.
